(** * ECom-Intel: review extraction, deduplication and aggregation

    A shallow embedding of the review pipeline of [firecrawl_client.py]
    (segmentation of scraped markdown into review records, rating
    normalisation, the likely-review heuristic, prefix deduplication) and
    of [review_analyzer.py] (sentiment and rating distributions), with the
    properties of the pipeline proved on it.

    Modelling conventions.
    - A Python [str] is a list of code points ([list N]); [py] turns an
      ASCII literal into such a list.  [str.isspace], [str.strip],
      [str.split] and the class [\s] cover every character Python counts
      as white space; the class [\d] and [float] read the decimal digits
      of every script.  [re.IGNORECASE] is modelled for patterns whose
      letters are ASCII, as those of the source are.  [str.lower] maps
      the ASCII letters; other characters are carried through unchanged.
    - A rating is a double: [float], the division and the multiplication
      of [_normalize_rating] round to the nearest double, and a long
      token gives [inf].  The averages and percentages of the analyzer
      are exact rationals ([Q]), compared with [==].
    - A review is a Python [dict], a [gmap string pyval]; code that raises
      on a value of the wrong type returns [Raise].
    - The [re] module is a backtracking matcher over the fragment of the
      pattern language the source uses; each pattern of the source is
      written out as a term of that fragment next to its text.
    - The calls to the search and scrape service and to the language
      model are parameters of the functions that make them. *)

From Stdlib Require Import ZArith NArith QArith Qround Qpower Lia Lqa String Ascii.
From stdpp Require Import gmap strings list fin_maps.

Local Open Scope N_scope.

(** ** Python strings *)

Module PyStr.

Abbreviation pystr := (list N).

Definition py (s : string) : pystr :=
  N_of_ascii <$> list_ascii_of_string s.

(** [str.isspace] on one character: the ASCII white space, the four
    information separators, and the Unicode characters of bidirectional
    class WS, B or S or of category Zs. *)
Definition isspace (c : N) : bool :=
  ((9 <=? c) && (c <=? 13)) || ((28 <=? c) && (c <=? 32)) ||
  (c =? 133) || (c =? 160) || (c =? 5760) ||
  ((8192 <=? c) && (c <=? 8202)) || (c =? 8232) || (c =? 8233) ||
  (c =? 8239) || (c =? 8287) || (c =? 12288).

(** The decimal digits of Unicode 14.0, the character database of
    Python 3.11, come in runs of ten, from the zero to the nine of a
    script: the zero of each run. *)
Definition decimal_zeros : list N :=
  [48; 1632; 1776; 1984; 2406; 2534; 2662; 2790; 2918; 3046; 3174; 3302;
   3430; 3558; 3664; 3792; 3872; 4160; 4240; 6112; 6160; 6470; 6608; 6784;
   6800; 6992; 7088; 7232; 7248; 42528; 43216; 43264; 43472; 43504; 43600;
   44016; 65296; 66720; 68912; 69734; 69872; 69942; 70096; 70384; 70736;
   70864; 71248; 71360; 71472; 71904; 72016; 72784; 73040; 73120; 92768;
   92864; 93008; 120782; 120792; 120802; 120812; 120822; 123200; 123632;
   125264; 130032].

(** [c] is one of the ten digits that start at [zero]. *)
Definition in_run (c zero : N) : bool := (zero <=? c) && (c <=? zero + 9).

(** [str.isdecimal] on one character, general category Nd: what the
    class [\d] matches in a [str] pattern and what [float] reads as a
    digit. *)
Definition isdecimal (c : N) : bool := existsb (in_run c) decimal_zeros.

(** The value of a decimal digit. *)
Definition decimal_value (c : N) : N :=
  match List.find (in_run c) decimal_zeros with
  | Some zero => c - zero
  | None => 0
  end.

Definition lower_char (c : N) : N :=
  if (65 <=? c) && (c <=? 90) then c + 32 else c.

Definition upper_char (c : N) : N :=
  if (97 <=? c) && (c <=? 122) then c - 32 else c.

(** [s.lower()] *)
Definition lower (s : pystr) : pystr := lower_char <$> s.

Fixpoint lstrip (s : pystr) : pystr :=
  match s with
  | c :: s' => if isspace c then lstrip s' else s
  | [] => []
  end.

Definition rstrip (s : pystr) : pystr := reverse (lstrip (reverse s)).

(** [s.strip()] *)
Definition strip (s : pystr) : pystr := rstrip (lstrip s).

(** [s.split(sep)] for a one-character separator: empty pieces are kept. *)
Fixpoint split_on (sep : N) (s : pystr) : list pystr :=
  match s with
  | [] => [[]]
  | c :: s' =>
      if c =? sep then [] :: split_on sep s'
      else match split_on sep s' with
           | w :: ws => (c :: w) :: ws
           | [] => [[c]]
           end
  end.

(** [s.split()]: the maximal runs of characters that are not white space.
    [cur] is the word being read, in reverse. *)
Fixpoint split_ws_aux (cur : pystr) (s : pystr) : list pystr :=
  match s with
  | [] => match cur with [] => [] | _ => [reverse cur] end
  | c :: s' =>
      if isspace c then
        match cur with
        | [] => split_ws_aux [] s'
        | _ => reverse cur :: split_ws_aux [] s'
        end
      else split_ws_aux (c :: cur) s'
  end.

Definition split_ws (s : pystr) : list pystr := split_ws_aux [] s.

Fixpoint starts_with (p s : pystr) : bool :=
  match p, s with
  | [], _ => true
  | a :: p', b :: s' => (a =? b) && starts_with p' s'
  | _ :: _, [] => false
  end.

(** [needle in hay] on strings *)
Fixpoint contains (needle hay : pystr) : bool :=
  starts_with needle hay ||
  match hay with
  | [] => false
  | _ :: hay' => contains needle hay'
  end.

(** Truth value of a string: non-empty. *)
Definition truthy (s : pystr) : bool :=
  match s with [] => false | _ => true end.

End PyStr.
Export PyStr.

(** ** The fragment of Python's [re] used by the source *)

Module Re.

(** One-character matchers. *)
Inductive cset : Type :=
| CLit (c : N)               (* a literal character *)
| CRange (lo hi : N)         (* [lo-hi] *)
| CDigit                     (* \d *)
| CSpace                     (* \s *)
| CNonSpace                  (* \S *)
| CDot                       (* . : anything but a newline *)
| CUnion (a b : cset).       (* a bracket expression with several members *)

Inductive regex : Type :=
| REmpty
| RSet (c : cset)
| RSeq (r1 r2 : regex)
| RAlt (r1 r2 : regex)                       (* r1|r2 *)
| ROpt (r : regex)                           (* r? *)
| RRep (greedy : bool) (lo : nat) (hi : option nat) (c : cset)
                                             (* c*, c+, c{lo,hi}, c*? *)
| RGroup (i : nat) (r : regex)               (* the i-th capturing group *)
| RLook (r : regex)                          (* (?=r) *)
| REnd.                                      (* $ *)

(** Captures: the most recent binding of a group comes first. *)
Definition caps : Type := list (nat * pystr).

Fixpoint group_of (i : nat) (g : caps) : option pystr :=
  match g with
  | [] => None
  | (j, s) :: g' => if Nat.eqb i j then Some s else group_of i g'
  end.

(** What [re.IGNORECASE] compares, for the patterns of the source, whose
    letters are ASCII: the lower case of a character, where the dotted
    capital I (U+0130) and the dotless i (U+0131) count as i, the long s
    (U+017F) as s and the Kelvin sign (U+212A) as k.  No other character
    has an ASCII letter for its lower case or for an equivalent. *)
Definition caseless (c : N) : N :=
  if (c =? 304) || (c =? 305) then 105
  else if c =? 383 then 115
  else if c =? 8490 then 107
  else lower_char c.

(** The characters from [lo] to [hi]. *)
Definition chars (lo hi : N) : list N :=
  (fun i => lo + N.of_nat i) <$> seq 0 (N.to_nat (hi + 1 - lo)).

Fixpoint cset_match (ic : bool) (c : cset) (x : N) : bool :=
  match c with
  | CLit a => (x =? a) || (ic && (caseless x =? caseless a))
  | CRange lo hi =>
      ((lo <=? x) && (x <=? hi)) ||
      (ic && existsb (fun y => caseless x =? caseless y) (chars lo hi))
  | CDigit => isdecimal x
  | CSpace => isspace x
  | CNonSpace => negb (isspace x)
  | CDot => negb (x =? 10)
  | CUnion a b => cset_match ic a x || cset_match ic b x
  end.

Definition may_repeat (hi : option nat) : bool :=
  match hi with Some O => false | _ => true end.

Section Matcher.
(** [ic] is the flag [re.IGNORECASE]. *)
Variable ic : bool.

(** Repetition of a one-character matcher, with backtracking: the greedy
    form first tries one more character, the lazy form first tries to
    stop.  [lo] and [hi] count what is still required and allowed. *)
Fixpoint rep {R : Type} (c : cset) (greedy : bool) (lo : nat) (hi : option nat)
    (s : pystr) (k : pystr -> option R) {struct s} : option R :=
  if greedy then
    match
      match s with
      | x :: s' =>
          if cset_match ic c x && may_repeat hi
          then rep c greedy (Nat.pred lo) (Nat.pred <$> hi) s' k
          else None
      | [] => None
      end
    with
    | Some v => Some v
    | None => match lo with O => k s | S _ => None end
    end
  else
    match match lo with O => k s | S _ => None end with
    | Some v => Some v
    | None =>
        match s with
        | x :: s' =>
            if cset_match ic c x && may_repeat hi
            then rep c greedy (Nat.pred lo) (Nat.pred <$> hi) s' k
            else None
        | [] => None
        end
    end.

(** The matcher proper, in continuation-passing style: [exec r s g k]
    matches [r] at the head of [s] and hands the rest of the input and
    the captures to [k]; a [None] from [k] makes it backtrack. *)
Fixpoint exec {R : Type} (r : regex) (s : pystr) (g : caps)
    (k : pystr -> caps -> option R) {struct r} : option R :=
  match r with
  | REmpty => k s g
  | RSet c =>
      match s with
      | x :: s' => if cset_match ic c x then k s' g else None
      | [] => None
      end
  | RSeq r1 r2 => exec r1 s g (fun s' g' => exec r2 s' g' k)
  | RAlt r1 r2 =>
      match exec r1 s g k with
      | Some v => Some v
      | None => exec r2 s g k
      end
  | ROpt r1 =>
      match exec r1 s g k with
      | Some v => Some v
      | None => k s g
      end
  | RRep greedy lo hi c => rep c greedy lo hi s (fun s' => k s' g)
  | RGroup i r1 =>
      exec r1 s g
        (fun s' g' => k s' ((i, take (length s - length s') s) :: g'))
  | RLook r1 =>
      match exec r1 s g (fun _ g' => Some g') with
      | Some g' => k s g'
      | None => None
      end
  | REnd =>
      match s with
      | [] => k s g
      | [c] => if c =? 10 then k s g else None
      | _ => None
      end
  end.

(** [re.match]: the captures of a match at the head of [s]. *)
Definition match_at (r : regex) (s : pystr) : option caps :=
  exec r s [] (fun _ g => Some g).

(** [re.search]: the leftmost start position at which [r] matches. *)
Fixpoint search (r : regex) (s : pystr) : option caps :=
  match match_at r s with
  | Some g => Some g
  | None =>
      match s with
      | [] => None
      | _ :: s' => search r s'
      end
  end.
End Matcher.

(** [len(m.groups())]: the number of capturing groups of the pattern. *)
Fixpoint ngroups (r : regex) : nat :=
  match r with
  | RSeq r1 r2 | RAlt r1 r2 => (ngroups r1 + ngroups r2)%nat
  | ROpt r1 | RLook r1 => ngroups r1
  | RGroup _ r1 => S (ngroups r1)
  | _ => O
  end.

(** Pattern syntax. *)
Definition lit (s : string) : regex :=
  foldr (fun c r => RSeq (RSet (CLit c)) r) REmpty (py s).

Definition rseq (rs : list regex) : regex := foldr RSeq REmpty rs.

Definition ralt (rs : list regex) : regex :=
  match rs with
  | [] => REmpty
  | r :: rs' => foldl RAlt r rs'
  end.

Definition star (c : cset) : regex := RRep true 0 None c.
Definition plus (c : cset) : regex := RRep true 1 None c.
Definition lazy_star (c : cset) : regex := RRep false 0 None c.
Definition between (lo hi : nat) (c : cset) : regex := RRep true lo (Some hi) c.

End Re.
Export Re.

(** ** Python values and dictionaries *)

Module PyVal.

Inductive pyval : Type :=
| VNone
| VStr (s : pystr)
| VNum (q : Q).

Global Instance Q_eq_dec : EqDecision Q.
Proof. solve_decision. Defined.

Global Instance pyval_eq_dec : EqDecision pyval.
Proof. solve_decision. Defined.

(** A [dict] with string keys. *)
Abbreviation pydict := (gmap string pyval).

(** [d.get(k, dflt)] *)
Definition py_get (d : gmap string pyval) (k : string) (dflt : pyval) : pyval :=
  default dflt (d !! k).

Definition of_opt_str (o : option pystr) : pyval :=
  match o with Some s => VStr s | None => VNone end.

Definition of_opt_num (o : option Q) : pyval :=
  match o with Some q => VNum q | None => VNone end.

(** Exceptions the modelled code can let escape. *)
Inductive pyexc : Type := AttributeError | TypeError.

Inductive result (A : Type) : Type :=
| Ok (a : A)
| Raise (e : pyexc).
Global Arguments Ok {A} a.
Global Arguments Raise {A} e.

Global Instance result_bind : MBind result := fun A B f m =>
  match m with Ok a => f a | Raise e => Raise e end.

Global Instance result_ret : MRet result := fun A a => Ok a.

End PyVal.
Export PyVal.

(** Comparisons and rounding on numbers. *)

Module PyNum.

Local Open Scope Q_scope.

Definition Qltb (x y : Q) : bool := negb (Qle_bool y x).

(** [min(a, b)] and [max(a, b)]: the first argument unless the second is
    strictly smaller (resp. larger). *)
Definition py_min (a b : Q) : Q := if Qltb b a then b else a.
Definition py_max (a b : Q) : Q := if Qltb a b then b else a.

(** [int(x)]: truncation towards zero. *)
Definition py_int (x : Q) : Z := Z.quot (Qnum x) (Zpos (Qden x)).

(** Rounding to the nearest integer, ties to the even one. *)
Definition round_half_even (x : Q) : Z :=
  let f := Qfloor x in
  let d := x - inject_Z f in
  if Qltb d (1 # 2) then f
  else if Qltb (1 # 2) d then (f + 1)%Z
  else if Z.even f then f else (f + 1)%Z.

(** [round(x, ndigits)] *)
Definition py_round (x : Q) (ndigits : nat) : Q :=
  let p := Pos.pow 10 (Pos.of_nat ndigits) in
  match ndigits with
  | O => inject_Z (round_half_even x)
  | S _ => round_half_even (x * inject_Z (Zpos p)) # p
  end.

Fixpoint digits_value (acc : N) (s : pystr) : N :=
  match s with
  | [] => acc
  | c :: s' => digits_value (10 * acc + decimal_value c)%N s'
  end.

Fixpoint take_digits (s : pystr) : pystr :=
  match s with
  | c :: s' => if isdecimal c then c :: take_digits s' else []
  | [] => []
  end.

Fixpoint drop_digits (s : pystr) : pystr :=
  match s with
  | c :: s' => if isdecimal c then drop_digits s' else s
  | [] => []
  end.

(** A [float] that is not negative: a double, or [inf]. *)
Inductive pyfloat : Type :=
| Finite (q : Q)
| Inf.

(** The binary exponent of a positive number: [2 ^ e <= q < 2 ^ (e + 1)]. *)
Definition ilog2 (q : Q) : Z :=
  let e := (Z.log2 (Qnum q) - Z.log2 (Zpos (Qden q)))%Z in
  if Qle_bool (2 ^ e) q then e else (e - 1)%Z.

(** The double nearest to a number that is not negative, ties to the
    even mantissa: 53 bits of mantissa, the exponent from -1022 on
    (below it the numbers are subnormal and share the smallest unit),
    and [inf] from [2 ^ 1024] on. *)
Definition round_double (q : Q) : pyfloat :=
  if Qle_bool q 0 then Finite 0
  else
    let e := Z.max (ilog2 q) (-1022) in
    let ulp := 2 ^ (e - 52) in
    let r := inject_Z (round_half_even (q / ulp)) * ulp in
    if Qle_bool (2 ^ 1024) r then Inf else Finite (Qred r).

(** [x < y] and [x <= y] on floats. *)
Definition float_ltb (x y : pyfloat) : bool :=
  match x, y with
  | Finite a, Finite b => Qltb a b
  | Finite _, Inf => true
  | Inf, _ => false
  end.

Definition float_leb (x y : pyfloat) : bool := negb (float_ltb y x).

(** [x / n] and [x * n] for a float [x] and a positive integer [n]:
    the double nearest to the quotient and to the product. *)
Definition float_div (x : pyfloat) (n : Q) : pyfloat :=
  match x with
  | Finite a => round_double (a / n)
  | Inf => Inf
  end.

Definition float_mul (x : pyfloat) (n : Q) : pyfloat :=
  match x with
  | Finite a => round_double (a * n)
  | Inf => Inf
  end.

(** [min(a, x)] for a number [a] and a float [x]. *)
Definition py_min_float (a : Q) (x : pyfloat) : Q :=
  match x with
  | Finite b => py_min a b
  | Inf => a
  end.

(** [float(s)] on plain decimal notation, [digits] or [digits.digits],
    which is all the rating pattern can capture: the double nearest to
    the number written.  [None] stands for the [ValueError] raised on
    other text. *)
Definition py_float (s : pystr) : option pyfloat :=
  let ip := take_digits s in
  if truthy ip then
    match drop_digits s with
    | [] => Some (round_double (inject_Z (Z.of_N (digits_value 0 ip))))
    | c :: fp =>
        if (c =? 46)%N && truthy fp && forallb isdecimal fp
        then Some (round_double
                     (Z.of_N (digits_value 0 (ip ++ fp))
                      # Pos.pow 10 (Pos.of_nat (length fp))))
        else None
    end
  else None.

End PyNum.
Export PyNum.

(** ** firecrawl_client.py *)

Module Firecrawl.

Definition chr (a : ascii) : N := N_of_ascii a.

(** [\d+(?:\.\d+)?] *)
Definition number : regex :=
  rseq [plus CDigit; ROpt (rseq [RSet (CLit (chr ".")); plus CDigit])].

(** [stars?] *)
Definition stars : regex := rseq [lit "star"; ROpt (RSet (CLit (chr "s")))].

(** [[:\s]*] *)
Definition colons : regex := star (CUnion (CLit (chr ":")) CSpace).

(** The star glyph, U+2605. *)
Definition glyph : cset := CLit 9733.

(** The four rating patterns of [extract_reviews_from_content], in the
    order of the source. *)
Definition review_patterns : list regex :=
  [ (* (\d+(?:\.\d+)?)\s*stars?\s*(.*?)(?=\d+(?:\.\d+)?\s*stars?|$) *)
    rseq [RGroup 1 number; star CSpace; stars; star CSpace;
          RGroup 2 (lazy_star CDot);
          RLook (RAlt (rseq [number; star CSpace; stars]) REnd)];
    (* Rating[:\s]*(\d+(?:\.\d+)?)[\s\S]*?(.*?)(?=Rating[:\s]*\d+(?:\.\d+)?|$) *)
    rseq [lit "Rating"; colons; RGroup 1 number;
          lazy_star (CUnion CSpace CNonSpace);
          RGroup 2 (lazy_star CDot);
          RLook (RAlt (rseq [lit "Rating"; colons; number]) REnd)];
    (* (\d+)\/5\s*(.*?)(?=\d+\/5|$) *)
    rseq [RGroup 1 (plus CDigit); lit "/5"; star CSpace;
          RGroup 2 (lazy_star CDot);
          RLook (RAlt (rseq [plus CDigit; lit "/5"]) REnd)];
    (* ★{1,5}\s*(.*?)(?=★{1,5}|$) *)
    rseq [between 1 5 glyph; star CSpace;
          RGroup 1 (lazy_star CDot);
          RLook (RAlt (between 1 5 glyph) REnd)] ].

(** [(\d+(?:\.\d+)?)], the pattern of [_normalize_rating]. *)
Definition rating_token : regex := RGroup 1 number.

Definition _normalize_rating (rating : pystr) : option Q :=
  match search false rating_token rating with
  | Some m =>
      match py_float (default [] (group_of 1 m)) with
      | Some rating_value =>
          let rating_value :=
            if float_ltb (Finite 5) rating_value then float_div rating_value 20
            else if float_leb rating_value (Finite 1) then float_mul rating_value 5
            else rating_value in
          Some (py_max 1 (py_min_float 5 rating_value))
      | None => None     (* except: pass *)
      end
  | None => None
  end.

(** The first pattern of the list that is found in the text, with the
    captures of its match. *)
Fixpoint first_search (ic : bool) (patterns : list regex) (text : pystr)
    : option (regex * caps) :=
  match patterns with
  | [] => None
  | pattern :: rest =>
      match search ic pattern text with
      | Some m => Some (pattern, m)
      | None => first_search ic rest text
      end
  end.

(** [[A-Z][a-z]+\s+[A-Z][a-z]+] *)
Definition two_names : regex :=
  rseq [RSet (CRange (chr "A") (chr "Z")); plus (CRange (chr "a") (chr "z"));
        plus CSpace;
        RSet (CRange (chr "A") (chr "Z")); plus (CRange (chr "a") (chr "z"))].

Definition name_patterns : list regex :=
  [ (* by\s+([A-Z][a-z]+\s+[A-Z][a-z]+) *)
    rseq [lit "by"; plus CSpace; RGroup 1 two_names];
    (* -\s*([A-Z][a-z]+\s+[A-Z][a-z]+) *)
    rseq [lit "-"; star CSpace; RGroup 1 two_names];
    (* ([A-Z][a-z]+\s+[A-Z][a-z]+)\s*said *)
    rseq [RGroup 1 two_names; star CSpace; lit "said"] ].

Definition _extract_reviewer_name (review_text : pystr) : option pystr :=
  match first_search false name_patterns review_text with
  | Some (_, m) => group_of 1 m
  | None => None
  end.

Definition months : list string :=
  ["January"; "February"; "March"; "April"; "May"; "June"; "July";
   "August"; "September"; "October"; "November"; "December"]%string.

Definition month : regex := ralt (lit <$> months).

(** [\d{n}] *)
Definition digits (n : nat) : regex := RRep true n (Some n) CDigit.

Definition date_patterns : list regex :=
  [ (* (\d{1,2}/\d{1,2}/\d{4}) *)
    RGroup 1 (rseq [between 1 2 CDigit; lit "/"; between 1 2 CDigit;
                    lit "/"; digits 4]);
    (* (\d{1,2}-\d{1,2}-\d{4}) *)
    RGroup 1 (rseq [between 1 2 CDigit; lit "-"; between 1 2 CDigit;
                    lit "-"; digits 4]);
    (* (January|...|December)\s+\d{1,2},?\s+\d{4} *)
    rseq [RGroup 1 month; plus CSpace; between 1 2 CDigit;
          ROpt (RSet (CLit (chr ","))); plus CSpace; digits 4];
    (* (\d{1,2}\s+(January|...|December)\s+\d{4}) *)
    RGroup 1 (rseq [between 1 2 CDigit; plus CSpace; RGroup 2 month;
                    plus CSpace; digits 4]) ].

Definition _extract_review_date (review_text : pystr) : option pystr :=
  match first_search true date_patterns review_text with
  | Some (_, m) => group_of 1 m
  | None => None
  end.

Definition review_indicators : list pystr :=
  py <$> ["great"; "good"; "bad"; "excellent"; "poor"; "love"; "hate";
          "recommend"; "quality"; "price"; "service"; "delivery";
          "package"; "product"; "item"; "worked"; "didn't work"]%string.

Definition indicator_count (text : pystr) : nat :=
  let text_lower := lower text in
  length (filter (fun indicator => Is_true (contains indicator text_lower))
                 review_indicators).

Definition word_count (text : pystr) : nat := length (split_ws text).

Definition _is_likely_review (text : pystr) : bool :=
  ((2 <=? indicator_count text)%nat && (10 <=? word_count text)%nat) ||
  ((1 <=? indicator_count text)%nat && (20 <=? word_count text)%nat).

End Firecrawl.
Export Firecrawl.

(** *** The review segmenter *)

Module Segmenter.

(** The loop state of [extract_reviews_from_content].  [current_rating] is
    [None] until a rating marker has been seen. *)
Record seg_state : Type := SegState {
  reviews : list (gmap string pyval);
  current_review : pystr;
  current_rating : option pystr
}.

Definition make_review (current_review current_rating source_url : pystr)
    : gmap string pyval :=
  {[ "review_text" := VStr (strip current_review);
     "rating" := of_opt_num (_normalize_rating current_rating);
     "reviewer_name" := of_opt_str (_extract_reviewer_name current_review);
     "review_date" := of_opt_str (_extract_review_date current_review);
     "source_url" := VStr source_url ]}%string.

(** [if current_review and current_rating: reviews.append({...})] *)
Definition flush (source_url : pystr) (st : seg_state) : list (gmap string pyval) :=
  match current_rating st with
  | Some rating =>
      if truthy (current_review st) && truthy rating
      then reviews st ++ [make_review (current_review st) rating source_url]
      else reviews st
  | None => reviews st
  end.

(** One iteration of the loop over the lines. *)
Definition scan_line (source_url : pystr) (st : seg_state) (line : pystr)
    : seg_state :=
  let line := strip line in
  if negb (truthy line) || (length line <? 10)%nat then st
  else
    match first_search true review_patterns line with
    | Some (pattern, rating_match) =>
        {| reviews := flush source_url st;
           current_rating := group_of 1 rating_match;
           current_review :=
             if (1 <? ngroups pattern)%nat
             then default [] (group_of 2 rating_match)
             else line |}
    | None =>
        if truthy (current_review st) then
          {| reviews := reviews st;
             current_review := current_review st ++ py " " ++ line;
             current_rating := current_rating st |}
        else if _is_likely_review line then
          {| reviews := reviews st;
             current_review := line;
             current_rating := current_rating st |}
        else st
    end.

Definition initial : seg_state :=
  {| reviews := []; current_review := []; current_rating := None |}.

(** The loop over an already split page. *)
Definition extract_reviews_from_lines (lines : list pystr) (source_url : pystr)
    : list (gmap string pyval) :=
  flush source_url (foldl (scan_line source_url) initial lines).

Definition extract_reviews_from_content (content source_url : pystr)
    : list (gmap string pyval) :=
  extract_reviews_from_lines (split_on 10 content) source_url.

(** What every record built by the segmenter looks like: the five fields
    of the source, a trimmed text, a rating that is absent or lies
    between 1 and 5, and the address of the page. *)
Definition segmenter_record (source_url : pystr) (r : gmap string pyval) : Prop :=
  dom r = ({[ "review_text"; "rating"; "reviewer_name"; "review_date";
              "source_url" ]} : gset string)%string /\
  (exists t, r !! "review_text"%string = Some (VStr t) /\ strip t = t) /\
  (r !! "rating"%string = Some VNone \/
   exists q, r !! "rating"%string = Some (VNum q) /\ (1 <= q)%Q /\ (q <= 5)%Q) /\
  r !! "source_url"%string = Some (VStr source_url).

End Segmenter.
Export Segmenter.

(** *** The deduplicator *)

Module Dedup.

(** [v.strip()]: only a [str] has the method. *)
Definition py_strip (v : pyval) : result pystr :=
  match v with
  | VStr s => Ok (strip s)
  | _ => Raise AttributeError
  end.

(** The prefix key: [review_text[:100].lower()]. *)
Definition text_key (review_text : pystr) : pystr := lower (take 100 review_text).

(** [review.get('review_text', '').strip()] *)
Definition trimmed_text (review : gmap string pyval) : result pystr :=
  py_strip (py_get review "review_text" (VStr [])).


(** The loop that closes [get_product_reviews]; [unique_reviews] and
    [seen_texts] are its two accumulators. *)
Fixpoint dedup_loop (all_reviews unique_reviews : list (gmap string pyval))
    (seen_texts : gset (list N)) : result (list (gmap string pyval)) :=
  match all_reviews with
  | [] => Ok unique_reviews
  | review :: rest =>
      review_text ← trimmed_text review;
      if truthy review_text && (20 <? length review_text)%nat then
        if decide (text_key review_text ∈ seen_texts)
        then dedup_loop rest unique_reviews seen_texts
        else dedup_loop rest (unique_reviews ++ [review])
                        ({[text_key review_text]} ∪ seen_texts)
      else dedup_loop rest unique_reviews seen_texts
  end.

(** A record passes the length filter and has the prefix key [k]. *)
Definition eligible (review : gmap string pyval) (k : pystr) : Prop :=
  exists t, trimmed_text review = Ok t /\ (20 < length t)%nat /\ k = text_key t.

Definition deduplicate (all_reviews : list (gmap string pyval))
    : result (list (gmap string pyval)) :=
  dedup_loop all_reviews [] ∅.

Section GetProductReviews.
(** The search and scrape calls go to the network; a scrape that
    succeeds yields the page's markdown. *)
Variable search_reviews : pystr -> nat -> list pystr.
Variable scrape_reviews : pystr -> option pystr.

Definition scrape_page (url : pystr) : list (gmap string pyval) :=
  match scrape_reviews url with
  | Some content => extract_reviews_from_content content url
  | None => []
  end.

Definition get_product_reviews (product_url : pystr) (max_pages : nat)
    : result (list (gmap string pyval)) :=
  let review_urls := search_reviews product_url max_pages in
  let all_reviews :=
    match review_urls with
    | [] => scrape_page product_url
    | _ => take max_pages review_urls ≫= scrape_page
    end in
  deduplicate all_reviews.
End GetProductReviews.

End Dedup.
Export Dedup.

(** ** review_analyzer.py *)

Module Analyzer.

Local Open Scope Q_scope.

(** The dictionary returned by [analyze_reviews]. *)
Record analysis : Type := Analysis {
  total_reviews : nat;
  average_rating : Q;
  sentiment_distribution : gmap string Q;
  key_insights : list pystr;
  pros : list pystr;
  cons : list pystr;
  rating_summary : gmap string Q;
  recommendations : list pystr
}.

Definition of_nat (n : nat) : Q := inject_Z (Z.of_nat n).

(** [Counter(xs).get(x, 0)] *)
Definition counter_get {A} `{EqDecision A} (xs : list A) (x : A) : nat :=
  length (filter (fun y => y = x) xs).

(** [round((count / total) * 100, 1)] *)
Definition percentage (count total : nat) : Q :=
  py_round ((of_nat count / of_nat total) * 100) 1.

Definition label (s : string) : pyval := VStr (py s).

Definition _calculate_sentiment_distribution (reviews : list (gmap string pyval))
    : gmap string Q :=
  let sentiments :=
    (fun r => py_get r "sentiment_label" (label "neutral")) <$> reviews in
  let share (l : string) :=
    if (0 <? length sentiments)%nat
    then percentage (counter_get sentiments (label l)) (length sentiments)
    else 0 in
  {[ "positive" := share "positive";
     "negative" := share "negative";
     "neutral" := share "neutral" ]}%string.

(** The truth value of a number. *)
Definition nonzero (r : Q) : bool := negb (Qeq_bool r 0).

Definition _calculate_rating_summary (ratings : list Q) : gmap string Q :=
  match ratings with
  | [] => ∅
  | _ =>
      let rating_counts := py_int <$> filter (fun r => Is_true (nonzero r)) ratings in
      let total_ratings := length ratings in
      {[ "5_star" := percentage (counter_get rating_counts 5%Z) total_ratings;
         "4_star" := percentage (counter_get rating_counts 4%Z) total_ratings;
         "3_star" := percentage (counter_get rating_counts 3%Z) total_ratings;
         "2_star" := percentage (counter_get rating_counts 2%Z) total_ratings;
         "1_star" := percentage (counter_get rating_counts 1%Z) total_ratings;
         "total_ratings" := of_nat total_ratings ]}%string
  end.

(** The numbers of a list of ratings; [sum] raises on anything else. *)
Fixpoint numbers (vs : list pyval) : result (list Q) :=
  match vs with
  | [] => Ok []
  | VNum q :: vs' => qs ← numbers vs'; Ok (q :: qs)
  | _ :: _ => Raise TypeError
  end.

Definition py_sum (qs : list Q) : Q := foldl Qplus 0 qs.

Definition is_not_none (v : pyval) : bool :=
  match v with VNone => false | _ => true end.

Section Analyze.
(** The two calls to the language model.  [chat_sentiment n text] is the
    parsed answer to the [n]-th sentiment request and [chat_insights] the
    parsed answer to the insight request; [None] stands for any exception
    raised by the call or by the parsing of its answer. *)
Variable chat_sentiment : nat -> pyval -> option (gmap string pyval).
Variable chat_insights : list (gmap string pyval) -> option (gmap string (list pystr)).

Definition _analyze_sentiment (call : nat) (text : pyval) : gmap string pyval :=
  match chat_sentiment call text with
  | Some result =>
      {[ "sentiment_label" := py_get result "sentiment" (label "neutral");
         "sentiment_score" := py_get result "score" (VNum (1 # 2)) ]}%string
  | None =>
      {[ "sentiment_label" := label "neutral";
         "sentiment_score" := VNum (1 # 2) ]}%string
  end.

Definition _generate_insights (reviews : list (gmap string pyval))
    : gmap string (list pystr) :=
  match chat_insights (take 50 reviews) with
  | Some insights => insights
  | None =>
      {[ "key_insights" := [py "Unable to generate insights automatically"];
         "pros" := []; "cons" := []; "recommendations" := [] ]}%string
  end.

(** The records live in a store and the list handed to [analyze_reviews]
    holds references to them. *)
Definition deref (h : gmap nat (gmap string pyval)) (review : nat)
    : gmap string pyval :=
  default ∅ (h !! review).

(** The first loop: [review.update(sentiment_result)] writes to the
    record the caller passed in. *)
Fixpoint annotate (call : nat) (reviews : list nat)
    (h : gmap nat (gmap string pyval)) : gmap nat (gmap string pyval) :=
  match reviews with
  | [] => h
  | review :: rest =>
      let sentiment_result :=
        _analyze_sentiment call
          (py_get (deref h review) "review_text" (VStr [])) in
      annotate (S call) rest
        (<[review := sentiment_result ∪ deref h review]> h)
  end.

Definition empty_analysis : analysis :=
  {| total_reviews := 0;
     average_rating := 0;
     sentiment_distribution :=
       {[ "positive" := 0; "negative" := 0; "neutral" := 0 ]}%string;
     key_insights := []; pros := []; cons := [];
     rating_summary := ∅;
     recommendations := [] |}.

Definition analyze_reviews (reviews : list nat)
    (h : gmap nat (gmap string pyval))
    : gmap nat (gmap string pyval) * result analysis :=
  match reviews with
  | [] => (h, Ok empty_analysis)
  | _ =>
      let h' := annotate 0 reviews h in
      let analyzed_reviews := deref h' <$> reviews in
      (h',
       ratings ← numbers
         (List.filter is_not_none
            ((fun r => py_get r "rating" VNone) <$> analyzed_reviews));
       let average_rating :=
         match ratings with
         | [] => 0
         | _ => py_sum ratings / of_nat (length ratings)
         end in
       let insights := _generate_insights analyzed_reviews in
       Ok {| total_reviews := length analyzed_reviews;
             average_rating := py_round average_rating 2;
             sentiment_distribution :=
               _calculate_sentiment_distribution analyzed_reviews;
             key_insights := default [] (insights !! "key_insights"%string);
             pros := default [] (insights !! "pros"%string);
             cons := default [] (insights !! "cons"%string);
             rating_summary := _calculate_rating_summary ratings;
             recommendations := default [] (insights !! "recommendations"%string) |})
  end.
End Analyze.

End Analyzer.
Export Analyzer.

(** ** Inputs and expected outputs used in the statements *)

Module Examples.

(** ["\n".join(lines)] *)
Fixpoint unlines (lines : list pystr) : pystr :=
  match lines with
  | [] => []
  | [l] => l
  | l :: ls => l ++ 10 :: unlines ls
  end.

(** The page of property P5: each marker on a line of its own. *)
Definition p5_lines : list pystr :=
  py <$> ["5 stars"; "Great product, love it, would recommend";
          "2 stars"; "Terrible, broke immediately, waste of money"]%string.

(** The same page with each marker on the line of its text. *)
Definition p5_joined_lines : list pystr :=
  py <$> ["5 stars Great product, love it, would recommend";
          "2 stars Terrible, broke immediately, waste of money"]%string.

(** A record as the segmenter builds it, without reviewer and date. *)
Definition review_of (text : string) (rating : Q) (source_url : pystr)
    : gmap string pyval :=
  {[ "review_text" := VStr (py text);
     "rating" := VNum rating;
     "reviewer_name" := VNone;
     "review_date" := VNone;
     "source_url" := VStr source_url ]}%string.

(** A page whose only line carries two [Rating:] markers. *)
Definition two_markers : pystr := py "Rating: 5 Rating: 4".

(** A record with the given text and nothing else. *)
Definition text_only (text : pystr) : gmap string pyval :=
  {[ "review_text"%string := VStr text ]}.

(** Two texts that share their first hundred characters, and two that
    share their last sixty. *)
Definition same_opening_a : pystr := replicate 100 97 ++ py " ends well".
Definition same_opening_b : pystr := replicate 100 97 ++ py " ends badly".
Definition same_ending_a : pystr := py "Liked it " ++ replicate 60 97.

(** Three annotated records, the last one without a label, and three
    ratings. *)
Definition three_labelled : list (gmap string pyval) :=
  [ {[ "sentiment_label"%string := label "positive" ]};
    {[ "sentiment_label"%string := label "negative" ]};
    text_only (py "no label yet") ].
Definition three_ratings : list Q := [5; 4.5; 1]%Q.

(** A language model that fails on every request. *)
Definition no_sentiment : nat -> pyval -> option (gmap string pyval) :=
  fun _ _ => None.
Definition no_insights : list (gmap string pyval) -> option (gmap string (list pystr)) :=
  fun _ => None.

(** A store with one record, as the segmenter emits it, and a store with
    one record that has no rating. *)
Definition one_record : gmap nat (gmap string pyval) :=
  {[ 0%nat := review_of "Great product, love it, would recommend" 5
                (py "https://shop.example/item") ]}.
Definition one_unrated : gmap nat (gmap string pyval) :=
  {[ 0%nat := text_only (py "Great product, love it, would recommend") ]}.

(** Texts of exactly twenty and of twenty-one characters. *)
Definition twenty : pystr := py "exactly twenty chars".
Definition twenty_one : pystr := py "just twenty-one chars".

End Examples.
Export Examples.

(** ** The rating normaliser, as the specification words it *)

Module RatingSpec.

Local Open Scope Q_scope.

(** The numeric token that starts a text whose first character is a
    digit: the run of digits, and a point followed by digits if present. *)
Definition scan_token (s : pystr) : pystr :=
  match drop_digits s with
  | c :: r =>
      if (c =? 46)%N && truthy (take_digits r)
      then take_digits s ++ c :: take_digits r
      else take_digits s
  | [] => take_digits s
  end.

(** What follows that token. *)
Definition after_token (s : pystr) : pystr :=
  match drop_digits s with
  | c :: r =>
      if (c =? 46)%N && truthy (take_digits r)
      then drop_digits r
      else drop_digits s
  | [] => []
  end.

(** The first numeric token of a text. *)
Fixpoint first_numeric_token (s : pystr) : option pystr :=
  match s with
  | [] => None
  | c :: s' => if isdecimal c then Some (scan_token s) else first_numeric_token s'
  end.

(** A value above 5 is read on a scale of 100, one of at most 1 on a
    scale of 1; the quotient and the product are doubles again. *)
Definition rescale (v : pyfloat) : pyfloat :=
  match v with
  | Finite q =>
      if Qlt_le_dec 5 q then round_double (q / 20)
      else if Qlt_le_dec 1 q then v
      else round_double (q * 5)
  | Inf => Inf
  end.

Definition clamp (v : pyfloat) : Q :=
  match v with
  | Finite q =>
      if Qlt_le_dec q 1 then 1
      else if Qlt_le_dec 5 q then 5
      else q
  | Inf => 5
  end.

End RatingSpec.
Export RatingSpec.

(** ** The heuristic classifier, as the specification words it *)

Module ClassifierSpec.






(** A line of ten words with the keywords [great] and [quality], and the
    same line one word shorter. *)
Definition ten_words : pystr :=
  py "this thing is great and the quality is really nice".
Definition nine_words : pystr :=
  py "this thing is great and the quality is nice".

End ClassifierSpec.
Export ClassifierSpec.

(** ** What a pattern matches *)

Module ReSem.

(** [sem ic r w rest g g']: the pattern [r] matches the word [w] when
    [rest] follows it, turning the captures [g] into [g'].  The text that
    follows matters to [$] and to a lookahead only. *)
Fixpoint sem (ic : bool) (r : regex) (w rest : pystr) (g g' : caps) : Prop :=
  match r with
  | REmpty => w = [] /\ g' = g
  | RSet c => exists x, w = [x] /\ cset_match ic c x = true /\ g' = g
  | RSeq r1 r2 =>
      exists w1 w2 g1,
        w = w1 ++ w2 /\ sem ic r1 w1 (w2 ++ rest) g g1 /\ sem ic r2 w2 rest g1 g'
  | RAlt r1 r2 => sem ic r1 w rest g g' \/ sem ic r2 w rest g g'
  | ROpt r1 => sem ic r1 w rest g g' \/ (w = [] /\ g' = g)
  | RRep _ lo hi c =>
      Forall (fun x => cset_match ic c x = true) w /\
      (lo <= length w)%nat /\
      match hi with Some n => (length w <= n)%nat | None => True end /\
      g' = g
  | RGroup i r1 => exists g1, sem ic r1 w rest g g1 /\ g' = (i, w) :: g1
  | RLook r1 =>
      w = [] /\ exists w' rest', rest = w' ++ rest' /\ sem ic r1 w' rest' g g'
  | REnd => w = [] /\ (rest = [] \/ rest = [10]) /\ g' = g
  end.

(** [r] is found in [text] with the captures [g]. *)
Definition found (ic : bool) (r : regex) (text : pystr) (g : caps) : Prop :=
  exists pre w rest, text = pre ++ w ++ rest /\ sem ic r w rest [] g.

(** [needle] is a piece of [hay]. *)
Definition infix_of (needle hay : pystr) : Prop :=
  exists pre post, hay = pre ++ needle ++ post.

End ReSem.
Export ReSem.

(** ** The shape of extracted names and dates *)

Module FieldSpec.

Definition is_upper (c : N) : bool := (65 <=? c) && (c <=? 90).
Definition is_lower (c : N) : bool := (97 <=? c) && (c <=? 122).

(** An upper-case letter followed by one or more lower-case letters. *)
Definition capitalised (w : pystr) : Prop :=
  exists u l,
    w = u :: l /\ is_upper u = true /\ l <> [] /\
    Forall (fun c => is_lower c = true) l.

(** A run of white space, at least one character long. *)
Definition blank (sp : pystr) : Prop :=
  sp <> [] /\ Forall (fun c => isspace c = true) sp.

(** Two capitalised words with white space between them. *)
Definition two_capitalised (name : pystr) : Prop :=
  exists w1 sp w2,
    name = w1 ++ sp ++ w2 /\ capitalised w1 /\ blank sp /\ capitalised w2.

(** Between [lo] and [hi] decimal digits. *)
Definition digit_run (lo hi : nat) (w : pystr) : Prop :=
  Forall (fun c => isdecimal c = true) w /\ (lo <= length w <= hi)%nat.

(** The name of a month, in any mix of cases; as [re.IGNORECASE] has
    it, a dotted capital I or a dotless i may stand for i, a long s for
    s and a Kelvin sign for k. *)
Definition month_name (w : pystr) : Prop :=
  caseless <$> w ∈ (fun m => lower (py m)) <$> months.

(** [D/D/YYYY] with the separator [sep]. *)
Definition numeric_date (sep : N) (d : pystr) : Prop :=
  exists a b y,
    d = a ++ sep :: b ++ sep :: y /\
    digit_run 1 2 a /\ digit_run 1 2 b /\ digit_run 4 4 y.

(** [D Month YYYY] *)
Definition day_month_year (d : pystr) : Prop :=
  exists a s1 m s2 y,
    d = a ++ s1 ++ m ++ s2 ++ y /\
    digit_run 1 2 a /\ blank s1 /\ month_name m /\ blank s2 /\ digit_run 4 4 y.

End FieldSpec.
Export FieldSpec.

Module RecordSpec.

(** The first and the last character of [w] are not white space. *)
Definition solid_ends (w : pystr) : Prop :=
  (exists x t, w = x :: t /\ isspace x = false) /\
  (exists t y, w = t ++ [y] /\ isspace y = false).

(** The shapes [_extract_review_date] can return. *)
Definition date_shaped (d : pystr) : Prop :=
  numeric_date 47 d \/ numeric_date 45 d \/ month_name d \/ day_month_year d.

(** A record built from a buffer and a rating token. *)
Definition made_from (source_url : pystr) (r : gmap string pyval) : Prop :=
  exists current_review current_rating,
    r = make_review current_review current_rating source_url /\
    truthy current_review = true /\ truthy current_rating = true.

(** A one-line page with a marker, a signature and a date that starts
    with the month. *)
Definition signed_page : pystr :=
  py "4 stars Works well - Jane Doe, March 12, 2024".

Definition signed_record (source_url : pystr) : gmap string pyval :=
  {[ "review_text" := VStr (py "Works well - Jane Doe, March 12, 2024");
     "rating" := VNum 4;
     "reviewer_name" := VStr (py "Jane Doe");
     "review_date" := VStr (py "March");
     "source_url" := VStr source_url ]}%string.

End RecordSpec.
Export RecordSpec.

(** ** Lines the segmenter looks at *)

Module LineSpec.

(** A line survives the length test of the loop. *)
Definition significant (line : pystr) : bool :=
  truthy (strip line) && negb (length (strip line) <? 10)%nat.

(** A line on which one of the rating patterns is found. *)
Definition is_marker_line (line : pystr) : bool :=
  significant line &&
  match first_search true review_patterns (strip line) with
  | Some _ => true
  | None => false
  end.

(** One when a rating token is waiting for its record, zero otherwise. *)
Definition pending (st : seg_state) : nat :=
  match current_rating st with Some _ => 1 | None => 0 end.

(** Five star glyphs and a text without digits. *)
Definition glyph_page : pystr :=
  replicate 5 9733 ++ py " Great product, love it".

Definition glyph_record (source_url : pystr) : gmap string pyval :=
  {[ "review_text" := VStr glyph_page;
     "rating" := VNone;
     "reviewer_name" := VNone;
     "review_date" := VNone;
     "source_url" := VStr source_url ]}%string.

End LineSpec.
Export LineSpec.

(** ** A page with one review *)

Module PageSpec.

Definition glowing_page : pystr :=
  py "5 stars Great product, love it, would recommend".

Definition glowing_record (source_url : pystr) : gmap string pyval :=
  {[ "review_text" := VStr (py "Great product, love it, would recommend");
     "rating" := VNum 5;
     "reviewer_name" := VNone;
     "review_date" := VNone;
     "source_url" := VStr source_url ]}%string.

End PageSpec.
Export PageSpec.

(** ** Ratings and stores used in the statements on the analyzer *)

Module SummarySpec.

Local Open Scope Q_scope.

(** A rating counted under [k] stars: [k <= r < k + 1]. *)
Definition in_bucket (k : Z) (r : Q) : bool :=
  Qle_bool (inject_Z k) r && Qltb r (inject_Z (k + 1)).

(** The five star counts and the keys they are reported under. *)
Definition star_keys : list (Z * string) :=
  [(5%Z, "5_star"); (4%Z, "4_star"); (3%Z, "3_star"); (2%Z, "2_star");
   (1%Z, "1_star")]%string.

(** The rating of a record, as [r.get('rating')] reads it. *)
Definition rating_of (review : gmap string pyval) : pyval :=
  py_get review "rating" VNone.


(** The records of a list that carry a rating. *)
Definition rated (h : gmap nat (gmap string pyval)) (reviews : list nat)
    : list nat :=
  List.filter (fun l => is_not_none (rating_of (deref h l))) reviews.

(** Three records in a store: two rated ones and one without a rating. *)
Definition shop : pystr := py "https://shop.example/item".

Definition three_records : gmap nat (gmap string pyval) :=
  {[ 0%nat := review_of "Great product, love it, would recommend" 5 shop;
     1%nat := review_of "Broke within a week, poor quality" (3 # 2) shop;
     2%nat := {[ "review_text"%string := VStr (py "Arrived on time, nothing to add");
                 "rating"%string := VNone ]} ]}.


(** A language model that is out of reach. *)
Definition no_sentiment (call : nat) (text : pyval) : option (gmap string pyval) :=
  None.

Definition no_insights (reviews : list (gmap string pyval))
    : option (gmap string (list pystr)) :=
  None.

End SummarySpec.
Export SummarySpec.

(** * Properties *)

(** ** The review segmenter *)

Section SegmenterFacts.
Variable source_url : pystr.

Lemma p5_lines_split : split_on 10 (unlines p5_lines) = p5_lines.
Proof. vm_compute. reflexivity. Qed.

(** Neither marker line of P5 reaches the pattern matcher: both have
    fewer than ten characters. *)
Lemma p5_markers_skipped (st : seg_state) :
  scan_line source_url st (py "5 stars") = st /\
  scan_line source_url st (py "2 stars") = st.
Proof. split; reflexivity. Qed.

Lemma p5_emits_nothing :
  extract_reviews_from_content (unlines p5_lines) source_url = [].
Proof. vm_compute. reflexivity. Qed.

Lemma p5_joined_emits_two :
  extract_reviews_from_content (unlines p5_joined_lines) source_url =
  [review_of "Great product, love it, would recommend" 5 source_url;
   review_of "Terrible, broke immediately, waste of money" 2 source_url].
Proof. vm_compute. reflexivity. Qed.

(** C1 as the code has it. On the four lines of P5 the segmenter emits no
    record: the marker lines [5 stars] and [2 stars] are shorter than ten
    characters and are skipped, and neither text line is taken for a
    review by the heuristic classifier.  With each marker on the line of
    its text it emits exactly two records, the first with rating 5 and a
    text containing [Great product], the second with rating 2 and a text
    containing [Terrible]. *)
Theorem segmentation_boundary :
  (extract_reviews_from_content (unlines p5_lines) source_url = [] /\
   Forall (fun line => (length (strip line) < 10)%nat \/
                       (first_search true review_patterns (strip line) = None /\
                        _is_likely_review (strip line) = false)) p5_lines) /\
  exists r1 r2 t1 t2,
    extract_reviews_from_content (unlines p5_joined_lines) source_url = [r1; r2] /\
    r1 !! "rating"%string = Some (VNum 5) /\
    r1 !! "review_text"%string = Some (VStr t1) /\
    contains (py "Great product") t1 = true /\
    r2 !! "rating"%string = Some (VNum 2) /\
    r2 !! "review_text"%string = Some (VStr t2) /\
    contains (py "Terrible") t2 = true.
Proof.
  split.
  - split; [apply p5_emits_nothing|].
    unfold p5_lines. cbn [fmap list_fmap].
    apply Forall_cons; split; [left; vm_compute; lia|].
    apply Forall_cons; split; [right; split; vm_compute; reflexivity|].
    apply Forall_cons; split; [left; vm_compute; lia|].
    apply Forall_cons; split; [right; split; vm_compute; reflexivity|].
    constructor.
  - do 4 eexists. split; [apply p5_joined_emits_two|].
    repeat split; reflexivity.
Qed.

(** C3 on a page whose line carries two [Rating:] markers: the second
    group of the pattern captures the blank between them, the buffer is not
    empty, and a record with an empty text is emitted. *)
Theorem two_markers_emit_empty_text :
  extract_reviews_from_content two_markers source_url =
  [review_of "" 5 source_url].
Proof. vm_compute. reflexivity. Qed.
End SegmenterFacts.

(** The page of P5 yields no record at all, where P5 expects two. *)
Lemma p5_counterexample :
  extract_reviews_from_content (unlines p5_lines) (py "https://shop.example/item") = [] /\
  length (extract_reviews_from_content (unlines p5_lines)
            (py "https://shop.example/item")) <> 2%nat.
Proof. split; [vm_compute; reflexivity | vm_compute; discriminate]. Qed.

(** ** The rating normaliser *)

Section CaseFolding.

(** Ignoring case changes a character into a lower-case letter, if at
    all. *)
Lemma caseless_letter (x : N) : caseless x = x \/ is_lower (caseless x) = true.
Proof.
  unfold caseless, lower_char, is_lower.
  destruct ((x =? 304) || (x =? 305))%N; [right; reflexivity|].
  destruct (x =? 383)%N; [right; reflexivity|].
  destruct (x =? 8490)%N; [right; reflexivity|].
  destruct ((65 <=? x) && (x <=? 90))%N eqn:U; [|left; reflexivity].
  right. apply andb_true_iff in U as [U1 U2]. apply N.leb_le in U1, U2.
  apply andb_true_iff. split; apply N.leb_le; lia.
Qed.

Lemma caseless_symbol (a x : N) :
  is_lower (caseless a) = false -> caseless x = caseless a -> x = a.
Proof.
  intros Ha H.
  destruct (caseless_letter x) as [Hx|Hx]; [|congruence].
  destruct (caseless_letter a) as [Ha'|Ha']; congruence.
Qed.

(** A literal that is not a letter matches itself only, with or without
    [re.IGNORECASE]. *)
Lemma literal_symbol (ic : bool) (a x : N) :
  is_lower (caseless a) = false -> cset_match ic (CLit a) x = (x =? a)%N.
Proof.
  intros Ha. cbn [cset_match]. destruct (x =? a)%N eqn:E; [reflexivity|].
  cbn [orb]. destruct ic; [|reflexivity]. cbn [andb].
  apply N.eqb_neq in E. apply N.eqb_neq. intros H.
  now apply E, caseless_symbol.
Qed.
End CaseFolding.

Section RatingToken.
Variable ic : bool.

Lemma take_drop_digits (s : pystr) : take_digits s ++ drop_digits s = s.
Proof.
  induction s as [|c s IH]; simpl; [reflexivity|].
  destruct (isdecimal c); simpl; [now rewrite IH | reflexivity].
Qed.

Lemma take_digits_all (s : pystr) : forallb isdecimal (take_digits s) = true.
Proof.
  induction s as [|c s IH]; simpl; [reflexivity|].
  destruct (isdecimal c) eqn:E; simpl; [now rewrite E | reflexivity].
Qed.

(** A greedy repetition of [\d] in front of a continuation that cannot
    fail takes the whole run of digits. *)
Lemma rep_digits {R : Type} (lo : nat) (s : pystr) (k : pystr -> option R) :
  (forall s', is_Some (k s')) ->
  rep ic CDigit true lo None s k =
  if (lo <=? length (take_digits s))%nat then k (drop_digits s) else None.
Proof.
  intros Hk. revert lo.
  induction s as [|c s IH]; intros lo; simpl.
  - destruct lo; reflexivity.
  - destruct (isdecimal c) eqn:E; simpl.
    + rewrite IH.
      destruct lo as [|lo]; simpl.
      * destruct (Hk (drop_digits s)) as [v ->]. reflexivity.
      * destruct (lo <=? length (take_digits s))%nat eqn:L.
        -- destruct (Hk (drop_digits s)) as [v ->]. reflexivity.
        -- reflexivity.
    + destruct lo; reflexivity.
Qed.

Lemma or_else_is_Some {R : Type} (a b : option R) :
  is_Some b -> is_Some (match a with Some v => Some v | None => b end).
Proof. destruct a; eauto. Qed.

Lemma lit_point (x : N) : cset_match ic (CLit (chr ".")) x = (x =? 46)%N.
Proof. now apply literal_symbol. Qed.

Lemma exec_number {R : Type} (s : pystr) (g : caps)
    (k : pystr -> caps -> option R) :
  (forall s' g', is_Some (k s' g')) ->
  exec ic number s g k =
  match take_digits s with
  | [] => None
  | _ => k (after_token s) g
  end.
Proof.
  intros Hk. unfold number, rseq, plus. cbn [exec foldr].
  rewrite rep_digits.
  2:{ intros s'. destruct s' as [|x s2]; [apply Hk|].
      apply or_else_is_Some, Hk. }
  unfold after_token.
  destruct (take_digits s) as [|d ds] eqn:Ed; [reflexivity|].
  change (1 <=? length (d :: ds))%nat with true. cbv iota.
  destruct (drop_digits s) as [|x s2] eqn:Er; [reflexivity|].
  rewrite lit_point.
  destruct (x =? 46)%N eqn:E; [|reflexivity].
  rewrite rep_digits by (intros; apply Hk).
  destruct (take_digits s2) as [|f fs]; [reflexivity|].
  change (1 <=? length (f :: fs))%nat with true. cbn [truthy andb].
  destruct (Hk (drop_digits s2) g) as [v ->]. reflexivity.
Qed.

Lemma scan_after_token (s : pystr) : scan_token s ++ after_token s = s.
Proof.
  unfold scan_token, after_token.
  pose proof (take_drop_digits s) as Hs.
  destruct (drop_digits s) as [|c r] eqn:Er; [exact Hs|].
  destruct ((c =? 46)%N && truthy (take_digits r)); [|exact Hs].
  rewrite <- (take_drop_digits r) in Hs.
  rewrite <- app_assoc. exact Hs.
Qed.

Lemma match_at_rating_token (s : pystr) :
  match_at ic rating_token s =
  if truthy (take_digits s) then Some [(1%nat, scan_token s)] else None.
Proof.
  unfold match_at, rating_token. cbn [exec].
  rewrite exec_number by eauto.
  destruct (take_digits s); [reflexivity|]. cbn [truthy].
  do 2 f_equal. f_equal.
  rewrite <- (scan_after_token s) at 1 3.
  rewrite length_app, Nat.add_sub. apply take_app_length.
Qed.

Lemma search_rating_token (s : pystr) :
  search ic rating_token s = (fun t => [(1%nat, t)]) <$> first_numeric_token s.
Proof.
  induction s as [|c s IH]; cbn [search first_numeric_token];
    rewrite match_at_rating_token; [reflexivity|].
  cbn [take_digits]. destruct (isdecimal c); [reflexivity|]. exact IH.
Qed.

(** [float] accepts every token the pattern captures. *)
Lemma py_float_scan_token (s : pystr) :
  truthy (take_digits s) = true -> is_Some (py_float (scan_token s)).
Proof.
  intros Hd.
  assert (Hall : forall a b, forallb isdecimal a = true ->
             take_digits (a ++ b) = a ++ take_digits b /\
             drop_digits (a ++ b) = drop_digits b).
  { induction a as [|x a IH]; intros b Ha; [auto|].
    cbn [forallb] in Ha. apply andb_true_iff in Ha as [Hx Ha].
    cbn [app take_digits drop_digits]. rewrite Hx.
    destruct (IH b Ha) as [-> ->]. auto. }
  assert (Hcase : forall t, forallb isdecimal t = true -> truthy t = true ->
             is_Some (py_float t)).
  { intros t Ht Hn. unfold py_float. destruct (Hall t [] Ht) as [H1 H2].
    cbn [take_digits drop_digits] in H1, H2. rewrite !app_nil_r in H1, H2.
    rewrite H1, H2, Hn. eauto. }
  unfold scan_token.
  destruct (drop_digits s) as [|c r] eqn:Er;
    [apply Hcase; [apply take_digits_all | exact Hd]|].
  destruct ((c =? 46)%N && truthy (take_digits r)) eqn:E;
    [|apply Hcase; [apply take_digits_all | exact Hd]].
  apply andb_true_iff in E as [Ec Ef].
  destruct (Hall (take_digits s) (c :: take_digits r) (take_digits_all s))
    as [H1 H2].
  assert (Hc : isdecimal c = false).
  { apply N.eqb_eq in Ec. subst c. reflexivity. }
  cbn [take_digits drop_digits] in H1, H2. rewrite Hc in H1, H2.
  rewrite app_nil_r in H1.
  unfold py_float. rewrite H1, H2, Hd, Ec, Ef, take_digits_all.
  cbn [andb]. eauto.
Qed.
End RatingToken.


Section RatingScale.
Local Open Scope Q_scope.

Lemma Qltb_lt (x y : Q) : Qltb x y = true <-> x < y.
Proof.
  unfold Qltb. rewrite negb_true_iff, <- not_true_iff_false, Qle_bool_iff.
  split; [apply Qnot_le_lt | apply Qlt_not_le].
Qed.

Lemma Qltb_ge (x y : Q) : Qltb x y = false <-> y <= x.
Proof.
  unfold Qltb. rewrite negb_false_iff, Qle_bool_iff. reflexivity.
Qed.

(** [max(1, min(5, x))] is the clamp of [x] to the interval from 1 to 5. *)
Lemma py_max_min_clamp (x : pyfloat) : py_max 1 (py_min_float 5 x) == clamp x.
Proof.
  destruct x as [x|]; [|reflexivity].
  unfold py_max, py_min_float, py_min, clamp.
  destruct (Qlt_le_dec x 1) as [H1|H1]; [|destruct (Qlt_le_dec 5 x) as [H5|H5]].
  - assert (E5 : Qltb x 5 = true) by (apply Qltb_lt; lra). rewrite E5.
    assert (E1 : Qltb 1 x = false) by (apply Qltb_ge; lra). rewrite E1.
    reflexivity.
  - assert (E5 : Qltb x 5 = false) by (apply Qltb_ge; lra). rewrite E5.
    reflexivity.
  - destruct (Qltb x 5) eqn:E5; destruct (Qltb 1 _) eqn:E1;
      try apply Qltb_lt in E5; try apply Qltb_ge in E5;
      try apply Qltb_lt in E1; try apply Qltb_ge in E1; lra.
Qed.

Lemma clamp_range (x : pyfloat) : 1 <= clamp x /\ clamp x <= 5.
Proof.
  destruct x as [x|]; cbn [clamp]; [|lra].
  destruct (Qlt_le_dec x 1); [lra|]. destruct (Qlt_le_dec 5 x); lra.
Qed.

Lemma py_max_min_range (x : pyfloat) :
  1 <= py_max 1 (py_min_float 5 x) /\ py_max 1 (py_min_float 5 x) <= 5.
Proof. rewrite py_max_min_clamp. apply clamp_range. Qed.

(** The branch on the scale, as [_normalize_rating] takes it. *)
Lemma rescale_code (v : pyfloat) :
  (if float_ltb (Finite 5) v then float_div v 20
   else if float_leb v (Finite 1) then float_mul v 5 else v) = rescale v.
Proof.
  destruct v as [v|]; [|reflexivity].
  unfold rescale, float_leb. cbn [float_ltb float_div float_mul].
  destruct (Qlt_le_dec 5 v) as [H5|H5].
  - apply Qltb_lt in H5. now rewrite H5.
  - apply Qltb_ge in H5. rewrite H5.
    destruct (Qlt_le_dec 1 v) as [H1|H1].
    + apply Qltb_lt in H1. now rewrite H1.
    + apply Qltb_ge in H1. now rewrite H1.
Qed.

Lemma normalize_rating_unfold (rating : pystr) :
  _normalize_rating rating =
  match first_numeric_token rating with
  | Some token =>
      match py_float token with
      | Some v => Some (py_max 1 (py_min_float 5 (rescale v)))
      | None => None
      end
  | None => None
  end.
Proof.
  unfold _normalize_rating. rewrite search_rating_token.
  destruct (first_numeric_token rating) as [token|]; [|reflexivity].
  cbn [fmap option_fmap option_map group_of Nat.eqb default id].
  destruct (py_float token) as [v|]; [|reflexivity].
  now rewrite rescale_code.
Qed.

Lemma first_numeric_token_float (rating token : pystr) :
  first_numeric_token rating = Some token -> is_Some (py_float token).
Proof.
  induction rating as [|c s IH]; [discriminate|]. cbn [first_numeric_token].
  destruct (isdecimal c) eqn:E; [|exact IH].
  intros [= <-]. apply py_float_scan_token.
  cbn [take_digits]. now rewrite E.
Qed.

Lemma first_numeric_token_None (rating : pystr) :
  first_numeric_token rating = None <-> forall c, c ∈ rating -> isdecimal c = false.
Proof.
  induction rating as [|c s IH]; cbn [first_numeric_token].
  - split; [intros _ c Hc; inversion Hc | reflexivity].
  - destruct (isdecimal c) eqn:E.
    + split; [discriminate|]. intros H.
      specialize (H c (list_elem_of_here _ _)). congruence.
    + rewrite IH. split.
      * intros H x Hx. apply elem_of_cons in Hx as [->|Hx]; auto.
      * intros H x Hx. apply H. now apply list_elem_of_further.
Qed.

(** C2. The rating normaliser reads the first numeric token of its input
    as a float, divides a value above 5 by 20, multiplies a value of at
    most 1 by 5, and clamps the result, which therefore lies between 1
    and 5; it returns nothing exactly when the input has no numeric
    token, that is, no decimal digit.  The tokens 90, 0.8 and 3 give 4.5,
    4.0 and 3.0. *)
Theorem normalize_rating_spec :
  (forall rating : pystr,
     match first_numeric_token rating with
     | Some token =>
         exists v r,
           py_float token = Some v /\
           _normalize_rating rating = Some r /\
           r == clamp (rescale v) /\ 1 <= r /\ r <= 5
     | None => _normalize_rating rating = None
     end) /\
  (forall rating : pystr,
     _normalize_rating rating = None <-> first_numeric_token rating = None) /\
  (forall rating : pystr,
     first_numeric_token rating = None <->
     forall c, c ∈ rating -> isdecimal c = false) /\
  (exists r, _normalize_rating (py "90") = Some r /\ r == 4.5) /\
  (exists r, _normalize_rating (py "0.8") = Some r /\ r == 4.0) /\
  (exists r, _normalize_rating (py "3") = Some r /\ r == 3.0).
Proof.
  assert (Hmain : forall rating : pystr,
     match first_numeric_token rating with
     | Some token =>
         exists v r,
           py_float token = Some v /\
           _normalize_rating rating = Some r /\
           r == clamp (rescale v) /\ 1 <= r /\ r <= 5
     | None => _normalize_rating rating = None
     end).
  { intros rating. rewrite normalize_rating_unfold.
    destruct (first_numeric_token rating) as [token|] eqn:Et; [|reflexivity].
    destruct (first_numeric_token_float _ _ Et) as [v Hv].
    exists v, (py_max 1 (py_min_float 5 (rescale v))). rewrite Hv.
    repeat split; try apply py_max_min_clamp; apply py_max_min_range. }
  split; [exact Hmain|]. split; [|split; [apply first_numeric_token_None|]].
  - intros rating. specialize (Hmain rating).
    destruct (first_numeric_token rating) as [token|].
    + destruct Hmain as (v & r & _ & -> & _). split; discriminate.
    + split; auto.
  - repeat split; eexists; (split; [vm_compute; reflexivity | reflexivity]).
Qed.
End RatingScale.

(** ** What the segmenter emits *)

Section Strip.

Lemma lstrip_idempotent (s : pystr) : lstrip (lstrip s) = lstrip s.
Proof.
  induction s as [|c s IH]; [reflexivity|]. cbn [lstrip].
  destruct (isspace c) eqn:E; [exact IH|]. cbn [lstrip]. now rewrite E.
Qed.

Lemma lstrip_snoc (s : pystr) (c : N) :
  isspace c = false -> lstrip (s ++ [c]) = lstrip s ++ [c].
Proof.
  intros Hc. induction s as [|x s IH]; cbn [lstrip app].
  - now rewrite Hc.
  - destruct (isspace x); [exact IH | reflexivity].
Qed.

Lemma rstrip_idempotent (s : pystr) : rstrip (rstrip s) = rstrip s.
Proof.
  unfold rstrip. now rewrite reverse_involutive, lstrip_idempotent.
Qed.

Lemma lstrip_rstrip (s : pystr) : lstrip s = s -> lstrip (rstrip s) = rstrip s.
Proof.
  destruct s as [|c s]; [reflexivity|]. cbn [lstrip].
  destruct (isspace c) eqn:E.
  - intros H. exfalso.
    assert (Hlen : forall t, (length (lstrip t) <= length t)%nat).
    { induction t as [|x t IHt]; [reflexivity|]. cbn [lstrip].
      destruct (isspace x); cbn [length]; lia. }
    specialize (Hlen s). rewrite H in Hlen. cbn [length] in Hlen. lia.
  - intros _. unfold rstrip. rewrite reverse_cons, lstrip_snoc by exact E.
    rewrite reverse_app. cbn [reverse rev_append app lstrip].
    change (reverse [c]) with [c]. cbn [app lstrip]. now rewrite E.
Qed.

(** [strip] returns a string that it leaves alone. *)
Lemma strip_idempotent (s : pystr) : strip (strip s) = strip s.
Proof.
  unfold strip.
  rewrite (lstrip_rstrip (lstrip s)) by apply lstrip_idempotent.
  apply rstrip_idempotent.
Qed.
End Strip.

Section SegmenterInvariant.
Variable source_url : pystr.

Lemma normalize_rating_range (rating : pystr) (q : Q) :
  _normalize_rating rating = Some q -> (1 <= q)%Q /\ (q <= 5)%Q.
Proof.
  rewrite normalize_rating_unfold.
  destruct (first_numeric_token rating) as [token|]; [|discriminate].
  destruct (py_float token) as [v|]; [|discriminate].
  intros [= <-]. apply py_max_min_range.
Qed.

Lemma make_review_record (current_review current_rating : pystr) :
  segmenter_record source_url
    (make_review current_review current_rating source_url).
Proof.
  unfold segmenter_record, make_review. split; [|split; [|split]].
  - rewrite !dom_insert_L, dom_singleton_L. reflexivity.
  - exists (strip current_review). split; [reflexivity|].
    apply strip_idempotent.
  - rewrite lookup_insert_ne, lookup_insert_eq by discriminate.
    destruct (_normalize_rating current_rating) as [q|] eqn:E; [right | left];
      [|reflexivity].
    exists q. split; [reflexivity|]. now apply normalize_rating_range in E.
  - reflexivity.
Qed.

Lemma flush_records (st : seg_state) :
  Forall (segmenter_record source_url) (reviews st) ->
  Forall (segmenter_record source_url) (flush source_url st).
Proof.
  intros H. unfold flush.
  destruct (current_rating st) as [rating|]; [|exact H].
  destruct (truthy (current_review st) && truthy rating); [|exact H].
  apply Forall_app. split; [exact H|].
  constructor; [apply make_review_record | constructor].
Qed.

Lemma scan_line_records (st : seg_state) (line : pystr) :
  Forall (segmenter_record source_url) (reviews st) ->
  Forall (segmenter_record source_url) (reviews (scan_line source_url st line)).
Proof.
  intros H. unfold scan_line.
  destruct (negb (truthy (strip line)) || (length (strip line) <? 10)%nat);
    [exact H|].
  destruct (first_search true review_patterns (strip line)) as [[pattern m]|].
  - cbn [reviews]. now apply flush_records.
  - destruct (truthy (current_review st)); [exact H|].
    destruct (_is_likely_review (strip line)); exact H.
Qed.

Lemma scan_lines_records (lines : list pystr) (st : seg_state) :
  Forall (segmenter_record source_url) (reviews st) ->
  Forall (segmenter_record source_url)
    (reviews (foldl (scan_line source_url) st lines)).
Proof.
  revert st. induction lines as [|line rest IH]; intros st H; [exact H|].
  cbn [foldl]. apply IH. now apply scan_line_records.
Qed.

Lemma extract_reviews_invariant (content : pystr) :
  Forall (segmenter_record source_url)
    (extract_reviews_from_content content source_url).
Proof.
  unfold extract_reviews_from_content, extract_reviews_from_lines.
  apply flush_records, scan_lines_records. constructor.
Qed.

(** Every record the segmenter emits has the five fields of the source,
    a trimmed text, a rating that is absent or lies between 1 and 5, and
    the address of the page. *)
Theorem extract_reviews_records (content : pystr) (review : gmap string pyval) :
  review ∈ extract_reviews_from_content content source_url ->
  dom review = ({[ "review_text"; "rating"; "reviewer_name"; "review_date";
                   "source_url" ]} : gset string)%string /\
  (exists t, review !! "review_text"%string = Some (VStr t) /\ strip t = t) /\
  (review !! "rating"%string = Some VNone \/
   exists q, review !! "rating"%string = Some (VNum q) /\ (1 <= q)%Q /\ (q <= 5)%Q) /\
  review !! "source_url"%string = Some (VStr source_url).
Proof.
  intros Hr. pose proof (extract_reviews_invariant content) as HF.
  rewrite Forall_forall in HF. exact (HF review Hr).
Qed.

(** A page on which no line carries a rating marker yields no record,
    whatever prose it holds. *)
Theorem no_marker_no_record (content : pystr) :
  (forall line, line ∈ split_on 10 content ->
     first_search true review_patterns (strip line) = None) ->
  extract_reviews_from_content content source_url = [].
Proof.
  intros Hno. unfold extract_reviews_from_content, extract_reviews_from_lines.
  assert (Hinv : forall lines st,
            (forall line, line ∈ lines ->
               first_search true review_patterns (strip line) = None) ->
            reviews st = [] -> current_rating st = None ->
            reviews (foldl (scan_line source_url) st lines) = [] /\
            current_rating (foldl (scan_line source_url) st lines) = None).
  { induction lines as [|line rest IH]; intros st Hl Hr Hc; [auto|].
    cbn [foldl]. apply IH.
    - intros x Hx. now apply Hl, list_elem_of_further.
    - unfold scan_line.
      destruct (negb (truthy (strip line)) || (length (strip line) <? 10)%nat);
        [exact Hr|].
      rewrite (Hl line (list_elem_of_here _ _)).
      destruct (truthy (current_review st)); [exact Hr|].
      destruct (_is_likely_review (strip line)); exact Hr.
    - unfold scan_line.
      destruct (negb (truthy (strip line)) || (length (strip line) <? 10)%nat);
        [exact Hc|].
      rewrite (Hl line (list_elem_of_here _ _)).
      destruct (truthy (current_review st)); [exact Hc|].
      destruct (_is_likely_review (strip line)); exact Hc. }
  destruct (Hinv (split_on 10 content) initial Hno eq_refl eq_refl) as [Hr Hc].
  unfold flush. now rewrite Hc.
Qed.
End SegmenterInvariant.

Lemma extract_reviews_records_witness :
  dom (review_of "Great product, love it, would recommend" 5
         (py "https://shop.example/item"))
  = ({[ "review_text"; "rating"; "reviewer_name"; "review_date";
        "source_url" ]} : gset string)%string /\
  (exists t,
     review_of "Great product, love it, would recommend" 5
       (py "https://shop.example/item")
       !! "review_text"%string = Some (VStr t) /\ strip t = t) /\
  (review_of "Great product, love it, would recommend" 5
     (py "https://shop.example/item")
     !! "rating"%string = Some VNone \/
   exists q,
     review_of "Great product, love it, would recommend" 5
       (py "https://shop.example/item")
       !! "rating"%string = Some (VNum q) /\ (1 <= q)%Q /\ (q <= 5)%Q) /\
  review_of "Great product, love it, would recommend" 5
    (py "https://shop.example/item")
    !! "source_url"%string = Some (VStr (py "https://shop.example/item")).
Proof.
  apply (extract_reviews_records (py "https://shop.example/item")
           (unlines p5_joined_lines)).
  rewrite p5_joined_emits_two. apply list_elem_of_here.
Defined.

Lemma no_marker_no_record_witness :
  _is_likely_review ten_words = true /\
  extract_reviews_from_content (unlines [ten_words; nine_words])
    (py "https://shop.example/item") = [].
Proof.
  split; [vm_compute; reflexivity|].
  apply no_marker_no_record. intros line Hl.
  change (split_on 10 (unlines [ten_words; nine_words]))
    with [ten_words; nine_words] in Hl.
  apply elem_of_cons in Hl as [->|Hl]; [vm_compute; reflexivity|].
  apply list_elem_of_singleton in Hl. subst line. vm_compute. reflexivity.
Defined.

(** ** The deduplicator *)

Section DedupFacts.
Implicit Types (review : gmap string pyval) (seen : gset (list N)).

Lemma filter_test (t : pystr) :
  truthy t && (20 <? length t)%nat = true <-> (20 < length t)%nat.
Proof.
  rewrite andb_true_iff, Nat.ltb_lt. split; [tauto|].
  intros H. split; [|exact H]. destruct t; [simpl in H; lia | reflexivity].
Qed.

Lemma dedup_loop_kept (l u : list (gmap string pyval)) seen out :
  dedup_loop l u seen = Ok out ->
  exists kept keys,
    out = u ++ kept /\ Forall2 eligible kept keys /\ NoDup keys /\
    (forall k, k ∈ keys -> k ∉ seen) /\ kept `sublist_of` l /\
    (forall r k, r ∈ l -> eligible r k -> k ∈ keys \/ k ∈ seen).
Proof.
  revert u seen out. induction l as [|review rest IH]; intros u seen out.
  - intros [= <-]. exists [], []. rewrite app_nil_r.
    split; [reflexivity|]. split; [constructor|]. split; [constructor|].
    split; [intros k H; inversion H|]. split; [constructor|].
    intros r k H. inversion H.
  - cbn [dedup_loop]. destruct (trimmed_text review) as [t|e] eqn:Et;
      cbn [mbind result_bind]; [|discriminate].
    destruct (truthy t && (20 <? length t)%nat) eqn:Ef.
    + destruct (decide (text_key t ∈ seen)) as [Hin|Hin]; intros H.
      * destruct (IH _ _ _ H) as (kept & keys & -> & HF & HN & Hs & Hl & Hm).
        exists kept, keys. repeat split; auto.
        -- now apply sublist_cons.
        -- intros r k [->|Hr]%elem_of_cons He; [|now apply Hm with r].
           destruct He as (t' & Et' & _ & ->). rewrite Et in Et'.
           injection Et' as <-. now right.
      * destruct (IH _ _ _ H) as (kept & keys & -> & HF & HN & Hs & Hl & Hm).
        exists (review :: kept), (text_key t :: keys).
        rewrite <- app_assoc. repeat split; auto.
        -- constructor; [|exact HF]. exists t.
           apply filter_test in Ef. auto.
        -- constructor; [|exact HN]. intros Hk. apply (Hs _ Hk).
           apply elem_of_union_l. now apply elem_of_singleton.
        -- intros k Hk. apply elem_of_cons in Hk as [->|Hk]; [exact Hin|].
           intros Hk'. apply (Hs _ Hk). now apply elem_of_union_r.
        -- now apply sublist_skip.
        -- intros r k [->|Hr]%elem_of_cons He.
           ++ destruct He as (t' & Et' & _ & ->). rewrite Et in Et'.
              injection Et' as <-. left. apply list_elem_of_here.
           ++ destruct (Hm r k Hr He) as [Hk|Hk].
              ** left. now apply list_elem_of_further.
              ** apply elem_of_union in Hk as [Hk|Hk]; [|now right].
                 apply elem_of_singleton in Hk. subst k.
                 left. apply list_elem_of_here.
    + intros H. destruct (IH _ _ _ H) as (kept & keys & -> & HF & HN & Hs & Hl & Hm).
      exists kept, keys. repeat split; auto.
      * now apply sublist_cons.
      * intros r k [->|Hr]%elem_of_cons He; [|now apply Hm with r].
        exfalso. destruct He as (t' & Et' & Hlen & _). rewrite Et in Et'.
        injection Et' as <-. apply filter_test in Hlen. congruence.
Qed.

Lemma dedup_loop_fixed (kept u : list (gmap string pyval)) (keys : list pystr) seen :
  Forall2 eligible kept keys -> NoDup keys ->
  (forall k, k ∈ keys -> k ∉ seen) ->
  dedup_loop kept u seen = Ok (u ++ kept).
Proof.
  intros HF. revert u seen.
  induction HF as [|review k kept keys (t & Et & Hlen & ->) HF IH];
    intros u seen HN Hs.
  - now rewrite app_nil_r.
  - cbn [dedup_loop]. rewrite Et. cbn [mbind result_bind].
    apply filter_test in Hlen. rewrite Hlen.
    apply NoDup_cons in HN as [Hk HN].
    destruct (decide (text_key t ∈ seen)) as [Hin|Hin].
    + exfalso. apply (Hs (text_key t)); [apply list_elem_of_here | exact Hin].
    + rewrite IH; [now rewrite <- app_assoc | exact HN |].
      intros k Hk' [Heq|Hseen]%elem_of_union.
      * apply elem_of_singleton in Heq. subst k. exact (Hk Hk').
      * exact (Hs k (list_elem_of_further _ _ _ Hk') Hseen).
Qed.
End DedupFacts.

Section DedupClaims.
Implicit Types (review : gmap string pyval).

Lemma trimmed_text_text_only (text : pystr) :
  trimmed_text (text_only text) = Ok (strip text).
Proof.
  unfold trimmed_text, text_only, py_get.
  now rewrite lookup_singleton_eq.
Qed.

(** The output of the deduplicator is a fixed point of it. *)
Lemma deduplicate_fixed_point (all_reviews unique_reviews : list (gmap string pyval)) :
  deduplicate all_reviews = Ok unique_reviews ->
  deduplicate unique_reviews = Ok unique_reviews.
Proof.
  intros H. apply dedup_loop_kept in H as (kept & keys & -> & HF & HN & Hs & _).
  cbn [app]. exact (dedup_loop_fixed kept [] keys ∅ HF HN Hs).
Qed.

(** The deduplicator raises only on a record whose text is not a string. *)
Lemma dedup_loop_total (l u : list (gmap string pyval)) (seen : gset (list N)) :
  (forall review, review ∈ l -> exists t, trimmed_text review = Ok t) ->
  exists out, dedup_loop l u seen = Ok out.
Proof.
  revert u seen. induction l as [|review rest IH]; intros u seen Hl.
  - eexists. reflexivity.
  - cbn [dedup_loop].
    destruct (Hl review (list_elem_of_here _ _)) as [t ->].
    cbn [mbind result_bind].
    assert (Hrest : forall r, r ∈ rest -> exists t, trimmed_text r = Ok t)
      by (intros r Hr; apply Hl, list_elem_of_further, Hr).
    destruct (truthy t && (20 <? length t)%nat); [|now apply IH].
    destruct (decide (text_key t ∈ seen)); now apply IH.
Qed.

(** C4. The deduplicator is idempotent: on a sequence of records whose
    texts are strings it returns a list, and run on that list it returns
    the same list. *)
Theorem deduplicate_idempotent (all_reviews : list (gmap string pyval)) :
  (forall review, review ∈ all_reviews -> exists t, trimmed_text review = Ok t) ->
  exists unique_reviews,
    deduplicate all_reviews = Ok unique_reviews /\
    deduplicate unique_reviews = Ok unique_reviews.
Proof.
  intros Hl. destruct (dedup_loop_total all_reviews [] ∅ Hl) as [out Hout].
  exists out. split; [exact Hout|]. now apply deduplicate_fixed_point in Hout.
Qed.

Lemma deduplicate_idempotent_witness :
  exists unique_reviews,
    deduplicate (text_only <$> [same_opening_a; same_opening_b; twenty; same_ending_a])
      = Ok unique_reviews /\
    deduplicate unique_reviews = Ok unique_reviews.
Proof.
  apply (deduplicate_idempotent
           (text_only <$> [same_opening_a; same_opening_b; twenty; same_ending_a])).
  intros review Hr. apply list_elem_of_fmap in Hr as (text & -> & _).
  eexists. apply trimmed_text_text_only.
Defined.

(** C10. Every record the deduplicator keeps has a trimmed text of more
    than 20 characters; a record whose trimmed text has exactly 20 is not
    kept. *)
Theorem deduplicate_length_filter (all_reviews unique_reviews : list (gmap string pyval)) :
  deduplicate all_reviews = Ok unique_reviews ->
  (forall review, review ∈ unique_reviews ->
     exists t, trimmed_text review = Ok t /\ (20 < length t)%nat) /\
  (forall review t, trimmed_text review = Ok t -> length t = 20%nat ->
     review ∉ unique_reviews).
Proof.
  intros H. apply dedup_loop_kept in H as (kept & keys & -> & HF & _).
  cbn [app].
  assert (Hkept : forall review, review ∈ kept ->
            exists t, trimmed_text review = Ok t /\ (20 < length t)%nat).
  { intros review Hr.
    destruct (list_elem_of_lookup_1 _ _ Hr) as [i Hi].
    destruct (Forall2_lookup_l _ _ _ _ _ HF Hi) as (k & _ & t & Et & Hlen & _).
    eauto. }
  split; [exact Hkept|].
  intros review t Et Hlen Hr.
  destruct (Hkept review Hr) as (t' & Et' & Hlen').
  rewrite Et in Et'. injection Et' as <-. lia.
Qed.

Lemma deduplicate_length_filter_witness :
  (exists t, trimmed_text (text_only twenty_one) = Ok t /\ (20 < length t)%nat) /\
  text_only twenty ∉ [text_only twenty_one].
Proof.
  pose proof (deduplicate_length_filter
                [text_only twenty; text_only twenty_one] [text_only twenty_one]
                eq_refl) as [Hkept Hdropped].
  split.
  - apply Hkept, list_elem_of_here.
  - apply (Hdropped (text_only twenty) twenty); reflexivity.
Defined.







Section Pipeline.
Variable search_reviews : pystr -> nat -> list pystr.
Variable scrape_reviews : pystr -> option pystr.



End Pipeline.
End DedupClaims.

(** ** The heuristic classifier *)

Section ClassifierFacts.












End ClassifierFacts.

(** ** The aggregator *)

Section Rounding.
Local Open Scope Q_scope.

Lemma round_half_even_error (x : Q) :
  x - (1 # 2) <= inject_Z (round_half_even x) /\
  inject_Z (round_half_even x) <= x + (1 # 2).
Proof.
  unfold round_half_even.
  pose proof (Qfloor_le x) as Hlo. pose proof (Qlt_floor x) as Hhi.
  rewrite inject_Z_plus in Hhi. change (inject_Z 1) with 1 in Hhi.
  destruct (Qltb (x - inject_Z (Qfloor x)) (1 # 2)) eqn:E1.
  { apply Qltb_lt in E1. lra. }
  apply Qltb_ge in E1.
  destruct (Qltb (1 # 2) (x - inject_Z (Qfloor x))) eqn:E2.
  { rewrite inject_Z_plus. change (inject_Z 1) with 1. lra. }
  apply Qltb_ge in E2.
  destruct (Z.even (Qfloor x)); [lra|].
  rewrite inject_Z_plus. change (inject_Z 1) with 1. lra.
Qed.

(** Rounding to one decimal moves a number by at most 0.05. *)
Lemma py_round_1_error (x : Q) :
  x - (1 # 20) <= py_round x 1 /\ py_round x 1 <= x + (1 # 20).
Proof.
  unfold py_round. change (Pos.pow 10 (Pos.of_nat 1)) with 10%positive.
  destruct (round_half_even_error (x * inject_Z 10)) as [Hlo Hhi].
  rewrite (Qmake_Qdiv (round_half_even (x * inject_Z 10)) 10).
  change (inject_Z (Zpos 10)) with 10 in *.
  set (r := inject_Z (round_half_even (x * 10))) in *.
  split.
  - apply Qle_shift_div_l; lra.
  - apply Qle_shift_div_r; lra.
Qed.

Lemma percentage_error (count total : nat) :
  of_nat count / of_nat total * 100 - (1 # 20) <= percentage count total /\
  percentage count total <= of_nat count / of_nat total * 100 + (1 # 20).
Proof. apply py_round_1_error. Qed.

Lemma of_nat_add (a b : nat) : of_nat (a + b) == of_nat a + of_nat b.
Proof. unfold of_nat. now rewrite Nat2Z.inj_add, inject_Z_plus. Qed.

Lemma of_nat_pos (n : nat) : (0 < n)%nat -> 0 < of_nat n.
Proof.
  intros H. unfold of_nat. change 0 with (inject_Z 0).
  rewrite <- Zlt_Qlt. lia.
Qed.

(** Shares of a whole add up to one. *)
Lemma shares_total (parts : list nat) (total : nat) :
  (0 < total)%nat -> sum_list parts = total ->
  foldr (fun c acc => of_nat c / of_nat total + acc) 0 parts == 1.
Proof.
  intros Hpos Hsum.
  assert (Hgen : foldr (fun c acc => of_nat c / of_nat total + acc) 0 parts
                 == of_nat (sum_list parts) / of_nat total).
  { clear Hsum. induction parts as [|c parts IH]; cbn [foldr sum_list_with].
    - change (of_nat 0) with 0. unfold Qdiv. now rewrite Qmult_0_l.
    - rewrite IH. unfold id. rewrite of_nat_add. unfold Qdiv.
      now rewrite Qmult_plus_distr_l. }
  rewrite Hgen, Hsum. unfold Qdiv. apply Qmult_inv_r.
  pose proof (of_nat_pos total Hpos). lra.
Qed.
End Rounding.

Section Counting.
Context {A : Type} `{EqDecision A}.

Lemma counter_get_cons (x k : A) (l : list A) :
  counter_get (x :: l) k =
  ((if decide (x = k) then 1 else 0) + counter_get l k)%nat.
Proof.
  unfold counter_get. rewrite filter_cons.
  destruct (decide (x = k)); reflexivity.
Qed.

Lemma indicator_sum (x : A) (keys : list A) :
  NoDup keys ->
  sum_list ((fun k => if decide (x = k) then 1 else 0)%nat <$> keys) =
  (if decide (x ∈ keys) then 1 else 0)%nat.
Proof.
  induction 1 as [|k keys Hk HN IH]; [reflexivity|].
  cbn [fmap list_fmap sum_list_with]. unfold id at 1. rewrite IH.
  destruct (decide (x = k)) as [->|Hne].
  - rewrite (decide_False (P := k ∈ keys)) by exact Hk.
    rewrite decide_True by apply list_elem_of_here. reflexivity.
  - destruct (decide (x ∈ keys)) as [Hin|Hin].
    + rewrite decide_True by (now apply list_elem_of_further). reflexivity.
    + rewrite decide_False; [reflexivity|].
      intros [?|?]%elem_of_cons; contradiction.
Qed.

(** The counts of the values of a list, taken over a duplicate-free list
    of keys that covers them, add up to its length. *)
Lemma counter_total (keys l : list A) :
  NoDup keys -> (forall x, x ∈ l -> x ∈ keys) ->
  sum_list (counter_get l <$> keys) = length l.
Proof.
  intros HN. induction l as [|x l IH]; intros Hl.
  - induction keys as [|k keys IHk]; [reflexivity|].
    apply NoDup_cons in HN as [_ HN]. cbn. now rewrite IHk.
  - transitivity
      (sum_list ((fun k => if decide (x = k) then 1 else 0)%nat <$> keys) +
       sum_list (counter_get l <$> keys))%nat.
    + clear. induction keys as [|k keys IHk]; [reflexivity|].
      cbn [fmap list_fmap sum_list_with]. unfold id at 1 3 5.
      rewrite IHk, counter_get_cons. lia.
    + rewrite indicator_sum by exact HN.
      rewrite decide_True by apply Hl, list_elem_of_here.
      rewrite IH; [reflexivity|].
      intros y Hy. now apply Hl, list_elem_of_further.
Qed.
End Counting.

Section Distributions.
Local Open Scope Q_scope.

Lemma py_int_range (r : Q) :
  1 <= r -> r <= 5 -> py_int r ∈ [5; 4; 3; 2; 1]%Z.
Proof.
  unfold py_int, Qle. cbn [Qnum Qden]. intros H1 H5.
  assert (Hn : (0 <= Qnum r)%Z) by lia.
  rewrite Z.quot_div_nonneg by lia.
  assert (Hlo : (1 <= Qnum r / Zpos (Qden r))%Z)
    by (apply Z.div_le_lower_bound; lia).
  assert (Hhi : (Qnum r / Zpos (Qden r) <= 5)%Z)
    by (apply Z.div_le_upper_bound; lia).
  set (z := (Qnum r / Zpos (Qden r))%Z) in *.
  assert (Hz : z = 5%Z \/ z = 4%Z \/ z = 3%Z \/ z = 2%Z \/ z = 1%Z) by lia.
  destruct Hz as [-> | [-> | [-> | [-> | ->]]]]; set_solver.
Qed.

Lemma nonzero_of_rating (r : Q) : 1 <= r -> nonzero r = true.
Proof.
  intros H. unfold nonzero. apply negb_true_iff, not_true_iff_false.
  intros E. apply Qeq_bool_iff in E. lra.
Qed.

Lemma filter_nonzero_ratings (ratings : list Q) :
  (forall r, r ∈ ratings -> 1 <= r /\ r <= 5) ->
  filter (fun r => Is_true (nonzero r)) ratings = ratings.
Proof.
  induction ratings as [|r l IH]; intros H; [reflexivity|].
  rewrite filter_cons, decide_True.
  - rewrite IH; [reflexivity|]. intros x Hx. now apply H, list_elem_of_further.
  - rewrite nonzero_of_rating; [exact I|]. apply H, list_elem_of_here.
Qed.

(** C6. When the record list is not empty and every sentiment label is
    positive, negative or neutral, the three percentages of the sentiment
    distribution add up to 100 within 0.3; when there is at least one
    rating and every rating lies between 1 and 5, so do the five star
    percentages of the rating summary. *)
Theorem aggregation_totals :
  (forall reviews : list (gmap string pyval),
     reviews <> [] ->
     (forall r, r ∈ reviews ->
        py_get r "sentiment_label" (label "neutral")
          ∈ [label "positive"; label "negative"; label "neutral"]) ->
     exists p n u,
       _calculate_sentiment_distribution reviews !! "positive"%string = Some p /\
       _calculate_sentiment_distribution reviews !! "negative"%string = Some n /\
       _calculate_sentiment_distribution reviews !! "neutral"%string = Some u /\
       100 - (3 # 10) <= p + n + u /\ p + n + u <= 100 + (3 # 10)) /\
  (forall ratings : list Q,
     (0 < length ratings)%nat ->
     (forall r, r ∈ ratings -> 1 <= r /\ r <= 5) ->
     exists s5 s4 s3 s2 s1,
       _calculate_rating_summary ratings !! "5_star"%string = Some s5 /\
       _calculate_rating_summary ratings !! "4_star"%string = Some s4 /\
       _calculate_rating_summary ratings !! "3_star"%string = Some s3 /\
       _calculate_rating_summary ratings !! "2_star"%string = Some s2 /\
       _calculate_rating_summary ratings !! "1_star"%string = Some s1 /\
       100 - (3 # 10) <= s5 + s4 + s3 + s2 + s1 /\
       s5 + s4 + s3 + s2 + s1 <= 100 + (3 # 10)).
Proof.
  split.
  - intros reviews Hne Hlabels.
    unfold _calculate_sentiment_distribution.
    set (sentiments := (fun r => py_get r "sentiment_label" (label "neutral"))
                         <$> reviews).
    assert (Hlen : (0 < length sentiments)%nat).
    { unfold sentiments. rewrite length_fmap. destruct reviews; [easy|].
      cbn. lia. }
    assert (Hltb : (0 <? length sentiments)%nat = true) by now apply Nat.ltb_lt.
    rewrite Hltb.
    do 3 eexists. split; [reflexivity|]. split; [reflexivity|].
    split; [reflexivity|].
    assert (Hsum : sum_list (counter_get sentiments <$>
                     [label "positive"; label "negative"; label "neutral"])
                   = length sentiments).
    { apply counter_total.
      - apply (bool_decide_unpack _). vm_compute. exact I.
      - intros x Hx. apply list_elem_of_fmap in Hx as (r & -> & Hr). auto. }
    pose proof (shares_total _ _ Hlen Hsum) as Hone. cbn [fmap list_fmap foldr] in Hone.
    pose proof (percentage_error (counter_get sentiments (label "positive"))
                  (length sentiments)) as [].
    pose proof (percentage_error (counter_get sentiments (label "negative"))
                  (length sentiments)) as [].
    pose proof (percentage_error (counter_get sentiments (label "neutral"))
                  (length sentiments)) as [].
    split; lra.
  - intros ratings Hlen Hrange.
    unfold _calculate_rating_summary.
    destruct ratings as [|r0 rest] eqn:Er; [cbn in Hlen; lia|].
    rewrite <- Er in *. clear Er r0 rest.
    rewrite filter_nonzero_ratings by exact Hrange.
    set (rating_counts := py_int <$> ratings).
    do 5 eexists. do 5 (split; [reflexivity|]).
    assert (Hsum : sum_list (counter_get rating_counts <$> [5; 4; 3; 2; 1]%Z)
                   = length ratings).
    { rewrite <- (length_fmap py_int ratings). apply counter_total.
      - apply (bool_decide_unpack _). vm_compute. exact I.
      - intros x Hx. apply list_elem_of_fmap in Hx as (r & -> & Hr).
        apply py_int_range; now apply Hrange. }
    pose proof (shares_total _ _ Hlen Hsum) as Hone. cbn [fmap list_fmap foldr] in Hone.
    pose proof (percentage_error (counter_get rating_counts 5%Z) (length ratings)) as [].
    pose proof (percentage_error (counter_get rating_counts 4%Z) (length ratings)) as [].
    pose proof (percentage_error (counter_get rating_counts 3%Z) (length ratings)) as [].
    pose proof (percentage_error (counter_get rating_counts 2%Z) (length ratings)) as [].
    pose proof (percentage_error (counter_get rating_counts 1%Z) (length ratings)) as [].
    split; lra.
Qed.
End Distributions.

Lemma aggregation_totals_witness :
  (exists p n u,
     _calculate_sentiment_distribution three_labelled !! "positive"%string = Some p /\
     _calculate_sentiment_distribution three_labelled !! "negative"%string = Some n /\
     _calculate_sentiment_distribution three_labelled !! "neutral"%string = Some u /\
     (100 - (3 # 10) <= p + n + u)%Q /\ (p + n + u <= 100 + (3 # 10))%Q) /\
  (exists s5 s4 s3 s2 s1,
     _calculate_rating_summary three_ratings !! "5_star"%string = Some s5 /\
     _calculate_rating_summary three_ratings !! "4_star"%string = Some s4 /\
     _calculate_rating_summary three_ratings !! "3_star"%string = Some s3 /\
     _calculate_rating_summary three_ratings !! "2_star"%string = Some s2 /\
     _calculate_rating_summary three_ratings !! "1_star"%string = Some s1 /\
     (100 - (3 # 10) <= s5 + s4 + s3 + s2 + s1)%Q /\
     (s5 + s4 + s3 + s2 + s1 <= 100 + (3 # 10))%Q).
Proof.
  split.
  - apply (proj1 aggregation_totals three_labelled); [discriminate|].
    apply Forall_forall, (bool_decide_unpack _). vm_compute. exact I.
  - apply (proj2 aggregation_totals three_ratings); [cbn; lia|].
    apply Forall_forall. repeat constructor; unfold Qle; cbn; lia.
Defined.

Section AnalyzeFacts.
Variable chat_sentiment : nat -> pyval -> option (gmap string pyval).
Variable chat_insights : list (gmap string pyval) -> option (gmap string (list pystr)).

Lemma analyze_sentiment_other (call : nat) (text : pyval) (k : string) :
  k <> "sentiment_label"%string -> k <> "sentiment_score"%string ->
  _analyze_sentiment chat_sentiment call text !! k = None.
Proof.
  intros H1 H2. unfold _analyze_sentiment.
  destruct (chat_sentiment call text);
    rewrite lookup_insert_ne, lookup_singleton_ne by congruence; reflexivity.
Qed.

Lemma analyze_sentiment_keys (call : nat) (text : pyval) :
  is_Some (_analyze_sentiment chat_sentiment call text !! "sentiment_label"%string) /\
  is_Some (_analyze_sentiment chat_sentiment call text !! "sentiment_score"%string).
Proof.
  unfold _analyze_sentiment. destruct (chat_sentiment call text); split; eauto.
Qed.

(** The first loop writes two keys of the records of the list and nothing
    else. *)
Lemma annotate_frame (reviews : list nat) (call : nat)
    (h : gmap nat (gmap string pyval)) (l : nat) (k : string) :
  k <> "sentiment_label"%string -> k <> "sentiment_score"%string ->
  deref (annotate chat_sentiment call reviews h) l !! k = deref h l !! k.
Proof.
  intros H1 H2. revert call h.
  induction reviews as [|review rest IH]; intros call h; [reflexivity|].
  cbn [annotate]. rewrite IH. unfold deref at 1.
  destruct (decide (review = l)) as [->|Hne].
  - rewrite lookup_insert_eq. cbn [default from_option id].
    rewrite lookup_union_r; [reflexivity|].
    now apply analyze_sentiment_other.
  - now rewrite lookup_insert_ne.
Qed.

Lemma annotate_outside (reviews : list nat) (call : nat)
    (h : gmap nat (gmap string pyval)) (l : nat) :
  l ∉ reviews -> annotate chat_sentiment call reviews h !! l = h !! l.
Proof.
  revert call h. induction reviews as [|review rest IH]; intros call h Hl;
    [reflexivity|].
  apply not_elem_of_cons in Hl as [Hne Hl].
  cbn [annotate]. rewrite IH by exact Hl. now rewrite lookup_insert_ne.
Qed.

Lemma analyze_sentiment_absorbs (call call' : nat) (text text' : pyval)
    (d : gmap string pyval) :
  _analyze_sentiment chat_sentiment call' text'
    ∪ (_analyze_sentiment chat_sentiment call text ∪ d)
  = _analyze_sentiment chat_sentiment call' text' ∪ d.
Proof.
  apply map_eq. intros k.
  destruct (decide (k = "sentiment_label"%string)) as [->|H1];
    [|destruct (decide (k = "sentiment_score"%string)) as [->|H2]].
  - destruct (analyze_sentiment_keys call' text') as [[v Hv] _].
    now rewrite !(lookup_union_Some_l _ _ _ _ Hv).
  - destruct (analyze_sentiment_keys call' text') as [_ [v Hv]].
    now rewrite !(lookup_union_Some_l _ _ _ _ Hv).
  - rewrite !lookup_union_r by now apply analyze_sentiment_other.
    reflexivity.
Qed.

(** After the first loop a record of the list holds the answer to the
    last request made for it, on top of what it held before. *)
Lemma annotate_record (reviews : list nat) (call : nat)
    (h : gmap nat (gmap string pyval)) (l : nat) :
  l ∈ reviews ->
  exists i,
    reviews !! i = Some l /\
    deref (annotate chat_sentiment call reviews h) l =
    _analyze_sentiment chat_sentiment (call + i)
      (py_get (deref h l) "review_text" (VStr [])) ∪ deref h l.
Proof.
  revert call h. induction reviews as [|review rest IH]; intros call h Hl;
    [inversion Hl|].
  cbn [annotate].
  set (sentiment_result := _analyze_sentiment chat_sentiment call
         (py_get (deref h review) "review_text" (VStr []))).
  set (h1 := <[review := sentiment_result ∪ deref h review]> h).
  destruct (decide (l ∈ rest)) as [Hin|Hout].
  - destruct (IH (S call) h1 Hin) as (i & Hi & E).
    exists (S i). split; [exact Hi|]. rewrite E.
    replace (call + S i)%nat with (S call + i)%nat by lia.
    destruct (decide (review = l)) as [->|Hne].
    + assert (E1 : deref h1 l = sentiment_result ∪ deref h l)
        by (unfold deref at 1, h1; now rewrite lookup_insert_eq).
      rewrite E1. unfold py_get at 1.
      rewrite lookup_union_r by (apply analyze_sentiment_other; discriminate).
      apply analyze_sentiment_absorbs.
    + assert (E1 : deref h1 l = deref h l)
        by (unfold deref, h1; now rewrite lookup_insert_ne).
      now rewrite E1.
  - apply elem_of_cons in Hl as [->|Hl]; [|contradiction].
    exists 0%nat. split; [reflexivity|].
    unfold deref at 1. rewrite annotate_outside by exact Hout.
    unfold h1. rewrite lookup_insert_eq, Nat.add_0_r. reflexivity.
Qed.
End AnalyzeFacts.

Section AnalyzeClaims.
Variable chat_sentiment : nat -> pyval -> option (gmap string pyval).
Variable chat_insights : list (gmap string pyval) -> option (gmap string (list pystr)).

Lemma unrated_ratings (reviews : list nat) (h h' : gmap nat (gmap string pyval)) :
  (forall l, deref h' l !! "rating"%string = deref h l !! "rating"%string) ->
  (forall l, l ∈ reviews -> py_get (deref h l) "rating" VNone = VNone) ->
  List.filter is_not_none
    ((fun r => py_get r "rating" VNone) <$> (deref h' <$> reviews)) = [].
Proof.
  intros Hframe. induction reviews as [|l rest IH]; intros Hl; [reflexivity|].
  cbn [fmap list_fmap List.filter].
  assert (E : py_get (deref h' l) "rating" VNone = VNone).
  { unfold py_get. rewrite Hframe. apply Hl, list_elem_of_here. }
  rewrite E. cbn [is_not_none]. apply IH.
  intros x Hx. now apply Hl, list_elem_of_further.
Qed.

(** C7. On an empty record list [analyze_reviews] returns, without
    raising and without touching the store, a result with no reviews, an
    average rating of 0, the three sentiment percentages at 0 and an empty
    rating summary, so that every percentage read from it, with the
    default 0 for a missing one, is 0; and on any list in which no record
    carries a rating it returns a result whose average rating is 0. *)
Theorem empty_input_safety :
  (forall h : gmap nat (gmap string pyval),
     exists result,
       analyze_reviews chat_sentiment chat_insights [] h = (h, Ok result) /\
       total_reviews result = 0%nat /\
       (average_rating result == 0)%Q /\
       sentiment_distribution result =
         {[ "positive" := 0%Q; "negative" := 0%Q; "neutral" := 0%Q ]}%string /\
       rating_summary result = ∅ /\
       (forall k : string,
          (default 0 (sentiment_distribution result !! k) == 0)%Q /\
          (default 0 (rating_summary result !! k) == 0)%Q)) /\
  (forall (reviews : list nat) (h : gmap nat (gmap string pyval)),
     (forall l, l ∈ reviews -> py_get (deref h l) "rating" VNone = VNone) ->
     exists result,
       snd (analyze_reviews chat_sentiment chat_insights reviews h) = Ok result /\
       (average_rating result == 0)%Q).
Proof.
  assert (Hempty : forall h : gmap nat (gmap string pyval),
     exists result,
       analyze_reviews chat_sentiment chat_insights [] h = (h, Ok result) /\
       total_reviews result = 0%nat /\
       (average_rating result == 0)%Q /\
       sentiment_distribution result =
         {[ "positive" := 0%Q; "negative" := 0%Q; "neutral" := 0%Q ]}%string /\
       rating_summary result = ∅ /\
       (forall k : string,
          (default 0 (sentiment_distribution result !! k) == 0)%Q /\
          (default 0 (rating_summary result !! k) == 0)%Q)).
  { intros h. exists empty_analysis. cbn [analyze_reviews].
    do 5 (split; [reflexivity|]).
    intros k. cbn [empty_analysis sentiment_distribution rating_summary].
    split; [|now rewrite lookup_empty].
    destruct (({[ "positive" := 0%Q; "negative" := 0%Q; "neutral" := 0%Q ]}%string
               : gmap string Q) !! k) as [v|] eqn:H; [|reflexivity].
    cbn [default from_option id].
    apply lookup_insert_Some in H as [[_ <-]|[_ H]]; [reflexivity|].
    apply lookup_insert_Some in H as [[_ <-]|[_ H]]; [reflexivity|].
    apply lookup_singleton_Some in H as [_ <-]. reflexivity. }
  split; [exact Hempty|].
  intros reviews h Hl. destruct reviews as [|l0 rest] eqn:Er.
  - destruct (Hempty h) as (result & E & _ & Havg & _).
    exists result. now rewrite E.
  - rewrite <- Er in *. assert (Hne : reviews <> []) by now rewrite Er.
    clear Er l0 rest.
    unfold analyze_reviews. destruct reviews as [|l0 rest] eqn:Er; [easy|].
    rewrite <- Er in *. clear Er l0 rest. cbn [snd].
    rewrite (unrated_ratings reviews h); [| |exact Hl].
    + cbn [numbers mbind result_bind]. eexists. split; [reflexivity|].
      cbn [average_rating]. reflexivity.
    + intros l. apply annotate_frame; discriminate.
Qed.

(** C9 as the code has it. [analyze_reviews] writes to the records it is
    given: every record of the list ends up holding the sentiment label
    and score answered for it, on top of what it held before, so these two
    fields are added when they are absent and overwritten otherwise.
    Every other field of every record keeps its value, no other field is
    added, and records that are not in the list are untouched. *)
Theorem analyze_reviews_frame (reviews : list nat)
    (h : gmap nat (gmap string pyval)) :
  (forall (l : nat) (k : string),
     k <> "sentiment_label"%string -> k <> "sentiment_score"%string ->
     deref (fst (analyze_reviews chat_sentiment chat_insights reviews h)) l !! k
     = deref h l !! k) /\
  (forall l : nat,
     l ∉ reviews ->
     fst (analyze_reviews chat_sentiment chat_insights reviews h) !! l = h !! l) /\
  (forall l : nat,
     l ∈ reviews ->
     exists call sentiment_result,
       reviews !! call = Some l /\
       sentiment_result =
         _analyze_sentiment chat_sentiment call
           (py_get (deref h l) "review_text" (VStr [])) /\
       dom sentiment_result =
         ({[ "sentiment_label"; "sentiment_score" ]} : gset string)%string /\
       deref (fst (analyze_reviews chat_sentiment chat_insights reviews h)) l
       = sentiment_result ∪ deref h l).
Proof.
  assert (E : fst (analyze_reviews chat_sentiment chat_insights reviews h)
              = annotate chat_sentiment 0 reviews h)
    by (destruct reviews; reflexivity).
  rewrite E. split; [|split].
  - intros l k H1 H2. now apply annotate_frame.
  - intros l Hl. now apply annotate_outside.
  - intros l Hl.
    destruct (annotate_record chat_sentiment reviews 0 h l Hl) as (i & Hi & Hd).
    exists i. eexists. split; [exact Hi|]. split; [reflexivity|].
    split; [|exact Hd].
    unfold _analyze_sentiment. destruct (chat_sentiment _ _);
      now rewrite dom_insert_L, dom_singleton_L.
Qed.
End AnalyzeClaims.

Lemma empty_input_safety_witness :
  exists result,
    snd (analyze_reviews no_sentiment no_insights [0%nat] one_unrated) = Ok result /\
    (average_rating result == 0)%Q.
Proof.
  apply (proj2 (empty_input_safety no_sentiment no_insights) [0%nat] one_unrated).
  intros l Hl. apply list_elem_of_singleton in Hl. subst l. reflexivity.
Defined.

(** The record handed to [analyze_reviews] has no sentiment label before
    the call and has one after it. *)
Lemma analyze_reviews_adds_fields :
  deref one_record 0 !! "sentiment_label"%string = None /\
  deref (fst (analyze_reviews no_sentiment no_insights [0%nat] one_record)) 0
    !! "sentiment_label"%string = Some (label "neutral") /\
  deref (fst (analyze_reviews no_sentiment no_insights [0%nat] one_record)) 0
    !! "sentiment_score"%string = Some (VNum (1 # 2)) /\
  fst (analyze_reviews no_sentiment no_insights [0%nat] one_record) <> one_record.
Proof.
  split; [reflexivity|]. split; [reflexivity|]. split; [reflexivity|].
  intros E.
  assert (H : deref (fst (analyze_reviews no_sentiment no_insights [0%nat] one_record)) 0
              !! "sentiment_label"%string = deref one_record 0 !! "sentiment_label"%string)
    by now rewrite E.
  vm_compute in H. discriminate.
Qed.

Lemma analyze_reviews_frame_witness :
  deref (fst (analyze_reviews no_sentiment no_insights [0%nat] one_record)) 0
    !! "rating"%string = Some (VNum 5) /\
  exists call sentiment_result,
    [0%nat] !! call = Some 0%nat /\
    sentiment_result =
      _analyze_sentiment no_sentiment call
        (py_get (deref one_record 0) "review_text" (VStr [])) /\
    dom sentiment_result =
      ({[ "sentiment_label"; "sentiment_score" ]} : gset string)%string /\
    deref (fst (analyze_reviews no_sentiment no_insights [0%nat] one_record)) 0
    = sentiment_result ∪ deref one_record 0.
Proof.
  destruct (analyze_reviews_frame no_sentiment no_insights [0%nat] one_record)
    as (Hframe & _ & Hset).
  split.
  - rewrite Hframe by discriminate. reflexivity.
  - apply Hset, list_elem_of_here.
Defined.

(** ** The matcher finds only what the pattern matches *)

Section MatcherSound.
Variable ic : bool.

Lemma rep_sound {R : Type} (c : cset) (greedy : bool) (s : pystr)
    (lo : nat) (hi : option nat) (k : pystr -> option R) (v : R) :
  rep ic c greedy lo hi s k = Some v ->
  exists w rest,
    s = w ++ rest /\
    Forall (fun x => cset_match ic c x = true) w /\
    (lo <= length w)%nat /\
    match hi with Some n => (length w <= n)%nat | None => True end /\
    k rest = Some v.
Proof.
  revert lo hi. induction s as [|x s IH]; intros lo hi H.
  - assert (Hstop : match lo with O => k [] | S _ => None end = Some v).
    { cbn [rep] in H. destruct greedy; [exact H|].
      destruct (match lo with O => k [] | S _ => None end); congruence. }
    destruct lo; [|discriminate].
    exists [], []. repeat split; auto. destruct hi; cbn; lia.
  - assert (Hcases :
      (cset_match ic c x && may_repeat hi = true /\
       rep ic c greedy (Nat.pred lo) (Nat.pred <$> hi) s k = Some v) \/
      match lo with O => k (x :: s) | S _ => None end = Some v).
    { cbn [rep] in H. destruct greedy.
      - destruct (cset_match ic c x && may_repeat hi).
        + destruct (rep ic c true (Nat.pred lo) (Nat.pred <$> hi) s k) eqn:E.
          * left. split; [reflexivity|]. now rewrite <- H.
          * now right.
        + now right.
      - destruct (match lo with O => k (x :: s) | S _ => None end) eqn:E.
        + now right.
        + destruct (cset_match ic c x && may_repeat hi); [|discriminate].
          left. auto. }
    destruct Hcases as [[Hx Hrec]|Hstop].
    + apply andb_true_iff in Hx as [Hx Hhi].
      destruct (IH _ _ Hrec) as (w & rest & -> & Hw & Hlo & Hhi' & Hk).
      exists (x :: w), rest. repeat split; auto.
      * cbn [length]. lia.
      * destruct hi as [[|n]|]; cbn in *; try discriminate; auto. lia.
    + destruct lo; [|discriminate].
      exists [], (x :: s). repeat split; auto. destruct hi; cbn; lia.
Qed.

(** Soundness of the matcher: a success of [exec] comes from a word the
    pattern matches, with the continuation run on what follows it. *)
Lemma exec_sound {R : Type} (r : regex) (s : pystr) (g : caps)
    (k : pystr -> caps -> option R) (v : R) :
  exec ic r s g k = Some v ->
  exists w rest g', s = w ++ rest /\ sem ic r w rest g g' /\ k rest g' = Some v.
Proof.
  revert R s g k v.
  induction r as [|c|r1 IH1 r2 IH2|r1 IH1 r2 IH2|r1 IH1|greedy lo hi c|i r1 IH1|r1 IH1|];
    intros R s g k v H; cbn [exec] in H.
  - exists [], s, g. cbn [sem]. auto.
  - destruct s as [|x s]; [discriminate|].
    destruct (cset_match ic c x) eqn:E; [|discriminate].
    exists [x], s, g. cbn [sem]. eauto 6.
  - apply IH1 in H as (w1 & rest1 & g1 & -> & H1 & H).
    apply IH2 in H as (w2 & rest & g2 & -> & H2 & H).
    exists (w1 ++ w2), rest, g2. rewrite <- app_assoc.
    split; [reflexivity|]. split; [|exact H]. cbn [sem].
    exists w1, w2, g1. auto.
  - destruct (exec ic r1 s g k) eqn:E.
    + injection H as ->. apply IH1 in E as (w & rest & g' & -> & H1 & H).
      exists w, rest, g'. split; [reflexivity|]. split; [left; exact H1 | exact H].
    + apply IH2 in H as (w & rest & g' & -> & H2 & H).
      exists w, rest, g'. split; [reflexivity|]. split; [right; exact H2 | exact H].
  - destruct (exec ic r1 s g k) eqn:E.
    + injection H as ->. apply IH1 in E as (w & rest & g' & -> & H1 & H).
      exists w, rest, g'. split; [reflexivity|]. split; [left; exact H1 | exact H].
    + exists [], s, g. split; [reflexivity|]. split; [right; auto | exact H].
  - apply rep_sound in H as (w & rest & -> & Hw & Hlo & Hhi & H).
    exists w, rest, g. cbn [sem]. repeat split; auto.
  - apply IH1 in H as (w & rest & g1 & -> & H1 & H).
    rewrite length_app, Nat.add_sub, take_app_length in H.
    exists w, rest, ((i, w) :: g1). cbn [sem]. eauto.
  - destruct (exec ic r1 s g (fun _ g' => Some g')) as [g1|] eqn:E; [|discriminate].
    apply IH1 in E as (w' & rest' & g' & -> & H1 & [= <-]).
    exists [], (w' ++ rest'), g'. cbn [sem].
    split; [reflexivity|]. split; [|exact H]. split; [reflexivity|]. eauto.
  - destruct s as [|c [|c' s]].
    + exists [], [], g. cbn [sem]. repeat split; auto.
    + destruct (N.eqb_spec c 10) as [->|]; [|discriminate].
      exists [], [10], g. cbn [sem]. repeat split; auto.
    + discriminate.
Qed.

Lemma search_sound (r : regex) (text : pystr) (g : caps) :
  search ic r text = Some g -> found ic r text g.
Proof.
  induction text as [|x text IH]; cbn [search]; unfold match_at.
  - destruct (exec ic r [] [] (fun _ g => Some g)) eqn:E; [|discriminate].
    intros [= ->]. apply exec_sound in E as (w & rest & g' & -> & H & [= <-]).
    exists [], w, rest. auto.
  - destruct (exec ic r (x :: text) [] (fun _ g => Some g)) eqn:E.
    + intros [= ->]. apply exec_sound in E as (w & rest & g' & Hs & H & [= <-]).
      exists [], w, rest. auto.
    + intros H. destruct (IH H) as (pre & w & rest & -> & Hsem).
      exists (x :: pre), w, rest. auto.
Qed.

Lemma first_search_sound (patterns : list regex) (text : pystr)
    (pattern : regex) (g : caps) :
  first_search ic patterns text = Some (pattern, g) ->
  pattern ∈ patterns /\ found ic pattern text g.
Proof.
  induction patterns as [|p ps IH]; cbn [first_search]; [discriminate|].
  destruct (search ic p text) eqn:E.
  - intros [= <- <-]. split; [apply list_elem_of_here | now apply search_sound].
  - intros H. destruct (IH H). split; [now apply list_elem_of_further | assumption].
Qed.
End MatcherSound.

(** ** The reviewer name and the review date *)

Section FieldShapes.

Lemma sem_no_groups (ic : bool) (r : regex) (w rest : pystr) (g g' : caps) :
  ngroups r = 0%nat -> sem ic r w rest g g' -> g' = g.
Proof.
  revert w rest g g'.
  induction r as [|c|r1 IH1 r2 IH2|r1 IH1 r2 IH2|r1 IH1|greedy lo hi c|i r1 IH1|r1 IH1|];
    intros w rest g g' Hn H; cbn [sem ngroups] in *.
  - tauto.
  - destruct H as (x & _ & _ & ->). reflexivity.
  - destruct H as (w1 & w2 & g1 & _ & H1 & H2).
    apply IH1 in H1; [|lia]. apply IH2 in H2; [|lia]. congruence.
  - destruct H as [H|H]; [apply IH1 in H | apply IH2 in H]; auto; lia.
  - destruct H as [H|[_ H]]; [now apply IH1 in H | exact H].
  - tauto.
  - discriminate.
  - destruct H as (_ & w' & rest' & _ & H). now apply IH1 in H.
  - tauto.
Qed.

(** A literal matches its own text, up to case under [re.IGNORECASE]. *)
Lemma sem_lit (ic : bool) (s : string) (w rest : pystr) (g g' : caps) :
  sem ic (lit s) w rest g g' ->
  caseless <$> w = caseless <$> py s /\ (ic = false -> w = py s) /\ g' = g.
Proof.
  unfold lit. revert w rest g g'.
  induction (py s) as [|a l IH]; intros w rest g g' H; cbn [foldr sem] in H.
  - destruct H as [-> ->]. auto.
  - destruct H as (w1 & w2 & g1 & -> & (x & -> & Hx & ->) & H2).
    apply IH in H2 as (Hl & Hw & ->). cbn [app fmap list_fmap] in *.
    cbn [cset_match] in Hx. split; [|split; [|reflexivity]].
    + f_equal; [|exact Hl].
      apply orb_true_iff in Hx as [Hx|Hx].
      * apply N.eqb_eq in Hx. now subst.
      * apply andb_true_iff in Hx as [_ Hx]. now apply N.eqb_eq in Hx.
    + intros ->. rewrite orb_false_r in Hx. apply N.eqb_eq in Hx.
      subst. f_equal. now apply Hw.
Qed.

Lemma sem_upper (w rest : pystr) (g g' : caps) :
  sem false (RSet (CRange (chr "A") (chr "Z"))) w rest g g' ->
  exists u, w = [u] /\ is_upper u = true /\ g' = g.
Proof.
  cbn [sem cset_match]. intros (x & -> & Hx & ->).
  rewrite orb_false_r in Hx. eauto.
Qed.

Lemma sem_lowers (w rest : pystr) (g g' : caps) :
  sem false (plus (CRange (chr "a") (chr "z"))) w rest g g' ->
  w <> [] /\ Forall (fun c => is_lower c = true) w /\ g' = g.
Proof.
  unfold plus. cbn [sem]. intros (Hw & Hlen & _ & ->).
  split; [|split; [|reflexivity]].
  - intros ->. cbn in Hlen. lia.
  - eapply Forall_impl; [exact Hw|]. intros x Hx. cbn [cset_match] in Hx.
    now rewrite orb_false_r in Hx.
Qed.

Lemma sem_blank (ic : bool) (w rest : pystr) (g g' : caps) :
  sem ic (plus CSpace) w rest g g' -> blank w /\ g' = g.
Proof.
  unfold plus. cbn [sem]. intros (Hw & Hlen & _ & ->).
  split; [|reflexivity]. split; [|exact Hw].
  intros ->. cbn in Hlen. lia.
Qed.

Lemma sem_two_names (w rest : pystr) (g g' : caps) :
  sem false two_names w rest g g' -> two_capitalised w /\ g' = g.
Proof.
  unfold two_names. cbn [rseq foldr]. cbn [sem].
  intros (w1 & x1 & g1 & -> & Hu1 & w2 & x2 & g2 & -> & Hl1 &
          w3 & x3 & g3 & -> & Hsp & w4 & x4 & g4 & -> & Hu2 &
          w5 & x5 & g5 & -> & Hl2 & -> & ->).
  apply (sem_upper _ []) in Hu1 as (u1 & -> & Hu1 & ->).
  apply sem_lowers in Hl1 as (Hn1 & Hl1 & ->).
  apply sem_blank in Hsp as (Hsp & ->).
  apply (sem_upper _ []) in Hu2 as (u2 & -> & Hu2 & ->).
  apply sem_lowers in Hl2 as (Hn2 & Hl2 & ->).
  split; [|reflexivity].
  exists (u1 :: w2), w3, (u2 :: w5). rewrite app_nil_r.
  split; [reflexivity|]. split; [|split; [exact Hsp|]].
  - exists u1, w2. repeat split; auto.
  - exists u2, w5. repeat split; auto.
Qed.

Lemma found_name (pattern : regex) (text : pystr) (g : caps) :
  pattern ∈ name_patterns -> found false pattern text g ->
  exists name,
    group_of 1 g = Some name /\ two_capitalised name /\ infix_of name text.
Proof.
  unfold name_patterns. intros Hp (pre & w & rest & -> & H).
  apply elem_of_cons in Hp as [->|Hp]; [|apply elem_of_cons in Hp as [->|Hp];
    [|apply list_elem_of_singleton in Hp; subst pattern]];
    cbn [rseq foldr] in H; cbn [sem] in H.
  - destruct H as (w1 & x1 & g1 & -> & _ & w2 & x2 & g2 & -> & _ &
                   w3 & x3 & g3 & -> & (g4 & Hn & ->) & -> & ->).
    apply sem_two_names in Hn as [Hn _].
    exists w3. split; [reflexivity|]. split; [exact Hn|].
    exists (pre ++ w1 ++ w2), rest. rewrite app_nil_r. now rewrite <- !app_assoc.
  - destruct H as (w1 & x1 & g1 & -> & _ & w2 & x2 & g2 & -> & _ &
                   w3 & x3 & g3 & -> & (g4 & Hn & ->) & -> & ->).
    apply sem_two_names in Hn as [Hn _].
    exists w3. split; [reflexivity|]. split; [exact Hn|].
    exists (pre ++ w1 ++ w2), rest. rewrite app_nil_r. now rewrite <- !app_assoc.
  - destruct H as (w1 & x1 & g1 & -> & (g0 & Hn & ->) & w2 & x2 & g2 & -> & Hsp &
                   w3 & x3 & g3 & -> & Hsaid & -> & ->).
    apply sem_two_names in Hn as [Hn _].
    apply sem_no_groups in Hsp; [|reflexivity].
    apply sem_no_groups in Hsaid; [|reflexivity]. subst.
    exists w1. split; [reflexivity|]. split; [exact Hn|].
    exists pre, (w2 ++ w3 ++ rest). rewrite app_nil_r. now rewrite <- !app_assoc.
Qed.

(** A reviewer name, when one is found, is a piece of the text made of
    two capitalised words. *)
Lemma reviewer_name_found (review_text name : pystr) :
  _extract_reviewer_name review_text = Some name ->
  two_capitalised name /\ infix_of name review_text.
Proof.
  unfold _extract_reviewer_name.
  destruct (first_search false name_patterns review_text) as [[pattern g]|] eqn:E;
    [|discriminate].
  apply first_search_sound in E as [Hp Hf].
  destruct (found_name _ _ _ Hp Hf) as (n & Hg & Hn & Hi).
  rewrite Hg. intros [= <-]. auto.
Qed.

Lemma sem_digit_run (ic greedy : bool) (lo hi : nat) (w rest : pystr) (g g' : caps) :
  sem ic (RRep greedy lo (Some hi) CDigit) w rest g g' ->
  digit_run lo hi w /\ g' = g.
Proof.
  cbn [sem]. intros (Hw & Hlo & Hhi & ->). split; [|reflexivity].
  split; [exact Hw | lia].
Qed.

Lemma sem_month (w rest : pystr) (g g' : caps) :
  sem true month w rest g g' -> month_name w /\ g' = g.
Proof.
  unfold month, months. cbn [fmap list_fmap ralt foldl]. cbn [sem].
  intros H. unfold month_name.
  repeat (destruct H as [H|H]);
    apply sem_lit in H as (-> & _ & ->);
    (split; [|reflexivity]);
    apply (bool_decide_unpack _); vm_compute; exact I.
Qed.

Lemma sem_separator (s : string) (c : N) (w rest : pystr) (g g' : caps) :
  py s = [c] -> is_lower (caseless c) = false ->
  sem true (lit s) w rest g g' -> w = [c] /\ g' = g.
Proof.
  intros Hs Hc H. apply sem_lit in H as (Hl & _ & ->). split; [|reflexivity].
  rewrite Hs in Hl. destruct w as [|x [|y w]]; try discriminate.
  cbn [fmap list_fmap] in Hl. injection Hl as Hl.
  f_equal. now apply caseless_symbol.
Qed.

Lemma sem_numeric_date (s : string) (c : N) (w rest : pystr) (g g' : caps) :
  py s = [c] -> is_lower (caseless c) = false ->
  sem true (rseq [between 1 2 CDigit; lit s; between 1 2 CDigit; lit s; digits 4])
      w rest g g' ->
  numeric_date c w /\ g' = g.
Proof.
  intros Hs Hc. cbn [rseq foldr]. unfold between, digits. cbn [sem].
  intros (w1 & x1 & g1 & -> & Ha & w2 & x2 & g2 & -> & Hs1 &
          w3 & x3 & g3 & -> & Hb & w4 & x4 & g4 & -> & Hs2 &
          w5 & x5 & g5 & -> & Hy & -> & ->).
  apply (sem_digit_run true true 1 2 w1 []) in Ha as [Ha ->].
  apply (sem_separator s c _ _ _ _ Hs Hc) in Hs1 as [-> ->].
  apply (sem_digit_run true true 1 2 w3 []) in Hb as [Hb ->].
  apply (sem_separator s c _ _ _ _ Hs Hc) in Hs2 as [-> ->].
  apply (sem_digit_run true true 4 4 w5 []) in Hy as [Hy ->].
  split; [|reflexivity]. exists w1, w3, w5. rewrite app_nil_r.
  split; [reflexivity | auto].
Qed.

Lemma infix_of_middle (pre w rest : pystr) : infix_of w (pre ++ w ++ rest).
Proof. now exists pre, rest. Qed.

Lemma found_date (pattern : regex) (text : pystr) (g : caps) :
  pattern ∈ date_patterns -> found true pattern text g ->
  exists d,
    group_of 1 g = Some d /\ infix_of d text /\
    (numeric_date 47 d \/ numeric_date 45 d \/ month_name d \/ day_month_year d).
Proof.
  unfold date_patterns. intros Hp (pre & w & rest & -> & H).
  apply elem_of_cons in Hp as [->|Hp]; [|apply elem_of_cons in Hp as [->|Hp];
    [|apply elem_of_cons in Hp as [->|Hp];
      [|apply list_elem_of_singleton in Hp; subst pattern]]].
  - cbn [sem] in H. destruct H as (g0 & H & ->).
    apply (sem_numeric_date "/" 47) in H as [H _]; [|reflexivity..].
    exists w. split; [reflexivity|]. split; [apply infix_of_middle | auto].
  - cbn [sem] in H. destruct H as (g0 & H & ->).
    apply (sem_numeric_date "-" 45) in H as [H _]; [|reflexivity..].
    exists w. split; [reflexivity|]. split; [apply infix_of_middle | auto].
  - cbn [rseq foldr] in H. cbn [sem] in H.
    destruct H as (w1 & x1 & g1 & -> & (g0 & Hm & ->) & w2 & x2 & g2 & -> & H2 &
                   w3 & x3 & g3 & -> & H3 & w4 & x4 & g4 & -> & H4 &
                   w5 & x5 & g5 & -> & H5 & w6 & x6 & g6 & -> & H6 & -> & ->).
    apply sem_month in Hm as [Hm _].
    apply sem_no_groups in H2; [|reflexivity].
    apply sem_no_groups in H3; [|reflexivity].
    assert (g4 = g3) by (destruct H4 as [(x & _ & _ & E)|[_ E]]; exact E).
    apply sem_no_groups in H5; [|reflexivity].
    apply sem_no_groups in H6; [|reflexivity]. subst.
    exists w1. split; [reflexivity|]. split; [|auto].
    exists pre, (w2 ++ w3 ++ w4 ++ w5 ++ w6 ++ [] ++ rest).
    now rewrite <- !app_assoc.
  - cbn [sem] in H. destruct H as (g0 & H & ->).
    exists w. split; [reflexivity|]. split; [apply infix_of_middle|].
    right. right. right.
    cbn [rseq foldr] in H. unfold between, digits in H. cbn [sem] in H.
    destruct H as (w1 & x1 & g1 & -> & Ha & w2 & x2 & g2 & -> & Hs1 &
                   w3 & x3 & g3 & -> & (g3' & Hm & ->) & w4 & x4 & g4 & -> & Hs2 &
                   w5 & x5 & g5 & -> & Hy & -> & ->).
    apply (sem_digit_run true true 1 2 w1 []) in Ha as [Ha _].
    apply sem_blank in Hs1 as [Hs1 _].
    apply sem_month in Hm as [Hm _].
    apply sem_blank in Hs2 as [Hs2 _].
    apply (sem_digit_run true true 4 4 w5 []) in Hy as [Hy _].
    exists w1, w2, w3, w4, w5. rewrite app_nil_r. auto 7.
Qed.

(** A review date, when one is found, is a piece of the text. *)
Lemma review_date_found (review_text d : pystr) :
  _extract_review_date review_text = Some d ->
  infix_of d review_text /\
  (numeric_date 47 d \/ numeric_date 45 d \/ month_name d \/ day_month_year d).
Proof.
  unfold _extract_review_date.
  destruct (first_search true date_patterns review_text) as [[pattern g]|] eqn:E;
    [|discriminate].
  apply first_search_sound in E as [Hp Hf].
  destruct (found_date _ _ _ Hp Hf) as (n & Hg & Hi & Hn).
  rewrite Hg. intros [= <-]. auto.
Qed.
End FieldShapes.

(** ** Names and dates of the emitted records *)

Section StripInfix.

Lemma lstrip_app_solid (pre : pystr) (x : N) (t : pystr) :
  isspace x = false -> lstrip (pre ++ x :: t) = lstrip pre ++ x :: t.
Proof.
  intros Hx. induction pre as [|c pre IH]; cbn [app lstrip].
  - now rewrite Hx.
  - destruct (isspace c); [exact IH | reflexivity].
Qed.

Lemma rstrip_app_solid (a : pystr) (y : N) (post : pystr) :
  isspace y = false -> rstrip (a ++ y :: post) = a ++ y :: rstrip post.
Proof.
  intros Hy. unfold rstrip.
  rewrite reverse_app, reverse_cons, <- app_assoc. cbn [app].
  rewrite lstrip_app_solid by exact Hy.
  rewrite reverse_app, reverse_cons, reverse_involutive, <- app_assoc.
  reflexivity.
Qed.

(** A piece of a text that neither starts nor ends with white space is
    still a piece of the trimmed text. *)
Lemma strip_keeps_infix (w s : pystr) :
  solid_ends w -> infix_of w s -> infix_of w (strip s).
Proof.
  intros [(x & t & -> & Hx) (t' & y & Hw & Hy)] (pre & post & ->).
  unfold strip. cbn [app]. rewrite lstrip_app_solid by exact Hx.
  change (x :: t ++ post) with ((x :: t) ++ post). rewrite Hw.
  rewrite <- app_assoc. cbn [app]. rewrite app_assoc.
  rewrite rstrip_app_solid by exact Hy.
  exists (lstrip pre), (rstrip post). now rewrite <- !app_assoc.
Qed.
End StripInfix.

Section SolidEnds.

Lemma letter_not_space (c : N) :
  is_lower (lower_char c) = true -> isspace c = false.
Proof.
  unfold is_lower, lower_char, isspace. intros H.
  destruct ((65 <=? c) && (c <=? 90)) eqn:E.
  - apply andb_true_iff in E as [E1 E2]. apply N.leb_le in E1, E2.
    repeat (apply orb_false_iff; split);
      try (apply andb_false_iff);
      try (apply N.eqb_neq; lia);
      try (left; apply N.leb_gt; lia); right; apply N.leb_gt; lia.
  - apply andb_true_iff in H as [H1 H2]. apply N.leb_le in H1, H2.
    repeat (apply orb_false_iff; split);
      try (apply andb_false_iff);
      try (apply N.eqb_neq; lia);
      try (left; apply N.leb_gt; lia); right; apply N.leb_gt; lia.
Qed.

Lemma upper_not_space (c : N) : is_upper c = true -> isspace c = false.
Proof.
  intros H. apply letter_not_space. unfold is_upper in H.
  unfold lower_char, is_lower. rewrite H.
  apply andb_true_iff in H as [H1 H2]. apply N.leb_le in H1, H2.
  apply andb_true_iff. split; apply N.leb_le; lia.
Qed.

Lemma lower_not_space (c : N) : is_lower c = true -> isspace c = false.
Proof.
  intros H. apply letter_not_space. unfold lower_char.
  destruct ((65 <=? c) && (c <=? 90)) eqn:E; [|exact H].
  exfalso. unfold is_lower in H.
  apply andb_true_iff in E as [E1 E2]. apply N.leb_le in E1, E2.
  apply andb_true_iff in H as [H1 H2]. apply N.leb_le in H1, H2. lia.
Qed.

Lemma caseless_not_space (c : N) :
  is_lower (caseless c) = true -> isspace c = false.
Proof.
  unfold caseless.
  destruct ((c =? 304) || (c =? 305))%N eqn:E1.
  { intros _. apply orb_true_iff in E1 as [E|E]; apply N.eqb_eq in E;
      subst c; reflexivity. }
  destruct (c =? 383)%N eqn:E2.
  { intros _. apply N.eqb_eq in E2. subst c. reflexivity. }
  destruct (c =? 8490)%N eqn:E3.
  { intros _. apply N.eqb_eq in E3. subst c. reflexivity. }
  apply letter_not_space.
Qed.

Lemma run_not_space (c zero : N) :
  zero ∈ decimal_zeros -> in_run c zero = true -> isspace c = false.
Proof.
  intros Hz Hr. unfold in_run in Hr.
  apply andb_true_iff in Hr as [H1 H2]. apply N.leb_le in H1, H2.
  unfold isspace, decimal_zeros in *.
  repeat (apply elem_of_cons in Hz as [->|Hz];
          [repeat (apply orb_false_iff; split);
           try (apply andb_false_iff);
           try (apply N.eqb_neq; lia);
           try (left; apply N.leb_gt; lia); right; apply N.leb_gt; lia|]).
  inversion Hz.
Qed.

Lemma digit_not_space (c : N) : isdecimal c = true -> isspace c = false.
Proof.
  unfold isdecimal. intros H. apply existsb_exists in H as (zero & Hz & Hr).
  apply list_elem_of_In in Hz. exact (run_not_space c zero Hz Hr).
Qed.

Lemma solid_ends_all (w : pystr) :
  w <> [] -> Forall (fun c => isspace c = false) w -> solid_ends w.
Proof.
  intros Hn Hw. split.
  - destruct w as [|x t]; [contradiction|].
    exists x, t. split; [reflexivity|]. now apply Forall_cons in Hw as [Hx _].
  - destruct w as [|y t _] using rev_ind; [contradiction|].
    exists t, y. split; [reflexivity|].
    apply Forall_app in Hw as [_ Hy]. now apply Forall_cons in Hy as [Hy _].
Qed.

Lemma solid_ends_between (a m b : pystr) :
  solid_ends a -> solid_ends b -> solid_ends (a ++ m ++ b).
Proof.
  intros [(x & t & -> & Hx) _] [_ (t' & y & -> & Hy)]. split.
  - exists x, (t ++ m ++ t' ++ [y]). auto.
  - exists ((x :: t) ++ m ++ t'), y. split; [|exact Hy].
    now rewrite <- !app_assoc.
Qed.

Lemma capitalised_solid (w : pystr) : capitalised w -> solid_ends w.
Proof.
  intros (u & l & -> & Hu & _ & Hl). apply solid_ends_all; [discriminate|].
  constructor; [now apply upper_not_space|].
  eapply Forall_impl; [exact Hl|]. apply lower_not_space.
Qed.

Lemma two_capitalised_solid (name : pystr) : two_capitalised name -> solid_ends name.
Proof.
  intros (w1 & sp & w2 & -> & H1 & _ & H2).
  apply solid_ends_between; now apply capitalised_solid.
Qed.

Lemma digit_run_solid (lo hi : nat) (w : pystr) :
  (0 < lo)%nat -> digit_run lo hi w -> solid_ends w.
Proof.
  intros Hlo [Hw Hlen]. apply solid_ends_all.
  - intros ->. cbn in Hlen. lia.
  - eapply Forall_impl; [exact Hw|]. apply digit_not_space.
Qed.

Lemma month_name_solid (w : pystr) : month_name w -> solid_ends w.
Proof.
  unfold month_name. intros H.
  assert (Hm : caseless <$> w <> [] /\
               Forall (fun c => is_lower c = true) (caseless <$> w)).
  { apply list_elem_of_fmap in H as (m & -> & Hm). unfold months in Hm.
    repeat (apply elem_of_cons in Hm as [->|Hm]);
      [split; [discriminate | repeat constructor] ..|inversion Hm]. }
  destruct Hm as [Hn Hl]. apply solid_ends_all.
  - intros ->. now apply Hn.
  - rewrite Forall_fmap in Hl.
    eapply Forall_impl; [exact Hl|]. intros c Hc. now apply caseless_not_space.
Qed.

Lemma date_shaped_solid (d : pystr) : date_shaped d -> solid_ends d.
Proof.
  intros [H|[H|[H|H]]].
  - destruct H as (a & b & y & -> & Ha & _ & Hy).
    replace (a ++ 47 :: b ++ 47 :: y) with (a ++ (47 :: b ++ [47]) ++ y)
      by (cbn [app]; now rewrite <- app_assoc).
    apply solid_ends_between;
      [apply (digit_run_solid 1 2) | apply (digit_run_solid 4 4)]; auto; lia.
  - destruct H as (a & b & y & -> & Ha & _ & Hy).
    replace (a ++ 45 :: b ++ 45 :: y) with (a ++ (45 :: b ++ [45]) ++ y)
      by (cbn [app]; now rewrite <- app_assoc).
    apply solid_ends_between;
      [apply (digit_run_solid 1 2) | apply (digit_run_solid 4 4)]; auto; lia.
  - now apply month_name_solid.
  - destruct H as (a & s1 & m & s2 & y & -> & Ha & _ & _ & _ & Hy).
    replace (a ++ s1 ++ m ++ s2 ++ y) with (a ++ (s1 ++ m ++ s2) ++ y)
      by now rewrite <- !app_assoc.
    apply solid_ends_between;
      [apply (digit_run_solid 1 2) | apply (digit_run_solid 4 4)]; auto; lia.
Qed.
End SolidEnds.

Section EmittedFields.
Variable source_url : pystr.

Lemma flush_made (st : seg_state) :
  Forall (made_from source_url) (reviews st) ->
  Forall (made_from source_url) (flush source_url st).
Proof.
  intros H. unfold flush.
  destruct (current_rating st) as [rating|]; [|exact H].
  destruct (truthy (current_review st) && truthy rating) eqn:E; [|exact H].
  apply andb_true_iff in E as [E1 E2].
  apply Forall_app. split; [exact H|].
  constructor; [|constructor]. now exists (current_review st), rating.
Qed.

Lemma scan_line_made (st : seg_state) (line : pystr) :
  Forall (made_from source_url) (reviews st) ->
  Forall (made_from source_url) (reviews (scan_line source_url st line)).
Proof.
  intros H. unfold scan_line.
  destruct (negb (truthy (strip line)) || (length (strip line) <? 10)%nat);
    [exact H|].
  destruct (first_search true review_patterns (strip line)) as [[pattern m]|].
  - cbn [reviews]. now apply flush_made.
  - destruct (truthy (current_review st)); [exact H|].
    destruct (_is_likely_review (strip line)); exact H.
Qed.

(** Every emitted record is built from a buffer and a rating token that
    are not empty. *)
Lemma extract_reviews_made (content : pystr) :
  Forall (made_from source_url) (extract_reviews_from_content content source_url).
Proof.
  unfold extract_reviews_from_content, extract_reviews_from_lines.
  apply flush_made.
  assert (Hinv : forall lines st,
            Forall (made_from source_url) (reviews st) ->
            Forall (made_from source_url)
              (reviews (foldl (scan_line source_url) st lines))).
  { induction lines as [|line rest IH]; intros st H; [exact H|].
    cbn [foldl]. apply IH. now apply scan_line_made. }
  apply Hinv. constructor.
Qed.

Lemma make_review_name (current_review current_rating : pystr) :
  make_review current_review current_rating source_url !! "reviewer_name"%string
  = Some (of_opt_str (_extract_reviewer_name current_review)).
Proof. reflexivity. Qed.

Lemma make_review_date (current_review current_rating : pystr) :
  make_review current_review current_rating source_url !! "review_date"%string
  = Some (of_opt_str (_extract_review_date current_review)).
Proof. reflexivity. Qed.

(** The reviewer name of an emitted record is absent or is two capitalised
    words that stand in the text of the record; its date is absent or is a
    numeric date, the name of a month, or a day, a month and a year,
    written with the decimal digits of any script and the month in any
    mix of cases, and stands in the text of the record. *)
Theorem extract_reviews_fields (content : pystr) (review : gmap string pyval) :
  review ∈ extract_reviews_from_content content source_url ->
  exists text,
    review !! "review_text"%string = Some (VStr text) /\
    (review !! "reviewer_name"%string = Some VNone \/
     exists name,
       review !! "reviewer_name"%string = Some (VStr name) /\
       two_capitalised name /\ infix_of name text) /\
    (review !! "review_date"%string = Some VNone \/
     exists d,
       review !! "review_date"%string = Some (VStr d) /\
       date_shaped d /\ infix_of d text).
Proof.
  intros Hr. pose proof (extract_reviews_made content) as HF.
  rewrite Forall_forall in HF.
  destruct (HF review Hr) as (cr & rating & -> & _ & _).
  exists (strip cr). split; [reflexivity|]. split.
  - rewrite make_review_name.
    destruct (_extract_reviewer_name cr) as [name|] eqn:E; [right | now left].
    apply reviewer_name_found in E as [Hn Hi].
    exists name. split; [reflexivity|]. split; [exact Hn|].
    apply strip_keeps_infix; [now apply two_capitalised_solid | exact Hi].
  - rewrite make_review_date.
    destruct (_extract_review_date cr) as [d|] eqn:E; [right | now left].
    apply review_date_found in E as [Hi Hd].
    exists d. split; [reflexivity|]. split; [exact Hd|].
    apply strip_keeps_infix; [now apply date_shaped_solid | exact Hi].
Qed.
End EmittedFields.

Lemma signed_page_record (source_url : pystr) :
  extract_reviews_from_content signed_page source_url = [signed_record source_url].
Proof. vm_compute. reflexivity. Qed.

Lemma extract_reviews_fields_witness :
  exists text,
    signed_record (py "https://shop.example/item") !! "review_text"%string
      = Some (VStr text) /\
    (signed_record (py "https://shop.example/item") !! "reviewer_name"%string
       = Some VNone \/
     exists name,
       signed_record (py "https://shop.example/item") !! "reviewer_name"%string
         = Some (VStr name) /\
       two_capitalised name /\ infix_of name text) /\
    (signed_record (py "https://shop.example/item") !! "review_date"%string
       = Some VNone \/
     exists d,
       signed_record (py "https://shop.example/item") !! "review_date"%string
         = Some (VStr d) /\
       date_shaped d /\ infix_of d text).
Proof.
  apply (extract_reviews_fields (py "https://shop.example/item") signed_page).
  rewrite signed_page_record. apply list_elem_of_here.
Defined.

(** ** Lines that count *)

Section Lines.
Variable source_url : pystr.

Lemma scan_line_insignificant (st : seg_state) (line : pystr) :
  significant line = false -> scan_line source_url st line = st.
Proof.
  unfold significant, scan_line. intros H.
  destruct (truthy (strip line)); cbn [negb orb andb] in *; [|reflexivity].
  apply negb_false_iff in H. now rewrite H.
Qed.

Lemma scan_line_strip (st : seg_state) (line : pystr) :
  scan_line source_url st (strip line) = scan_line source_url st line.
Proof. unfold scan_line. now rewrite strip_idempotent. Qed.

Lemma scan_lines_significant (lines : list pystr) (st : seg_state) :
  foldl (scan_line source_url) st (strip <$> List.filter significant lines)
  = foldl (scan_line source_url) st lines.
Proof.
  revert st. induction lines as [|line rest IH]; intros st; [reflexivity|].
  cbn [List.filter foldl]. destruct (significant line) eqn:E.
  - cbn [fmap list_fmap foldl]. now rewrite scan_line_strip, <- IH.
  - now rewrite scan_line_insignificant, IH.
Qed.

(** Lines that are blank or shorter than ten characters once trimmed, and
    the white space around the other lines, have no influence on what the
    segmenter emits. *)
Theorem extract_reviews_significant (content : pystr) :
  extract_reviews_from_content content source_url =
  extract_reviews_from_lines
    (strip <$> List.filter significant (split_on 10 content)) source_url.
Proof.
  unfold extract_reviews_from_content, extract_reviews_from_lines.
  now rewrite scan_lines_significant.
Qed.

Lemma flush_length (st : seg_state) :
  (length (flush source_url st) <= length (reviews st) + pending st)%nat.
Proof.
  unfold flush, pending. destruct (current_rating st) as [rating|]; [|lia].
  destruct (truthy (current_review st) && truthy rating); [|lia].
  rewrite length_app. cbn [length]. lia.
Qed.

Lemma scan_line_count (st : seg_state) (line : pystr) :
  (length (reviews (scan_line source_url st line))
   + pending (scan_line source_url st line)
   <= length (reviews st) + pending st
      + (if is_marker_line line then 1 else 0))%nat.
Proof.
  unfold is_marker_line. destruct (significant line) eqn:Es.
  - unfold scan_line. unfold significant in Es.
    apply andb_true_iff in Es as [E1 E2]. rewrite E1.
    apply negb_true_iff in E2. rewrite E2. cbn [negb orb andb].
    destruct (first_search true review_patterns (strip line)) as [[pattern m]|].
    + cbn [reviews]. unfold pending at 1. cbn [current_rating].
      pose proof (flush_length st). destruct (group_of 1 m); lia.
    + destruct (truthy (current_review st)); [unfold pending; cbn; lia|].
      destruct (_is_likely_review (strip line)); unfold pending; cbn; lia.
  - rewrite scan_line_insignificant by exact Es. cbn [andb]. lia.
Qed.

(** The segmenter emits at most one record for each line that carries a
    rating marker. *)
Theorem extract_reviews_at_most_markers (content : pystr) :
  (length (extract_reviews_from_content content source_url)
   <= length (List.filter is_marker_line (split_on 10 content)))%nat.
Proof.
  unfold extract_reviews_from_content, extract_reviews_from_lines.
  assert (Hinv : forall lines st,
            (length (reviews (foldl (scan_line source_url) st lines))
             + pending (foldl (scan_line source_url) st lines)
             <= length (reviews st) + pending st
                + length (List.filter is_marker_line lines))%nat).
  { induction lines as [|line rest IH]; intros st; [cbn; lia|].
    cbn [foldl List.filter]. specialize (IH (scan_line source_url st line)).
    pose proof (scan_line_count st line).
    destruct (is_marker_line line); cbn [length]; lia. }
  specialize (Hinv (split_on 10 content) initial).
  pose proof (flush_length (foldl (scan_line source_url) initial (split_on 10 content))).
  cbn in Hinv. lia.
Qed.
End Lines.

(** ** Pages without decimal digits *)

Section Captures.

(** The characters of a capture come from the text the pattern ran on. *)
Lemma sem_caps (ic : bool) (r : regex) (w rest : pystr) (g g' : caps) :
  sem ic r w rest g g' ->
  forall i t, (i, t) ∈ g' -> (i, t) ∈ g \/ forall c, c ∈ t -> c ∈ w ++ rest.
Proof.
  revert w rest g g'.
  induction r as [|c|r1 IH1 r2 IH2|r1 IH1 r2 IH2|r1 IH1|greedy lo hi c|j r1 IH1|r1 IH1|];
    intros w rest g g' H i t Hin; cbn [sem] in H.
  - destruct H as [_ ->]. now left.
  - destruct H as (x & _ & _ & ->). now left.
  - destruct H as (w1 & w2 & g1 & -> & H1 & H2).
    destruct (IH2 _ _ _ _ H2 i t Hin) as [Hg1|Hc].
    + destruct (IH1 _ _ _ _ H1 i t Hg1) as [Hg|Hc]; [now left|].
      right. intros c Hct. rewrite <- app_assoc. auto.
    + right. intros c Hct. rewrite <- app_assoc. apply elem_of_app. right. auto.
  - destruct H as [H|H]; eauto.
  - destruct H as [H|[_ ->]]; [eauto | now left].
  - destruct H as (_ & _ & _ & ->). now left.
  - destruct H as (g1 & H1 & ->).
    apply elem_of_cons in Hin as [[= -> ->]|Hin].
    + right. intros c Hc. apply elem_of_app. now left.
    + eauto.
  - destruct H as (-> & w' & rest' & -> & H1). cbn [app].
    eauto.
  - destruct H as (_ & _ & ->). now left.
Qed.

Lemma group_of_elem (i : nat) (g : caps) (t : pystr) :
  group_of i g = Some t -> (i, t) ∈ g.
Proof.
  induction g as [|[j s] g IH]; cbn [group_of]; [discriminate|].
  destruct (Nat.eqb_spec i j) as [->|Hne].
  - intros [= ->]. apply list_elem_of_here.
  - intros H. apply list_elem_of_further. auto.
Qed.

Lemma found_group_chars (ic : bool) (r : regex) (text : pystr) (g : caps)
    (i : nat) (t : pystr) :
  found ic r text g -> group_of i g = Some t -> forall c, c ∈ t -> c ∈ text.
Proof.
  intros (pre & w & rest & -> & H) Hg c Hc.
  apply group_of_elem in Hg.
  destruct (sem_caps _ _ _ _ _ _ H i t Hg) as [Hnil|Hin]; [inversion Hnil|].
  apply elem_of_app. right. auto.
Qed.

Lemma lstrip_chars (s : pystr) (c : N) : c ∈ lstrip s -> c ∈ s.
Proof.
  induction s as [|x s IH]; cbn [lstrip]; [auto|].
  destruct (isspace x); [|auto]. intros H. apply list_elem_of_further. auto.
Qed.

Lemma strip_chars (s : pystr) (c : N) : c ∈ strip s -> c ∈ s.
Proof.
  unfold strip, rstrip. intros H.
  rewrite elem_of_reverse in H. apply lstrip_chars in H.
  rewrite elem_of_reverse in H. now apply lstrip_chars in H.
Qed.

Lemma split_on_chars (sep : N) (s line : pystr) (c : N) :
  line ∈ split_on sep s -> c ∈ line -> c ∈ s.
Proof.
  revert line. induction s as [|x s IH]; intros line; cbn [split_on].
  - intros H Hc. apply list_elem_of_singleton in H. now subst.
  - destruct (x =? sep)%N.
    + intros [->|H]%elem_of_cons Hc; [inversion Hc|].
      apply list_elem_of_further. eauto.
    + destruct (split_on sep s) as [|w ws] eqn:E.
      * intros H Hc. apply list_elem_of_singleton in H. subst.
        apply list_elem_of_singleton in Hc. subst. apply list_elem_of_here.
      * intros [->|H]%elem_of_cons Hc.
        -- apply elem_of_cons in Hc as [->|Hc]; [apply list_elem_of_here|].
           apply list_elem_of_further. apply (IH w); [apply list_elem_of_here | exact Hc].
        -- apply list_elem_of_further. apply (IH line); [|exact Hc].
           now apply list_elem_of_further.
Qed.
End Captures.

Section NoDigits.
Variable source_url : pystr.

Lemma normalize_rating_no_digit (rating : pystr) :
  (forall c, c ∈ rating -> isdecimal c = false) -> _normalize_rating rating = None.
Proof.
  intros H. rewrite normalize_rating_unfold.
  apply first_numeric_token_None in H. now rewrite H.
Qed.

(** The loop keeps a rating token without digits and records without
    rating as long as the lines have no digit. *)
Lemma scan_line_no_digit (st : seg_state) (line : pystr) :
  (forall c, c ∈ line -> isdecimal c = false) ->
  (forall tok, current_rating st = Some tok ->
     forall c, c ∈ tok -> isdecimal c = false) ->
  Forall (fun r => r !! "rating"%string = Some VNone) (reviews st) ->
  (forall tok, current_rating (scan_line source_url st line) = Some tok ->
     forall c, c ∈ tok -> isdecimal c = false) /\
  Forall (fun r => r !! "rating"%string = Some VNone)
    (reviews (scan_line source_url st line)) /\
  Forall (fun r => r !! "rating"%string = Some VNone) (flush source_url st).
Proof.
  intros Hline Htok Hrev.
  assert (Hflush : Forall (fun r => r !! "rating"%string = Some VNone)
                     (flush source_url st)).
  { unfold flush. destruct (current_rating st) as [rating|] eqn:Er; [|exact Hrev].
    destruct (truthy (current_review st) && truthy rating); [|exact Hrev].
    apply Forall_app. split; [exact Hrev|]. constructor; [|constructor].
    unfold make_review.
    rewrite lookup_insert_ne, lookup_insert_eq by discriminate.
    now rewrite (normalize_rating_no_digit rating (Htok rating eq_refl)). }
  split; [|split; [|exact Hflush]]; unfold scan_line;
    destruct (negb (truthy (strip line)) || (length (strip line) <? 10)%nat);
    auto;
    destruct (first_search true review_patterns (strip line)) as [[pattern m]|] eqn:E.
  - cbn [current_rating]. intros tok Hg c Hc.
    apply first_search_sound in E as [_ Hf].
    apply Hline, strip_chars. exact (found_group_chars _ _ _ _ _ _ Hf Hg c Hc).
  - destruct (truthy (current_review st)); [exact Htok|].
    destruct (_is_likely_review (strip line)); exact Htok.
  - exact Hflush.
  - destruct (truthy (current_review st)); [exact Hrev|].
    destruct (_is_likely_review (strip line)); exact Hrev.
Qed.

(** On a page without any decimal digit, of whatever script, every
    emitted record has no rating: the number of star glyphs of a marker is
    never read as a rating. *)
Theorem extract_reviews_no_digit (content : pystr) (review : gmap string pyval) :
  (forall c, c ∈ content -> isdecimal c = false) ->
  review ∈ extract_reviews_from_content content source_url ->
  review !! "rating"%string = Some VNone.
Proof.
  intros Hno Hr. unfold extract_reviews_from_content, extract_reviews_from_lines in Hr.
  assert (Hinv : forall lines st,
            (forall line c, line ∈ lines -> c ∈ line -> isdecimal c = false) ->
            (forall tok, current_rating st = Some tok ->
               forall c, c ∈ tok -> isdecimal c = false) ->
            Forall (fun r => r !! "rating"%string = Some VNone) (reviews st) ->
            Forall (fun r => r !! "rating"%string = Some VNone)
              (flush source_url (foldl (scan_line source_url) st lines))).
  { induction lines as [|line rest IH]; intros st Hl Htok Hrev.
    - cbn [foldl].
      destruct (scan_line_no_digit st [] (fun c H => match not_elem_of_nil c H with end)
                  Htok Hrev) as (_ & _ & H). exact H.
    - cbn [foldl].
      destruct (scan_line_no_digit st line
                  (fun c => Hl line c (list_elem_of_here _ _)) Htok Hrev)
        as (H1 & H2 & _).
      apply IH; auto. intros l c Hin. apply Hl. now apply list_elem_of_further. }
  assert (HF : Forall (fun r => r !! "rating"%string = Some VNone)
                 (flush source_url
                    (foldl (scan_line source_url) initial (split_on 10 content)))).
  { apply Hinv.
    - intros line c Hl Hc. apply Hno. exact (split_on_chars _ _ _ _ Hl Hc).
    - discriminate.
    - constructor. }
  rewrite Forall_forall in HF. now apply HF.
Qed.
End NoDigits.

Lemma glyph_page_record (source_url : pystr) :
  extract_reviews_from_content glyph_page source_url = [glyph_record source_url].
Proof. vm_compute. reflexivity. Qed.

Lemma extract_reviews_no_digit_witness :
  glyph_record (py "https://shop.example/item") !! "rating"%string = Some VNone.
Proof.
  apply (extract_reviews_no_digit (py "https://shop.example/item") glyph_page).
  - apply Forall_forall, (bool_decide_unpack _). vm_compute. exact I.
  - rewrite glyph_page_record. apply list_elem_of_here.
Defined.

(** ** Rounding to a double *)

Section Doubles.
Local Open Scope Q_scope.

(** Rounding to an integer does not cross an integer. *)
Lemma round_half_even_ge (a : Z) (x : Q) :
  inject_Z a <= x -> (a <= round_half_even x)%Z.
Proof.
  intros Ha.
  assert (Hfa : (a <= Qfloor x)%Z).
  { rewrite <- (Qfloor_Z a). now apply Qfloor_resp_le. }
  unfold round_half_even.
  destruct (Qltb (x - inject_Z (Qfloor x)) (1 # 2)); [lia|].
  destruct (Qltb (1 # 2) (x - inject_Z (Qfloor x))); [lia|].
  destruct (Z.even (Qfloor x)); lia.
Qed.

Lemma round_half_even_le (b : Z) (x : Q) :
  x <= inject_Z b -> (round_half_even x <= b)%Z.
Proof.
  intros Hb.
  assert (Hfb : (Qfloor x <= b)%Z).
  { rewrite <- (Qfloor_Z b). now apply Qfloor_resp_le. }
  assert (Hup : inject_Z (Qfloor x) < x -> (Qfloor x + 1 <= b)%Z).
  { intros Hlt. assert (H : inject_Z (Qfloor x) < inject_Z b) by lra.
    rewrite <- Zlt_Qlt in H. lia. }
  unfold round_half_even.
  destruct (Qltb (x - inject_Z (Qfloor x)) (1 # 2)) eqn:E1; [lia|].
  apply Qltb_ge in E1.
  assert (Hlt : inject_Z (Qfloor x) < x) by lra.
  specialize (Hup Hlt).
  destruct (Qltb (1 # 2) (x - inject_Z (Qfloor x))); [lia|].
  destruct (Z.even (Qfloor x)); lia.
Qed.

Lemma round_half_even_between (a b : Z) (x : Q) :
  inject_Z a <= x -> x <= inject_Z b ->
  (a <= round_half_even x)%Z /\ (round_half_even x <= b)%Z.
Proof.
  intros Ha Hb. split; [now apply round_half_even_ge | now apply round_half_even_le].
Qed.

Lemma pow2_pos (k : Z) : 0 < 2 ^ k.
Proof. apply Qpower_0_lt. reflexivity. Qed.

Lemma pow2_int (k : Z) : (0 <= k)%Z -> 2 ^ k == inject_Z (2 ^ k).
Proof. intros Hk. now rewrite Zpower_Qpower. Qed.

(** A power of two below 1 is the inverse of an integer. *)
Lemma pow2_inv (k : Z) : (k <= 0)%Z -> 2 ^ k * inject_Z (2 ^ (- k)) == 1.
Proof.
  intros Hk. rewrite <- pow2_int by lia.
  rewrite <- Qpower_plus by discriminate.
  now replace (k + - k)%Z with 0%Z by lia.
Qed.

(** The exponent [ilog2] finds is not too large. *)
Lemma ilog2_le (q : Q) : 0 < q -> 2 ^ ilog2 q <= q.
Proof.
  intros Hq. unfold ilog2.
  set (a := Z.log2 (Qnum q)). set (b := Z.log2 (Zpos (Qden q))).
  destruct (Qle_bool (2 ^ (a - b)) q) eqn:E; [now apply Qle_bool_iff|].
  assert (Hn : (0 < Qnum q)%Z).
  { unfold Qlt in Hq. cbn [Qnum Qden] in Hq. lia. }
  destruct (Z.log2_spec (Qnum q) Hn) as [Ha _].
  destruct (Z.log2_spec (Zpos (Qden q)) ltac:(lia)) as [_ Hb].
  fold a in Ha. fold b in Hb.
  assert (Ha0 : (0 <= a)%Z) by apply Z.log2_nonneg.
  assert (Hb0 : (0 <= b)%Z) by apply Z.log2_nonneg.
  replace (a - b - 1)%Z with (a - Z.succ b)%Z by lia.
  rewrite Qpower_minus by discriminate.
  rewrite (pow2_int a), (pow2_int (Z.succ b)) by lia.
  assert (HA : (0 < 2 ^ a)%Z) by (apply Z.pow_pos_nonneg; lia).
  assert (HB : (0 < 2 ^ Z.succ b)%Z) by (apply Z.pow_pos_nonneg; lia).
  apply Qle_shift_div_r.
  - change 0 with (inject_Z 0). rewrite <- Zlt_Qlt. exact HB.
  - destruct q as [n d]. unfold Qle. cbn [Qnum Qden Qmult inject_Z] in *.
    nia.
Qed.

Lemma ilog2_small (q : Q) (k : Z) :
  0 < q -> (0 <= k)%Z -> q <= 2 ^ k -> (ilog2 q <= k)%Z.
Proof.
  intros Hq Hk Hle. apply (Qpower_le_compat_l_inv 2); [|reflexivity].
  pose proof (ilog2_le q Hq). lra.
Qed.

(** A double a small integer bounds from above is bounded by it. *)
Lemma round_double_le (k : Z) (q : Q) :
  (1 <= k <= 8)%Z -> q <= inject_Z k ->
  exists r, round_double q = Finite r /\ 0 <= r /\ r <= inject_Z k.
Proof.
  intros Hk Hq.
  assert (Hk0 : 0 <= inject_Z k).
  { change 0 with (inject_Z 0). rewrite <- Zle_Qle. lia. }
  unfold round_double. destruct (Qle_bool q 0) eqn:E0.
  { exists 0. split; [reflexivity|]. split; [lra | exact Hk0]. }
  assert (Hpos : 0 < q).
  { apply Qnot_le_lt. intros H. apply Qle_bool_iff in H. congruence. }
  set (e := Z.max (ilog2 q) (-1022)).
  assert (He : (e <= 3)%Z).
  { assert (ilog2 q <= 3)%Z; [|unfold e; lia].
    apply ilog2_small; [exact Hpos | lia |].
    assert (inject_Z k <= inject_Z 8) by (rewrite <- Zle_Qle; lia).
    change (2 ^ 3) with (inject_Z 8). lra. }
  set (ulp := 2 ^ (e - 52)).
  assert (Hulp : 0 < ulp) by apply pow2_pos.
  set (P := (2 ^ (- (e - 52)))%Z).
  assert (HP : ulp * inject_Z P == 1) by (apply pow2_inv; lia).
  assert (Hdiv : forall x, x / ulp == x * inject_Z P).
  { intros x. apply Qmult_inj_r with ulp; [lra|].
    rewrite Qmult_comm, Qmult_div_r by lra.
    rewrite <- Qmult_assoc, (Qmult_comm (inject_Z P)), HP. lra. }
  assert (HP0 : 0 <= inject_Z P).
  { change 0 with (inject_Z 0). rewrite <- Zle_Qle. unfold P.
    apply Z.pow_nonneg. lia. }
  destruct (round_half_even_between 0 (k * P) (q / ulp)) as [Hm0 Hm1].
  { rewrite Hdiv. change (inject_Z 0) with 0.
    apply Qmult_le_0_compat; lra. }
  { rewrite Hdiv, inject_Z_mult. apply Qmult_le_compat_r; assumption. }
  set (m := round_half_even (q / ulp)) in *.
  assert (Hr0 : 0 <= inject_Z m * ulp).
  { apply Qmult_le_0_compat; [|lra].
    change 0 with (inject_Z 0). now rewrite <- Zle_Qle. }
  assert (Hr1 : inject_Z m * ulp <= inject_Z k).
  { rewrite Zle_Qle, inject_Z_mult in Hm1.
    apply Qmult_le_compat_r with (z := ulp) in Hm1; [|lra].
    rewrite <- Qmult_assoc, (Qmult_comm (inject_Z P)), HP, Qmult_1_r in Hm1.
    exact Hm1. }
  destruct (Qle_bool (2 ^ 1024) (inject_Z m * ulp)) eqn:Eo.
  { exfalso. apply Qle_bool_iff in Eo.
    assert (H8 : inject_Z k <= inject_Z 8) by (rewrite <- Zle_Qle; lia).
    assert (Hbig : 2 ^ 3 < 2 ^ 1024)
      by (apply Qpower_lt_compat_l; [lia | reflexivity]).
    change (2 ^ 3) with (inject_Z 8) in Hbig. lra. }
  exists (Qred (inject_Z m * ulp)). split; [reflexivity|].
  rewrite Qred_correct. auto.
Qed.

(** A double a small integer bounds from below is bounded by it. *)
Lemma round_double_ge (k : Z) (q : Q) :
  (1 <= k <= 8)%Z -> inject_Z k <= q ->
  match round_double q with
  | Finite r => inject_Z k <= r
  | Inf => True
  end.
Proof.
  intros Hk Hq.
  assert (Hk1 : 1 <= inject_Z k).
  { change 1 with (inject_Z 1). rewrite <- Zle_Qle. lia. }
  assert (Hpos : 0 < q) by lra.
  unfold round_double. destruct (Qle_bool q 0) eqn:E0.
  { apply Qle_bool_iff in E0. lra. }
  set (e := Z.max (ilog2 q) (-1022)).
  set (ulp := 2 ^ (e - 52)).
  assert (Hulp : 0 < ulp) by apply pow2_pos.
  set (m := round_half_even (q / ulp)).
  destruct (Qle_bool (2 ^ 1024) (inject_Z m * ulp)); [exact I|].
  rewrite Qred_correct.
  destruct (Z_le_gt_dec e 52) as [He|He].
  - set (P := (2 ^ (- (e - 52)))%Z).
    assert (HP : ulp * inject_Z P == 1) by (apply pow2_inv; lia).
    assert (Hdiv : forall x, x / ulp == x * inject_Z P).
    { intros x. apply Qmult_inj_r with ulp; [lra|].
      rewrite Qmult_comm, Qmult_div_r by lra.
      rewrite <- Qmult_assoc, (Qmult_comm (inject_Z P)), HP. lra. }
    assert (HP0 : 0 <= inject_Z P).
    { change 0 with (inject_Z 0). rewrite <- Zle_Qle. unfold P.
      apply Z.pow_nonneg. lia. }
    assert (Hm : (k * P <= m)%Z).
    { apply round_half_even_ge. rewrite Hdiv, inject_Z_mult.
      apply Qmult_le_compat_r; assumption. }
    rewrite Zle_Qle, inject_Z_mult in Hm.
    apply Qmult_le_compat_r with (z := ulp) in Hm; [|lra].
    rewrite <- Qmult_assoc, (Qmult_comm (inject_Z P)), HP, Qmult_1_r in Hm.
    exact Hm.
  - assert (Ee : e = ilog2 q) by (unfold e in *; lia).
    pose proof (ilog2_le q Hpos) as Hlo. rewrite <- Ee in Hlo.
    assert (Hsplit : 2 ^ e == inject_Z (2 ^ 52) * ulp).
    { rewrite <- pow2_int by lia. unfold ulp.
      rewrite <- Qpower_plus by discriminate.
      now replace (52 + (e - 52))%Z with e by lia. }
    assert (Hm : (2 ^ 52 <= m)%Z).
    { apply round_half_even_ge. apply Qle_shift_div_l; [exact Hulp|].
      now rewrite <- Hsplit. }
    rewrite Zle_Qle in Hm.
    apply Qmult_le_compat_r with (z := ulp) in Hm; [|lra].
    rewrite <- Hsplit in Hm.
    assert (H53 : 2 ^ 3 <= 2 ^ e)
      by (apply Qpower_le_compat_l; [lia | discriminate]).
    change (2 ^ 3) with (inject_Z 8) in H53.
    assert (H8 : inject_Z k <= inject_Z 8) by (rewrite <- Zle_Qle; lia).
    lra.
Qed.
End Doubles.

(** ** The scale of the normaliser *)

Section Scale.
Local Open Scope Q_scope.

Lemma clamp_inside (q : Q) : 1 <= q -> q <= 5 -> clamp (Finite q) == q.
Proof.
  intros H1 H5. cbn [clamp].
  destruct (Qlt_le_dec q 1); [lra|]. destruct (Qlt_le_dec 5 q); lra.
Qed.

Lemma clamp_low (x : pyfloat) (q : Q) :
  x = Finite q -> q <= 1 -> clamp x == 1.
Proof.
  intros -> H. cbn [clamp].
  destruct (Qlt_le_dec q 1); [lra|]. destruct (Qlt_le_dec 5 q); lra.
Qed.

Lemma clamp_high (x : pyfloat) :
  match x with Finite q => 5 <= q | Inf => True end -> clamp x == 5.
Proof.
  destruct x as [q|]; [|reflexivity]. intros H. cbn [clamp].
  destruct (Qlt_le_dec q 1); [lra|]. destruct (Qlt_le_dec 5 q); lra.
Qed.

(** A quotient or product that lies between 1 and 5 is rounded to a
    double that lies between 1 and 5, and is what the normaliser
    returns. *)
Lemma clamp_round (x : Q) :
  1 <= x -> x <= 5 ->
  exists q, round_double x = Finite q /\ clamp (round_double x) == q.
Proof.
  intros H1 H5.
  destruct (round_double_le 5 x ltac:(lia) H5) as (q & E & _ & Hq5).
  pose proof (round_double_ge 1 x ltac:(lia) H1) as Hq1. rewrite E in Hq1.
  exists q. split; [exact E|]. rewrite E. now apply clamp_inside.
Qed.

(** The normaliser in closed form, by the value [v] of the first numeric
    token read as a float: above 100, and at [inf], it gives 5; from 20 to
    100 it gives the double nearest to [v / 20]; between 5 and 20 it gives
    1; above 1 and up to 5 it gives [v]; from 0.2 to 1 it gives the double
    nearest to [5 v]; and below 0.2 it gives 1.  So a token of value 1
    yields 5, and a token of value 10 yields 1. *)
Theorem normalize_rating_scale (rating token : pystr) (v : pyfloat) :
  first_numeric_token rating = Some token -> py_float token = Some v ->
  exists r,
    _normalize_rating rating = Some r /\
    match v with
    | Inf => r == 5
    | Finite v =>
        (100 < v -> r == 5) /\
        (20 <= v /\ v <= 100 ->
         exists q, round_double (v / 20) = Finite q /\ r == q) /\
        (5 < v /\ v < 20 -> r == 1) /\
        (1 < v /\ v <= 5 -> r == v) /\
        ((1 # 5) <= v /\ v <= 1 ->
         exists q, round_double (v * 5) = Finite q /\ r == q) /\
        (v < (1 # 5) -> r == 1)
    end.
Proof.
  intros Ht Hv. rewrite normalize_rating_unfold, Ht, Hv.
  eexists. split; [reflexivity|].
  pose proof (py_max_min_clamp (rescale v)) as Hr.
  set (r := py_max 1 (py_min_float 5 (rescale v))) in *.
  destruct v as [v|]; [|exact Hr].
  assert (Hscale : forall x : Q, x / 20 == x * (1 # 20)) by (intros; field).
  cbn [rescale] in Hr.
  split; [|split; [|split; [|split; [|split]]]]; intros H.
  - rewrite Hr. destruct (Qlt_le_dec 5 v) as [H5|H5]; [|lra]. apply clamp_high.
    apply (round_double_ge 5); [lia|]. rewrite Hscale.
    change (inject_Z 5) with 5. lra.
  - destruct (Qlt_le_dec 5 v) as [H5|H5]; [|lra].
    destruct (clamp_round (v / 20)) as (q & E & Hc); [rewrite Hscale; lra..|].
    exists q. split; [exact E|]. now rewrite Hr.
  - rewrite Hr. destruct (Qlt_le_dec 5 v) as [H5|H5]; [|lra].
    destruct (round_double_le 1 (v / 20)) as (q & E & _ & Hq); [lia | |].
    { rewrite Hscale. change (inject_Z 1) with 1. lra. }
    exact (clamp_low _ q E Hq).
  - rewrite Hr. destruct (Qlt_le_dec 5 v) as [H5|H5]; [lra|].
    destruct (Qlt_le_dec 1 v) as [H1|H1]; [|lra]. apply clamp_inside; lra.
  - destruct (Qlt_le_dec 5 v) as [H5|H5]; [lra|]. destruct (Qlt_le_dec 1 v) as [H1|H1]; [lra|].
    destruct (clamp_round (v * 5)) as (q & E & Hc); [lra..|].
    exists q. split; [exact E|]. now rewrite Hr.
  - rewrite Hr. destruct (Qlt_le_dec 5 v) as [H5|H5]; [lra|].
    destruct (Qlt_le_dec 1 v) as [H1|H1]; [lra|].
    destruct (round_double_le 1 (v * 5)) as (q & E & _ & Hq); [lia | |].
    { change (inject_Z 1) with 1. lra. }
    exact (clamp_low _ q E Hq).
Qed.
End Scale.

Lemma normalize_rating_scale_witness :
  (exists r, _normalize_rating (py "1 star") = Some r /\ r == 5)%Q /\
  (exists r, _normalize_rating (py "10/10") = Some r /\ r == 1)%Q.
Proof.
  split.
  - destruct (normalize_rating_scale (py "1 star") (py "1") (Finite 1)
                ltac:(vm_compute; reflexivity) ltac:(vm_compute; reflexivity))
      as (r & Hr & _ & _ & _ & _ & H & _).
    exists r. split; [exact Hr|].
    destruct H as (q & Hq & ->); [split; [unfold Qle; cbn; lia | apply Qle_refl]|].
    vm_compute in Hq. injection Hq as <-. reflexivity.
  - destruct (normalize_rating_scale (py "10/10") (py "10") (Finite 10)
                ltac:(vm_compute; reflexivity) ltac:(vm_compute; reflexivity))
      as (r & Hr & _ & _ & H & _).
    exists r. split; [exact Hr|]. apply H. split; reflexivity.
Defined.

(** ** The two field extractors on any text *)

Section Extractors.

Lemma digit_run_has_digit (lo hi : nat) (w : pystr) :
  (0 < lo)%nat -> digit_run lo hi w -> exists c, c ∈ w /\ isdecimal c = true.
Proof.
  intros Hlo [Hw Hlen]. destruct w as [|c w]; [cbn in Hlen; lia|].
  exists c. split; [apply list_elem_of_here|]. now apply Forall_cons in Hw as [Hc _].
Qed.

Lemma found_date_digit (pattern : regex) (text : pystr) (g : caps) :
  pattern ∈ date_patterns -> found true pattern text g ->
  exists c, c ∈ text /\ isdecimal c = true.
Proof.
  unfold date_patterns. intros Hp (pre & w & rest & -> & H).
  assert (Hw : (exists a b, w = a ++ b /\ digit_run 1 2 a) \/
               (exists m s a b, w = m ++ s ++ a ++ b /\ digit_run 1 2 a)).
  { apply elem_of_cons in Hp as [->|Hp]; [|apply elem_of_cons in Hp as [->|Hp];
      [|apply elem_of_cons in Hp as [->|Hp];
        [|apply list_elem_of_singleton in Hp; subst pattern]]];
      cbn [rseq foldr] in H; unfold between in H; cbn [sem] in H.
    - destruct H as (g0 & (w1 & x1 & g1 & -> & Ha & _) & _).
      apply (sem_digit_run true true 1 2 w1 []) in Ha as [Ha _].
      left. eauto.
    - destruct H as (g0 & (w1 & x1 & g1 & -> & Ha & _) & _).
      apply (sem_digit_run true true 1 2 w1 []) in Ha as [Ha _].
      left. eauto.
    - destruct H as (w1 & x1 & g1 & -> & _ & w2 & x2 & g2 & -> & _ &
                     w3 & x3 & g3 & -> & Ha & _).
      apply (sem_digit_run true true 1 2 w3 []) in Ha as [Ha _].
      right. exists w1, w2, w3, x3. auto.
    - destruct H as (g0 & (w1 & x1 & g1 & -> & Ha & _) & _).
      apply (sem_digit_run true true 1 2 w1 []) in Ha as [Ha _].
      left. eauto. }
  destruct Hw as [(a & b & [-> Ha])|(m & s & a & b & -> & Ha)];
    destruct (digit_run_has_digit 1 2 a ltac:(lia) Ha) as (c & Hc & Hd);
    exists c; (split; [|exact Hd]); rewrite !elem_of_app; tauto.
Qed.

(** A name the reviewer-name extractor returns is two capitalised words
    taken from the text, and a text without an upper-case letter has no
    name. *)
Theorem extract_reviewer_name_spec (review_text : pystr) :
  (forall name,
     _extract_reviewer_name review_text = Some name ->
     two_capitalised name /\ infix_of name review_text) /\
  ((forall c, c ∈ review_text -> is_upper c = false) ->
   _extract_reviewer_name review_text = None).
Proof.
  split; [intros name; apply reviewer_name_found|].
  intros Hno. destruct (_extract_reviewer_name review_text) as [name|] eqn:E;
    [|reflexivity].
  exfalso. apply reviewer_name_found in E as [(w1 & sp & w2 & -> & Hc & _) Hi].
  destruct Hc as (u & l & -> & Hu & _). destruct Hi as (pre & post & ->).
  rewrite Hno in Hu; [discriminate|].
  rewrite !elem_of_app. right. left. left. apply list_elem_of_here.
Qed.

(** A date the date extractor returns is taken from the text and is a
    numeric date, the name of a month alone, or a day, a month and a year,
    written with the decimal digits of any script and the month in any
    mix of cases; a text without a decimal digit has no date. *)
Theorem extract_review_date_spec (review_text : pystr) :
  (forall d,
     _extract_review_date review_text = Some d ->
     date_shaped d /\ infix_of d review_text) /\
  ((forall c, c ∈ review_text -> isdecimal c = false) ->
   _extract_review_date review_text = None).
Proof.
  split.
  - intros d H. apply review_date_found in H as [Hi Hd]. auto.
  - intros Hno. unfold _extract_review_date.
    destruct (first_search true date_patterns review_text) as [[pattern g]|] eqn:E;
      [|reflexivity].
    exfalso. apply first_search_sound in E as [Hp Hf].
    destruct (found_date_digit _ _ _ Hp Hf) as (c & Hc & Hd).
    rewrite Hno in Hd; [discriminate | exact Hc].
Qed.
End Extractors.

Lemma extract_reviewer_name_spec_witness :
  (two_capitalised (py "Jane Doe") /\
   infix_of (py "Jane Doe") (py "Works well - Jane Doe, March 12, 2024")) /\
  _extract_reviewer_name (py "works well, says jane doe") = None.
Proof.
  split.
  - apply (proj1 (extract_reviewer_name_spec
                    (py "Works well - Jane Doe, March 12, 2024"))).
    vm_compute. reflexivity.
  - apply (proj2 (extract_reviewer_name_spec (py "works well, says jane doe"))).
    apply Forall_forall, (bool_decide_unpack _). vm_compute. exact I.
Defined.

Lemma extract_review_date_spec_witness :
  (date_shaped (py "March") /\
   infix_of (py "March") (py "Works well - Jane Doe, March 12, 2024")) /\
  _extract_review_date (py "bought it in March") = None.
Proof.
  split.
  - apply (proj1 (extract_review_date_spec
                    (py "Works well - Jane Doe, March 12, 2024"))).
    vm_compute. reflexivity.
  - apply (proj2 (extract_review_date_spec (py "bought it in March"))).
    apply Forall_forall, (bool_decide_unpack _). vm_compute. exact I.
Defined.

(** Digits of other scripts, letters that only [re.IGNORECASE] takes for
    ASCII ones, and tokens no double holds are read as Python reads
    them. *)
Lemma other_scripts_and_long_tokens :
  _extract_review_date
    [1633; 1634; 47; 1632; 1635; 47; 1634; 1632; 1634; 1636]
  = Some [1633; 1634; 47; 1632; 1635; 47; 1634; 1632; 1634; 1636] /\
  _extract_review_date (py "Augu" ++ [383] ++ py "t 12, 2024")
  = Some (py "Augu" ++ [383] ++ py "t") /\
  (exists r, _normalize_rating [65301] = Some r /\ (r == 5)%Q) /\
  (exists r, _normalize_rating (py "5.0000000000000000001") = Some r /\
             (r == 5)%Q) /\
  (exists r, _normalize_rating (py "1.00000000000000000001") = Some r /\
             (r == 5)%Q).
Proof.
  split; [vm_compute; reflexivity|]. split; [vm_compute; reflexivity|].
  repeat split; eexists; (split; [vm_compute; reflexivity | reflexivity]).
Qed.


(** ** What comes before the first marker *)

Section Preamble.
Variable source_url : pystr.

Lemma split_on_nonempty (sep : N) (s : pystr) : split_on sep s <> [].
Proof.
  destruct s as [|c s]; cbn [split_on]; [discriminate|].
  destruct (c =? sep)%N; [discriminate|].
  destruct (split_on sep s); discriminate.
Qed.

Lemma split_on_app (sep : N) (a b : pystr) :
  split_on sep (a ++ sep :: b) = split_on sep a ++ split_on sep b.
Proof.
  induction a as [|c a IH]; cbn [app split_on].
  - now rewrite N.eqb_refl.
  - destruct (c =? sep)%N; [now rewrite IH|].
    rewrite IH. pose proof (split_on_nonempty sep a).
    destruct (split_on sep a); [contradiction | reflexivity].
Qed.

(** No record has been emitted and no rating token is waiting. *)
Lemma scan_line_blank (st : seg_state) (line : pystr) :
  is_marker_line line = false ->
  reviews st = [] /\ current_rating st = None ->
  reviews (scan_line source_url st line) = [] /\
  current_rating (scan_line source_url st line) = None.
Proof.
  intros Hm Hst. destruct (significant line) eqn:Es;
    [|now rewrite scan_line_insignificant].
  unfold is_marker_line in Hm. rewrite Es in Hm. cbn [andb] in Hm.
  unfold scan_line. unfold significant in Es.
  apply andb_true_iff in Es as [E1 E2]. rewrite E1.
  apply negb_true_iff in E2. rewrite E2. cbn [negb orb].
  destruct (first_search true review_patterns (strip line)); [discriminate|].
  destruct (truthy (current_review st)); [exact Hst|].
  destruct (_is_likely_review (strip line)); exact Hst.
Qed.

Lemma scan_lines_blank (lines : list pystr) (st : seg_state) :
  (forall line, line ∈ lines -> is_marker_line line = false) ->
  reviews st = [] /\ current_rating st = None ->
  reviews (foldl (scan_line source_url) st lines) = [] /\
  current_rating (foldl (scan_line source_url) st lines) = None.
Proof.
  revert st. induction lines as [|line rest IH]; intros st Hl Hst; [exact Hst|].
  cbn [foldl]. apply IH.
  - intros x Hx. now apply Hl, list_elem_of_further.
  - apply scan_line_blank; [apply Hl, list_elem_of_here | exact Hst].
Qed.

(** From two states without a record and without a waiting rating token
    the loop emits the same records: the text gathered so far is lost at
    the next marker, or at the end of the page. *)
Lemma scan_lines_forget (lines : list pystr) (st1 st2 : seg_state) :
  reviews st1 = [] /\ current_rating st1 = None ->
  reviews st2 = [] /\ current_rating st2 = None ->
  flush source_url (foldl (scan_line source_url) st1 lines)
  = flush source_url (foldl (scan_line source_url) st2 lines).
Proof.
  revert st1 st2. induction lines as [|line rest IH]; intros st1 st2 H1 H2.
  - cbn [foldl]. unfold flush. destruct H1 as [R1 C1], H2 as [R2 C2].
    now rewrite C1, C2, R1, R2.
  - cbn [foldl]. destruct (is_marker_line line) eqn:Em.
    + assert (E : scan_line source_url st1 line = scan_line source_url st2 line);
        [|now rewrite E].
      unfold is_marker_line in Em. apply andb_true_iff in Em as [Es Em].
      unfold scan_line. unfold significant in Es.
      apply andb_true_iff in Es as [E1 E2]. rewrite E1.
      apply negb_true_iff in E2. rewrite E2. cbn [negb orb].
      destruct (first_search true review_patterns (strip line)) as [[pattern m]|];
        [|discriminate].
      f_equal. unfold flush. destruct H1 as [R1 C1], H2 as [R2 C2].
      now rewrite C1, C2, R1, R2.
    + apply IH; now apply scan_line_blank.
Qed.

(** Whatever precedes the first line with a rating marker is discarded:
    lines without a marker at the head of a page do not change what the
    segmenter emits for the rest of the page. *)
Theorem extract_reviews_preamble (preamble rest : pystr) :
  (forall line, line ∈ split_on 10 preamble -> is_marker_line line = false) ->
  extract_reviews_from_content (preamble ++ 10 :: rest) source_url
  = extract_reviews_from_content rest source_url.
Proof.
  intros Hno. unfold extract_reviews_from_content, extract_reviews_from_lines.
  rewrite split_on_app, foldl_app.
  apply scan_lines_forget; [|split; reflexivity].
  apply scan_lines_blank; [exact Hno | split; reflexivity].
Qed.
End Preamble.

Lemma extract_reviews_preamble_witness :
  extract_reviews_from_content
    (py "Great product, love it, would recommend" ++ 10 :: py "2 stars Broke within a week")
    (py "https://shop.example/item")
  = extract_reviews_from_content (py "2 stars Broke within a week")
      (py "https://shop.example/item").
Proof.
  apply (extract_reviews_preamble (py "https://shop.example/item")
           (py "Great product, love it, would recommend")
           (py "2 stars Broke within a week")).
  apply Forall_forall, (bool_decide_unpack _). vm_compute. exact I.
Defined.

(** ** Where the records of [get_product_reviews] come from *)

Section Scraped.
Variable search_reviews : pystr -> nat -> list pystr.
Variable scrape_reviews : pystr -> option pystr.

Lemma scrape_page_source (url : pystr) (review : gmap string pyval) :
  review ∈ scrape_page scrape_reviews url ->
  exists content,
    scrape_reviews url = Some content /\
    review ∈ extract_reviews_from_content content url.
Proof.
  unfold scrape_page. destruct (scrape_reviews url) as [content|];
    [|intros H; inversion H].
  intros H. exists content. auto.
Qed.

Lemma deduplicate_kept (all_reviews unique_reviews : list (gmap string pyval))
    (review : gmap string pyval) :
  deduplicate all_reviews = Ok unique_reviews -> review ∈ unique_reviews ->
  review ∈ all_reviews /\
  exists t, trimmed_text review = Ok t /\ (20 < length t)%nat.
Proof.
  intros H Hr.
  apply dedup_loop_kept in H as (kept & keys & -> & HF & _ & _ & Hl & _).
  cbn [app] in Hr. split; [exact (elem_of_sublist _ _ _ Hr Hl)|].
  apply list_elem_of_lookup in Hr as [i Hi].
  destruct (Forall2_lookup_l _ _ _ _ _ HF Hi) as (k & _ & t & Ht & Hlen & _).
  eauto.
Qed.

Lemma scraped_record (product_url : pystr) (max_pages : nat)
    (unique_reviews : list (gmap string pyval)) (review : gmap string pyval) :
  get_product_reviews search_reviews scrape_reviews product_url max_pages
    = Ok unique_reviews ->
  review ∈ unique_reviews ->
  exists url content t,
    (search_reviews product_url max_pages = [] /\ url = product_url \/
     url ∈ take max_pages (search_reviews product_url max_pages)) /\
    scrape_reviews url = Some content /\
    review ∈ extract_reviews_from_content content url /\
    review !! "review_text"%string = Some (VStr t) /\ strip t = t /\
    (20 < length t)%nat.
Proof.
  unfold get_product_reviews. intros H Hr.
  destruct (deduplicate_kept _ _ _ H Hr) as (Hall & t & Ht & Hlen).
  assert (Hsrc : exists url,
            (search_reviews product_url max_pages = [] /\ url = product_url \/
             url ∈ take max_pages (search_reviews product_url max_pages)) /\
            review ∈ scrape_page scrape_reviews url).
  { destruct (search_reviews product_url max_pages) as [|u us].
    - exists product_url. auto.
    - apply list_elem_of_bind in Hall as (url & Hp & Hu). exists url. auto. }
  destruct Hsrc as (url & Hurl & Hp).
  apply scrape_page_source in Hp as (content & Hc & He).
  pose proof (extract_reviews_invariant url content) as HF.
  rewrite Forall_forall in HF.
  destruct (HF review He) as (_ & (t' & Ht' & Hs) & _).
  exists url, content, t'. repeat split; auto.
  unfold trimmed_text, py_get in Ht. rewrite Ht' in Ht.
  cbn [default from_option id py_strip] in Ht. rewrite Hs in Ht.
  now injection Ht as ->.
Qed.

(** Every record [get_product_reviews] returns was extracted from a page
    that was scraped with success, the product page when the search found
    nothing and one of the first [max_pages] results of the search
    otherwise, and its text is a trimmed string of more than twenty
    characters. *)
Theorem get_product_reviews_records (product_url : pystr) (max_pages : nat)
    (unique_reviews : list (gmap string pyval)) (review : gmap string pyval) :
  get_product_reviews search_reviews scrape_reviews product_url max_pages
    = Ok unique_reviews ->
  review ∈ unique_reviews ->
  exists url content t,
    (search_reviews product_url max_pages = [] /\ url = product_url \/
     url ∈ take max_pages (search_reviews product_url max_pages)) /\
    scrape_reviews url = Some content /\
    review ∈ extract_reviews_from_content content url /\
    review !! "review_text"%string = Some (VStr t) /\ strip t = t /\
    (20 < length t)%nat.
Proof. apply scraped_record. Qed.
End Scraped.

Lemma get_product_reviews_records_witness :
  exists url content t,
    (@nil pystr = [] /\ url = py "https://shop.example/item" \/
     url ∈ take 5 (@nil pystr)) /\
    Some glowing_page = Some content /\
    glowing_record (py "https://shop.example/item")
      ∈ extract_reviews_from_content content url /\
    glowing_record (py "https://shop.example/item") !! "review_text"%string
      = Some (VStr t) /\ strip t = t /\
    (20 < length t)%nat.
Proof.
  apply (get_product_reviews_records (fun _ _ => []) (fun _ => Some glowing_page)
           (py "https://shop.example/item") 5
           [glowing_record (py "https://shop.example/item")]).
  - vm_compute. reflexivity.
  - apply list_elem_of_here.
Defined.

(** ** Bounds that rounding keeps *)

Section RoundingBounds.
Local Open Scope Q_scope.

Lemma py_round_between (a b : Z) (x : Q) (ndigits : nat) :
  inject_Z a <= x -> x <= inject_Z b ->
  inject_Z a <= py_round x ndigits /\ py_round x ndigits <= inject_Z b.
Proof.
  intros Ha Hb. unfold py_round. destruct ndigits as [|n].
  - destruct (round_half_even_between a b x Ha Hb) as [H1 H2].
    rewrite <- !Zle_Qle. auto.
  - set (p := Pos.pow 10 (Pos.of_nat (S n))).
    assert (Hp : 0 < inject_Z (Zpos p)) by reflexivity.
    destruct (round_half_even_between (a * Zpos p) (b * Zpos p)
                (x * inject_Z (Zpos p))) as [H1 H2].
    + rewrite inject_Z_mult. apply Qmult_le_compat_r; [exact Ha | lra].
    + rewrite inject_Z_mult. apply Qmult_le_compat_r; [exact Hb | lra].
    + rewrite (Qmake_Qdiv _ p). split.
      * apply Qle_shift_div_l; [exact Hp|].
        rewrite <- inject_Z_mult, <- Zle_Qle. exact H1.
      * apply Qle_shift_div_r; [exact Hp|].
        rewrite <- inject_Z_mult, <- Zle_Qle. exact H2.
Qed.

Lemma of_nat_le (a b : nat) : (a <= b)%nat -> of_nat a <= of_nat b.
Proof. intros H. unfold of_nat. rewrite <- Zle_Qle. lia. Qed.

Lemma share_range (count total : nat) :
  (count <= total)%nat -> (0 < total)%nat ->
  0 <= of_nat count / of_nat total * 100 /\
  of_nat count / of_nat total * 100 <= 100.
Proof.
  intros Hle Hpos. pose proof (of_nat_pos total Hpos) as Ht.
  pose proof (of_nat_le count total Hle) as Hc.
  pose proof (of_nat_le 0 count ltac:(lia)) as H0. change (of_nat 0) with 0 in H0.
  assert (H1 : 0 <= of_nat count / of_nat total)
    by (apply Qle_shift_div_l; lra).
  assert (H2 : of_nat count / of_nat total <= 1)
    by (apply Qle_shift_div_r; lra).
  lra.
Qed.

(** A percentage of a part of a whole lies between 0 and 100. *)
Lemma percentage_range (count total : nat) :
  (count <= total)%nat -> (0 < total)%nat ->
  0 <= percentage count total /\ percentage count total <= 100.
Proof.
  intros Hle Hpos. destruct (share_range count total Hle Hpos) as [H0 H1].
  exact (py_round_between 0 100 _ 1 H0 H1).
Qed.

Lemma percentage_none (total : nat) :
  (0 < total)%nat -> percentage 0 total == 0.
Proof.
  intros Hpos. pose proof (of_nat_pos total Hpos) as Ht.
  assert (E : of_nat 0 / of_nat total * 100 == 0).
  { change (of_nat 0) with 0. unfold Qdiv. now rewrite !Qmult_0_l. }
  destruct (py_round_between 0 0 (of_nat 0 / of_nat total * 100) 1) as [H1 H2];
    [rewrite E; apply Qle_refl..|].
  apply Qle_antisym; assumption.
Qed.

Lemma percentage_all (total : nat) :
  (0 < total)%nat -> percentage total total == 100.
Proof.
  intros Hpos. pose proof (of_nat_pos total Hpos) as Ht.
  assert (E : of_nat total / of_nat total * 100 == 100).
  { unfold Qdiv. rewrite Qmult_inv_r by lra. lra. }
  destruct (py_round_between 100 100 (of_nat total / of_nat total * 100) 1)
    as [H1 H2]; [rewrite E; apply Qle_refl..|].
  apply Qle_antisym; assumption.
Qed.

Lemma counter_get_le {A} `{EqDecision A} (xs : list A) (x : A) :
  (counter_get xs x <= length xs)%nat.
Proof. unfold counter_get. apply length_filter. Qed.
End RoundingBounds.

(** ** The star counts of the rating summary *)

Section Buckets.
Local Open Scope Q_scope.

Lemma py_int_bucket (k : Z) (r : Q) :
  (1 <= k)%Z -> py_int r = k <-> in_bucket k r = true.
Proof.
  intros Hk. unfold in_bucket.
  rewrite andb_true_iff, Qle_bool_iff, Qltb_lt.
  destruct r as [n d]. unfold py_int, Qle, Qlt. cbn [Qnum Qden inject_Z].
  rewrite !Z.mul_1_r.
  destruct (Z_lt_le_dec n 0) as [Hneg|Hpos].
  - assert (Hq : (Z.quot n (Zpos d) <= 0)%Z).
    { replace n with (- (- n))%Z by lia.
      rewrite Z.quot_opp_l by lia.
      pose proof (Z.quot_pos (- n) (Zpos d) ltac:(lia) ltac:(lia)). lia. }
    split; [lia|]. intros [H _]. nia.
  - rewrite Z.quot_div_nonneg by lia.
    pose proof (Z.div_mod n (Zpos d) ltac:(lia)) as Hdm.
    pose proof (Z.mod_pos_bound n (Zpos d) ltac:(lia)) as Hm.
    split.
    + intros <-. split; nia.
    + intros [H1 H2]. symmetry. apply (Z.div_unique n (Zpos d) k (n - Zpos d * k)); lia.
Qed.

Lemma in_bucket_zero (k : Z) (r : Q) :
  (1 <= k)%Z -> nonzero r = false -> in_bucket k r = false.
Proof.
  intros Hk Hz. unfold nonzero in Hz. apply negb_false_iff, Qeq_bool_iff in Hz.
  unfold in_bucket. apply andb_false_iff. left.
  apply not_true_iff_false. rewrite Qle_bool_iff. intros H.
  assert (Hk' : inject_Z 1 <= inject_Z k) by (rewrite <- Zle_Qle; exact Hk).
  change (inject_Z 1) with 1 in Hk'. lra.
Qed.

Lemma count_buckets (ratings : list Q) (k : Z) :
  (1 <= k)%Z ->
  counter_get (py_int <$> filter (fun r => Is_true (nonzero r)) ratings) k
  = length (List.filter (in_bucket k) ratings).
Proof.
  intros Hk. induction ratings as [|r l IH]; [reflexivity|].
  rewrite filter_cons. cbn [List.filter].
  destruct (decide (Is_true (nonzero r))) as [Hnz|Hz].
  - rewrite fmap_cons, counter_get_cons, IH.
    destruct (decide (py_int r = k)) as [E|E].
    + apply py_int_bucket in E; [|exact Hk]. now rewrite E.
    + destruct (in_bucket k r) eqn:Eb; [|reflexivity].
      exfalso. apply E, py_int_bucket; assumption.
  - rewrite IH. rewrite in_bucket_zero; [reflexivity | exact Hk |].
    destruct (nonzero r); [exfalso; apply Hz; exact I | reflexivity].
Qed.

Lemma rating_summary_star (rating : Q) (ratings : list Q) (k : Z) (key : string) :
  (k, key) ∈ star_keys ->
  _calculate_rating_summary (rating :: ratings) !! key
  = Some (percentage (length (List.filter (in_bucket k) (rating :: ratings)))
                     (length (rating :: ratings))).
Proof.
  intros Hk. unfold _calculate_rating_summary.
  unfold star_keys in Hk.
  repeat (apply elem_of_cons in Hk as [[= -> ->]|Hk];
          [rewrite <- count_buckets by lia; reflexivity|]).
  inversion Hk.
Qed.

(** The rating summary counts a rating [r] under [k] stars when
    [k <= r < k + 1]: a rating is truncated, not rounded, and a rating
    below 1 or from 6 on is counted under no star while it still counts
    in the total. *)
Theorem rating_summary_buckets (rating : Q) (ratings : list Q) :
  _calculate_rating_summary (rating :: ratings) !! "total_ratings"%string
    = Some (of_nat (length (rating :: ratings))) /\
  forall (k : Z) (key : string),
    (k, key) ∈ star_keys ->
    _calculate_rating_summary (rating :: ratings) !! key
    = Some (percentage (length (List.filter (in_bucket k) (rating :: ratings)))
                       (length (rating :: ratings))).
Proof.
  split; [reflexivity|]. intros k key. apply rating_summary_star.
Qed.

(** Every percentage of the two distributions lies between 0 and 100,
    whatever the labels and the ratings are. *)
Theorem percentages_in_range :
  (forall (reviews : list (gmap string pyval)) (key : string) (p : Q),
     _calculate_sentiment_distribution reviews !! key = Some p ->
     0 <= p /\ p <= 100) /\
  (forall (ratings : list Q) (k : Z) (key : string) (p : Q),
     (k, key) ∈ star_keys ->
     _calculate_rating_summary ratings !! key = Some p ->
     0 <= p /\ p <= 100).
Proof.
  split.
  - intros reviews key p. unfold _calculate_sentiment_distribution.
    set (sentiments := (fun r => py_get r "sentiment_label" (label "neutral"))
                         <$> reviews).
    assert (Hshare : forall l : string,
              0 <= (if (0 <? length sentiments)%nat
                    then percentage (counter_get sentiments (label l))
                                    (length sentiments)
                    else 0) /\
              (if (0 <? length sentiments)%nat
               then percentage (counter_get sentiments (label l))
                               (length sentiments)
               else 0) <= 100).
    { intros l. destruct (0 <? length sentiments)%nat eqn:E; [|lra].
      apply Nat.ltb_lt in E. apply percentage_range; [|exact E].
      apply counter_get_le. }
    intros H.
    apply lookup_insert_Some in H as [[_ <-]|[_ H]]; [apply Hshare|].
    apply lookup_insert_Some in H as [[_ <-]|[_ H]]; [apply Hshare|].
    apply lookup_singleton_Some in H as [_ <-]. apply Hshare.
  - intros ratings k key p Hk H. destruct ratings as [|r l];
      [cbn [_calculate_rating_summary] in H; now rewrite lookup_empty in H|].
    rewrite (rating_summary_star r l k key Hk) in H. injection H as <-.
    apply percentage_range; [exact (List.filter_length_le (in_bucket k) (r :: l)) | cbn [length]; lia].
Qed.
End Buckets.

Lemma rating_summary_buckets_witness :
  _calculate_rating_summary [9 # 2; 4; 5; 7]%Q !! "4_star"%string
  = Some (percentage 2 4).
Proof.
  apply (proj2 (rating_summary_buckets (9 # 2) [4; 5; 7]%Q) 4%Z "4_star"%string).
  apply (bool_decide_unpack _). vm_compute. exact I.
Defined.

Lemma percentages_in_range_witness :
  (exists p,
     _calculate_sentiment_distribution three_labelled !! "positive"%string = Some p /\
     (0 <= p)%Q /\ (p <= 100)%Q) /\
  (exists p,
     _calculate_rating_summary three_ratings !! "4_star"%string = Some p /\
     (0 <= p)%Q /\ (p <= 100)%Q).
Proof.
  split; eexists; (split; [reflexivity|]).
  - apply (proj1 percentages_in_range three_labelled "positive"%string).
    reflexivity.
  - apply (proj2 percentages_in_range three_ratings 4%Z "4_star"%string).
    + apply (bool_decide_unpack _). vm_compute. exact I.
    + reflexivity.
Defined.


(** ** What [analyze_reviews] returns *)

Section AnalyzeOutcome.
Local Open Scope Q_scope.
Variable chat_sentiment : nat -> pyval -> option (gmap string pyval).
Variable chat_insights : list (gmap string pyval) -> option (gmap string (list pystr)).

Lemma filter_fmap {A B} (p : B -> bool) (f : A -> B) (l : list A) :
  List.filter p (f <$> l) = f <$> List.filter (fun x => p (f x)) l.
Proof.
  induction l as [|x l IH]; [reflexivity|].
  cbn [fmap list_fmap List.filter]. fold (f <$> l). rewrite IH.
  destruct (p (f x)); reflexivity.
Qed.

(** The first loop leaves the ratings as they were. *)
Lemma ratings_frame (reviews : list nat) (h : gmap nat (gmap string pyval)) :
  (fun r => py_get r "rating" VNone)
    <$> (deref (annotate chat_sentiment 0 reviews h) <$> reviews)
  = (fun l => rating_of (deref h l)) <$> reviews.
Proof.
  rewrite <- list_fmap_compose. apply list_fmap_ext. intros i l _.
  unfold compose, rating_of, py_get. now rewrite annotate_frame by discriminate.
Qed.

(** The ratings the averages are taken over. *)
Lemma present_ratings (reviews : list nat) (h : gmap nat (gmap string pyval)) :
  List.filter is_not_none
    ((fun r => py_get r "rating" VNone)
       <$> (deref (annotate chat_sentiment 0 reviews h) <$> reviews))
  = (fun l => rating_of (deref h l)) <$> rated h reviews.
Proof. rewrite ratings_frame. apply filter_fmap. Qed.

Lemma numbers_cases (vs : list pyval) :
  (exists qs, numbers vs = Ok qs /\ vs = VNum <$> qs) \/
  (numbers vs = Raise TypeError /\
   exists v, v ∈ vs /\ forall q, v <> VNum q).
Proof.
  induction vs as [|v vs IH].
  - left. exists []. auto.
  - destruct v as [|s|q].
    + right. split; [reflexivity|]. exists VNone.
      split; [apply list_elem_of_here | discriminate].
    + right. split; [reflexivity|]. exists (VStr s).
      split; [apply list_elem_of_here | discriminate].
    + cbn [numbers]. destruct IH as [(qs & -> & ->)|(-> & v & Hv & Hq)].
      * left. exists (q :: qs). auto.
      * right. split; [reflexivity|]. exists v.
        split; [now apply list_elem_of_further | exact Hq].
Qed.

Lemma rated_elem (reviews : list nat) (h : gmap nat (gmap string pyval)) (l : nat) :
  l ∈ rated h reviews <->
  l ∈ reviews /\ is_not_none (rating_of (deref h l)) = true.
Proof. unfold rated. rewrite !list_elem_of_In. apply filter_In. Qed.

Lemma analyze_reviews_nonempty (review : nat) (rest : list nat)
    (h : gmap nat (gmap string pyval)) :
  snd (analyze_reviews chat_sentiment chat_insights (review :: rest) h) =
  (ratings ← numbers ((fun l => rating_of (deref h l)) <$> rated h (review :: rest));
   let analyzed_reviews :=
     deref (annotate chat_sentiment 0 (review :: rest) h) <$> (review :: rest) in
   let insights := _generate_insights chat_insights analyzed_reviews in
   Ok {| total_reviews := length (review :: rest);
         average_rating :=
           py_round match ratings with
                    | [] => 0
                    | _ => py_sum ratings / of_nat (length ratings)
                    end 2;
         sentiment_distribution :=
           _calculate_sentiment_distribution analyzed_reviews;
         key_insights := default [] (insights !! "key_insights"%string);
         pros := default [] (insights !! "pros"%string);
         cons := default [] (insights !! "cons"%string);
         rating_summary := _calculate_rating_summary ratings;
         recommendations := default [] (insights !! "recommendations"%string) |}).
Proof.
  unfold analyze_reviews. cbn [snd]. rewrite present_ratings.
  now rewrite length_fmap.
Qed.

Lemma string_rating_raises (reviews : list nat) (h : gmap nat (gmap string pyval)) :
  snd (analyze_reviews chat_sentiment chat_insights reviews h) = Raise TypeError <->
  exists l s, l ∈ reviews /\ rating_of (deref h l) = VStr s.
Proof.
  destruct reviews as [|review rest].
  { split; [discriminate|]. intros (l & s & Hl & _). inversion Hl. }
  rewrite analyze_reviews_nonempty.
  destruct (numbers_cases ((fun l => rating_of (deref h l))
                             <$> rated h (review :: rest)))
    as [(qs & -> & Hqs)|(-> & v & Hv & Hq)]; cbn [mbind result_bind].
  - split; [discriminate|]. intros (l & s & Hl & Hs). exfalso.
    assert (Hin : VStr s ∈ VNum <$> qs).
    { rewrite <- Hqs, <- Hs.
      apply (list_elem_of_fmap_2 (fun l => rating_of (deref h l))), rated_elem.
      split; [exact Hl|]. now rewrite Hs. }
    apply list_elem_of_fmap in Hin as (q & Hq & _). discriminate.
  - split; [|reflexivity]. intros _.
    apply list_elem_of_fmap in Hv as (l & -> & Hl).
    apply rated_elem in Hl as [Hl Hn]. exists l.
    destruct (rating_of (deref h l)) as [|s|q] eqn:E;
      [discriminate | eauto | now destruct (Hq q)].
Qed.

Lemma no_string_rating_returns (reviews : list nat) (h : gmap nat (gmap string pyval)) :
  (forall l s, l ∈ reviews -> rating_of (deref h l) <> VStr s) ->
  exists result,
    snd (analyze_reviews chat_sentiment chat_insights reviews h) = Ok result /\
    total_reviews result = length reviews.
Proof.
  intros Hno.
  destruct (snd (analyze_reviews chat_sentiment chat_insights reviews h))
    as [result|e] eqn:E.
  - exists result. split; [reflexivity|].
    destruct reviews as [|review rest]; [now injection E as <-|].
    rewrite analyze_reviews_nonempty in E.
    destruct (numbers _) as [qs|]; cbn [mbind result_bind] in E; [|discriminate].
    now injection E as <-.
  - exfalso. destruct reviews as [|review rest]; [discriminate|].
    assert (Ee : e = TypeError).
    { rewrite analyze_reviews_nonempty in E.
      destruct (numbers_cases ((fun l => rating_of (deref h l))
                                 <$> rated h (review :: rest)))
        as [(qs & Hn & _)|(Hn & _)]; rewrite Hn in E;
        cbn [mbind result_bind] in E; congruence. }
    subst e. apply string_rating_raises in E as (l & s & Hl & Hs).
    exact (Hno l s Hl Hs).
Qed.


(** *** The average *)






End AnalyzeOutcome.





(** ** When the language model is out of reach *)

Section Fallback.
Local Open Scope Q_scope.
Variable chat_sentiment : nat -> pyval -> option (gmap string pyval).
Variable chat_insights : list (gmap string pyval) -> option (gmap string (list pystr)).

Lemma counter_get_all {A} `{EqDecision A} (xs : list A) (x : A) :
  Forall (fun y => y = x) xs ->
  counter_get xs x = length xs /\
  forall y, y <> x -> counter_get xs y = 0%nat.
Proof.
  induction 1 as [|y xs -> _ [IH1 IH2]]; [split; reflexivity|].
  split.
  - rewrite counter_get_cons, decide_True, IH1 by reflexivity. reflexivity.
  - intros y Hy. rewrite counter_get_cons, decide_False, IH2 by congruence.
    reflexivity.
Qed.

Lemma fallback_fields (reviews : list nat) (h : gmap nat (gmap string pyval))
    (l : nat) :
  (forall call text, chat_sentiment call text = None) ->
  l ∈ reviews ->
  deref (annotate chat_sentiment 0 reviews h) l !! "sentiment_label"%string
    = Some (label "neutral") /\
  deref (annotate chat_sentiment 0 reviews h) l !! "sentiment_score"%string
    = Some (VNum (1 # 2)).
Proof.
  intros Hnone Hl.
  destruct (annotate_record chat_sentiment reviews 0 h l Hl) as (i & _ & ->).
  unfold _analyze_sentiment. rewrite Hnone.
  split; apply lookup_union_Some_l; reflexivity.
Qed.

Lemma fallback_distribution (reviews : list nat) (h : gmap nat (gmap string pyval)) :
  (forall call text, chat_sentiment call text = None) ->
  reviews <> [] ->
  exists p n u,
    _calculate_sentiment_distribution
      (deref (annotate chat_sentiment 0 reviews h) <$> reviews)
    = {[ "positive" := p; "negative" := n; "neutral" := u ]}%string /\
    p == 0 /\ n == 0 /\ u == 100.
Proof.
  intros Hnone Hne. unfold _calculate_sentiment_distribution.
  set (sentiments := (fun r => py_get r "sentiment_label" (label "neutral"))
         <$> (deref (annotate chat_sentiment 0 reviews h) <$> reviews)).
  assert (Hall : Forall (fun y => y = label "neutral") sentiments).
  { unfold sentiments. rewrite <- list_fmap_compose. apply Forall_fmap, Forall_forall.
    intros l Hl. unfold compose, py_get.
    destruct (fallback_fields reviews h l Hnone Hl) as [-> _]. reflexivity. }
  assert (Hlen : (0 < length sentiments)%nat).
  { unfold sentiments. rewrite !length_fmap.
    destruct reviews; [contradiction | cbn [length]; lia]. }
  destruct (counter_get_all sentiments (label "neutral") Hall) as [Hn Ho].
  apply Nat.ltb_lt in Hlen as Hb. rewrite Hb.
  rewrite Hn, (Ho (label "positive")), (Ho (label "negative")) by discriminate.
  eexists _, _, _. split; [reflexivity|].
  split; [|split]; [apply percentage_none| apply percentage_none| apply percentage_all];
    exact Hlen.
Qed.

Lemma fallback_insights (reviews : list (gmap string pyval)) :
  (forall given, chat_insights given = None) ->
  default [] (_generate_insights chat_insights reviews !! "key_insights"%string)
    = [py "Unable to generate insights automatically"] /\
  default [] (_generate_insights chat_insights reviews !! "pros"%string) = [] /\
  default [] (_generate_insights chat_insights reviews !! "cons"%string) = [] /\
  default [] (_generate_insights chat_insights reviews !! "recommendations"%string) = [].
Proof.
  intros Hnone. unfold _generate_insights. rewrite Hnone.
  repeat split; reflexivity.
Qed.

(** When every sentiment request fails, each record of the list is
    labelled neutral with score 0.5 and the sentiment distribution is 0,
    0 and 100; when the insight request fails, the only insight is the
    notice that none could be generated and the lists of pros, cons and
    recommendations are empty.  The analysis is returned all the same. *)
Theorem analyze_reviews_fallback (reviews : list nat)
    (h : gmap nat (gmap string pyval)) :
  reviews <> [] ->
  (forall l s, l ∈ reviews -> rating_of (deref h l) <> VStr s) ->
  exists result,
    snd (analyze_reviews chat_sentiment chat_insights reviews h) = Ok result /\
    ((forall call text, chat_sentiment call text = None) ->
     (forall l, l ∈ reviews ->
        deref (fst (analyze_reviews chat_sentiment chat_insights reviews h)) l
          !! "sentiment_label"%string = Some (label "neutral") /\
        deref (fst (analyze_reviews chat_sentiment chat_insights reviews h)) l
          !! "sentiment_score"%string = Some (VNum (1 # 2))) /\
     exists p n u,
       sentiment_distribution result
         = {[ "positive" := p; "negative" := n; "neutral" := u ]}%string /\
       p == 0 /\ n == 0 /\ u == 100) /\
    ((forall given, chat_insights given = None) ->
     key_insights result = [py "Unable to generate insights automatically"] /\
     pros result = [] /\ cons result = [] /\ recommendations result = []).
Proof.
  intros Hne Hno. destruct reviews as [|review rest]; [contradiction|].
  destruct (numbers ((fun l => rating_of (deref h l)) <$> rated h (review :: rest)))
    as [qs|e] eqn:En.
  - rewrite analyze_reviews_nonempty, En. cbn [mbind result_bind].
    eexists. split; [reflexivity|]. split.
    + intros Hnone. split.
      * intros l Hl. now apply fallback_fields.
      * cbn [sentiment_distribution]. now apply fallback_distribution.
    + intros Hnone. cbn [key_insights pros cons recommendations].
      now apply fallback_insights.
  - exfalso.
    destruct (no_string_rating_returns chat_sentiment chat_insights
                (review :: rest) h Hno) as (result & E & _).
    rewrite analyze_reviews_nonempty, En in E. discriminate.
Qed.
End Fallback.

Lemma analyze_reviews_fallback_witness :
  exists result,
    snd (analyze_reviews no_sentiment no_insights [0; 1; 2]%nat three_records)
      = Ok result /\
    ((forall call text, no_sentiment call text = None) ->
     (forall l, l ∈ [0; 1; 2]%nat ->
        deref (fst (analyze_reviews no_sentiment no_insights [0; 1; 2]%nat
                      three_records)) l
          !! "sentiment_label"%string = Some (label "neutral") /\
        deref (fst (analyze_reviews no_sentiment no_insights [0; 1; 2]%nat
                      three_records)) l
          !! "sentiment_score"%string = Some (VNum (1 # 2))) /\
     exists p n u,
       sentiment_distribution result
         = {[ "positive" := p; "negative" := n; "neutral" := u ]}%string /\
       (p == 0)%Q /\ (n == 0)%Q /\ (u == 100)%Q) /\
    ((forall given, no_insights given = None) ->
     key_insights result = [py "Unable to generate insights automatically"] /\
     pros result = [] /\ cons result = [] /\ recommendations result = []).
Proof.
  apply (analyze_reviews_fallback no_sentiment no_insights
           [0; 1; 2]%nat three_records); [discriminate|].
  intros l s Hl.
  repeat (apply elem_of_cons in Hl as [->|Hl]; [vm_compute; discriminate|]).
  inversion Hl.
Defined.


(** ** From the scraped pages to the analysis *)

Section EndToEnd.
Local Open Scope Q_scope.
Variable search_reviews : pystr -> nat -> list pystr.
Variable scrape_reviews : pystr -> option pystr.
Variable chat_sentiment : nat -> pyval -> option (gmap string pyval).
Variable chat_insights : list (gmap string pyval) -> option (gmap string (list pystr)).


End EndToEnd.


